(** * speech2code: the streaming session engine of [live_whisper/server.py]

    A shallow embedding of the session registry ([ClientManager]), the audio
    window and the segment stabilizer ([ServeClientBase],
    [ServeClientFasterWhisper]), the handshake and frame loop of a
    connection ([TranscriptionServer]) and one iteration of the worker loop,
    together with the properties of the specification that concern them and
    further properties read off the code.

    Conventions of the embedding.
    - A Python [float] is a rational ([Q]); [int(x)] truncates toward zero;
      [min]/[max] keep Python's choice of argument.  The arithmetic that
      places the cursor in the window (lines 394, 396, 412 and 812) is
      binary64 arithmetic, because [int] is taken of its result: each
      operand is read as the binary64 number nearest to it and the exact
      result is rounded to the nearest binary64 number, ties to even
      ([b64]).  Overflow is out of reach of the times of a session and is
      not modelled.  Elsewhere the arithmetic is exact.
    - A NumPy sample buffer is a [list Q]; [a[k:]] follows Python's slice
      rules, negative [k] included.
    - A [str] is a [string] of ASCII characters; [strip] and [lower] follow
      Python on that range.
    - A [dict] keyed by websocket objects is a [gmap positive _]: a websocket
      is identified by a number.
    - [time.time()] is an argument [now] of the operation that reads it.
    - An exception is a value [Raise e] of the [result] type.
    - [websocket.send] and [websocket.close] succeed and are recorded as
      events; the file system and the loading of a model are functions
      given to the handshake; the model's answer for a chunk is a function
      given to the worker loop.
    - A connection handler and a worker are followed one at a time: the
      steps of one are not interleaved with those of another thread.       *)

From Stdlib Require Import ZArith QArith Qround Qpower Lqa Lia List String Ascii.
From Stdlib Require Import Sorted.
From Stdlib Require Import Decimal DecimalString.
From stdpp Require Import base option list sorting gmap strings.
Import ListNotations.

Open Scope Q_scope.

(* ================================================================== *)
(** ** Python values                                                    *)
(* ================================================================== *)

Inductive exn : Type :=
| IndexError
| KeyError
| TypeError
| AttributeError.

Inductive result (A : Type) : Type :=
| Ok (a : A)
| Raise (e : exn).
Arguments Ok {A} a.
Arguments Raise {A} e.

#[global] Instance result_ret : MRet result := fun _ a => Ok a.

#[global] Instance result_bind : MBind result := fun _ _ k r =>
  match r with
  | Ok a => k a
  | Raise e => Raise e
  end.

(** [a < b] on floats, as a boolean. *)
Definition Qltb (a b : Q) : bool := negb (Qle_bool b a).

(** [min(a, b)]: Python returns [a] unless [b < a]. *)
Definition py_min (a b : Q) : Q := if Qltb b a then b else a.

(** [max(a, b)]: Python returns [a] unless [b > a]. *)
Definition py_max (a b : Q) : Q := if Qltb a b then b else a.

(** [int(x)]: truncation toward zero. *)
Definition py_int (x : Q) : Z := Z.quot (Qnum x) (Z.pos (Qden x)).

(* ------------------------------------------------------------------ *)
(** *** Binary64 arithmetic                                             *)

(** The integer nearest to [x], ties to the even one. *)
Definition round_half_even (x : Q) : Z :=
  let f := Qfloor x in
  match Qcompare (x - inject_Z f) (1 # 2) with
  | Lt => f
  | Gt => (f + 1)%Z
  | Eq => if Z.even f then f else (f + 1)%Z
  end.

(** [floor (log2 x)] for a positive [x]. *)
Definition ilog2 (x : Q) : Z :=
  let k := (Z.log2 (Qnum x) - Z.log2 (Z.pos (Qden x)))%Z in
  if Qle_bool (2 ^ k) x then k else (k - 1)%Z.

(** The exponent of the last place of a binary64 number in the binade of
    [x]: 53 significant bits, and no exponent below that of the subnormal
    numbers. *)
Definition ulp_exp (x : Q) : Z := Z.max (ilog2 x - 52) (-1074).

Definition b64_pos (x : Q) : Q :=
  inject_Z (round_half_even (x / 2 ^ ulp_exp x)) * 2 ^ ulp_exp x.

(** The binary64 number nearest to [x], ties to even, in lowest terms. *)
Definition b64 (x : Q) : Q :=
  let x := Qred x in
  Qred (match Qnum x with
        | Z0 => 0
        | Zpos _ => b64_pos x
        | Zneg _ => - b64_pos (- x)
        end).

(** [x + y], [x - y] and [x * y] on floats. *)
Definition fadd (x y : Q) : Q := b64 (b64 x + b64 y).
Definition fsub (x y : Q) : Q := b64 (b64 x - b64 y).
Definition fmul (x y : Q) : Q := b64 (b64 x * b64 y).

(** [l[k:]] for a list or a one-dimensional array. *)
Definition py_slice_from {A} (l : list A) (k : Z) : list A :=
  if (0 <=? k)%Z then drop (Z.to_nat k) l
  else drop (length l - Z.to_nat (- k)) l.

(** Number of elements, as a Python integer. *)
Definition len {A} (l : list A) : Z := Z.of_nat (length l).

(* ------------------------------------------------------------------ *)
(** *** [str.strip()] and [str.lower()]                                 *)

Definition is_space (c : ascii) : bool :=
  let n := nat_of_ascii c in
  ((9 <=? n)%nat && (n <=? 13)%nat) || ((28 <=? n)%nat && (n <=? 32)%nat).

Fixpoint lstrip (s : string) : string :=
  match s with
  | EmptyString => EmptyString
  | String c r => if is_space c then lstrip r else s
  end.

Definition strip (s : string) : string :=
  String.rev (lstrip (String.rev (lstrip s))).

Definition lower_char (c : ascii) : ascii :=
  let n := nat_of_ascii c in
  if ((65 <=? n)%nat && (n <=? 90)%nat) then ascii_of_nat (n + 32) else c.

Fixpoint lower (s : string) : string :=
  match s with
  | EmptyString => EmptyString
  | String c r => String (lower_char c) (lower r)
  end.

(* ------------------------------------------------------------------ *)
(** *** ["{:.3f}".format(x)]                                            *)

(** [|x| * 1000] rounded to the nearest integer, ties to even. *)
Definition round3_abs (x : Q) : Z :=
  let n := (Z.abs (Qnum x) * 1000)%Z in
  let d := Z.pos (Qden x) in
  let q := (n / d)%Z in
  let r := (n mod d)%Z in
  if (2 * r <? d)%Z then q
  else if (d <? 2 * r)%Z then (q + 1)%Z
  else if Z.even q then q else (q + 1)%Z.

Definition digit (n : Z) : ascii := ascii_of_nat (48 + Z.to_nat n).

Definition format_3f (x : Q) : string :=
  let m := round3_abs x in
  let f := (m mod 1000)%Z in
  ((if Qltb x 0 then "-" else "")
   ++ NilZero.string_of_uint (N.to_uint (Z.to_N (m / 1000)))
   ++ String "." (String (digit (f / 100))
        (String (digit ((f / 10) mod 10))
          (String (digit (f mod 10)) EmptyString))))%string.

(** Reading a formatted time back, in thousandths of a second. *)
Fixpoint read_digits (s : string) (acc : Z) : option Z :=
  match s with
  | EmptyString => Some acc
  | String c r =>
      let n := nat_of_ascii c in
      if (n =? 46)%nat then read_digits r acc
      else if ((48 <=? n)%nat && (n <=? 57)%nat)
           then read_digits r (acc * 10 + Z.of_nat (n - 48))%Z
           else None
  end.

Definition parse_3f (s : string) : option Z :=
  match s with
  | String "-" r => Z.opp <$> read_digits r 0%Z
  | _ => read_digits s 0%Z
  end.

(* ================================================================== *)
(** ** Data                                                             *)
(* ================================================================== *)

(** A raw segment returned by the model. *)
Record Segment : Type := {
  seg_start : Q;
  seg_end : Q;
  seg_text : string;
  no_speech_prob : Q
}.

(** A formatted transcript segment: the dict built by [format_segment]. *)
Record Entry : Type := {
  e_start : string;
  e_end : string;
  e_text : string
}.

(** The attributes of [ServeClientBase] and [ServeClientFasterWhisper]. *)
Record ServeClient : Type := {
  client_uid : string;
  websocket : positive;
  frames_np : option (list Q);
  timestamp_offset : Q;
  frames_offset : Q;
  text : list string;
  current_out : string;
  prev_out : string;
  t_start : option Q;
  exit : bool;
  same_output_threshold : Z;
  show_prev_out_thresh : Q;
  add_pause_thresh : Q;
  transcript : list Entry;
  send_last_n_segments : Z;
  no_speech_thresh : Q
}.

Definition RATE : Z := 16000.

(** [ServeClientFasterWhisper.__init__], the attributes only. *)
Definition new_client (uid : string) (ws : positive) : ServeClient := {|
  client_uid := uid;
  websocket := ws;
  frames_np := None;
  timestamp_offset := 0;
  frames_offset := 0;
  text := [];
  current_out := "";
  prev_out := "";
  t_start := None;
  exit := false;
  same_output_threshold := 0;
  show_prev_out_thresh := 5;
  add_pause_thresh := 3;
  transcript := [];
  send_last_n_segments := 10;
  no_speech_thresh := 45 # 100
|}.

(** Attribute assignment. *)
Definition set_frames_np (v : option (list Q)) (c : ServeClient) :=
  {| client_uid := client_uid c; websocket := websocket c; frames_np := v;
     timestamp_offset := timestamp_offset c; frames_offset := frames_offset c;
     text := text c; current_out := current_out c; prev_out := prev_out c;
     t_start := t_start c; exit := exit c;
     same_output_threshold := same_output_threshold c;
     show_prev_out_thresh := show_prev_out_thresh c;
     add_pause_thresh := add_pause_thresh c; transcript := transcript c;
     send_last_n_segments := send_last_n_segments c;
     no_speech_thresh := no_speech_thresh c |}.

Definition set_timestamp_offset (v : Q) (c : ServeClient) :=
  {| client_uid := client_uid c; websocket := websocket c;
     frames_np := frames_np c;
     timestamp_offset := v; frames_offset := frames_offset c;
     text := text c; current_out := current_out c; prev_out := prev_out c;
     t_start := t_start c; exit := exit c;
     same_output_threshold := same_output_threshold c;
     show_prev_out_thresh := show_prev_out_thresh c;
     add_pause_thresh := add_pause_thresh c; transcript := transcript c;
     send_last_n_segments := send_last_n_segments c;
     no_speech_thresh := no_speech_thresh c |}.

Definition set_frames_offset (v : Q) (c : ServeClient) :=
  {| client_uid := client_uid c; websocket := websocket c;
     frames_np := frames_np c;
     timestamp_offset := timestamp_offset c; frames_offset := v;
     text := text c; current_out := current_out c; prev_out := prev_out c;
     t_start := t_start c; exit := exit c;
     same_output_threshold := same_output_threshold c;
     show_prev_out_thresh := show_prev_out_thresh c;
     add_pause_thresh := add_pause_thresh c; transcript := transcript c;
     send_last_n_segments := send_last_n_segments c;
     no_speech_thresh := no_speech_thresh c |}.

Definition set_text (v : list string) (c : ServeClient) :=
  {| client_uid := client_uid c; websocket := websocket c;
     frames_np := frames_np c;
     timestamp_offset := timestamp_offset c; frames_offset := frames_offset c;
     text := v; current_out := current_out c; prev_out := prev_out c;
     t_start := t_start c; exit := exit c;
     same_output_threshold := same_output_threshold c;
     show_prev_out_thresh := show_prev_out_thresh c;
     add_pause_thresh := add_pause_thresh c; transcript := transcript c;
     send_last_n_segments := send_last_n_segments c;
     no_speech_thresh := no_speech_thresh c |}.

Definition set_current_out (v : string) (c : ServeClient) :=
  {| client_uid := client_uid c; websocket := websocket c;
     frames_np := frames_np c;
     timestamp_offset := timestamp_offset c; frames_offset := frames_offset c;
     text := text c; current_out := v; prev_out := prev_out c;
     t_start := t_start c; exit := exit c;
     same_output_threshold := same_output_threshold c;
     show_prev_out_thresh := show_prev_out_thresh c;
     add_pause_thresh := add_pause_thresh c; transcript := transcript c;
     send_last_n_segments := send_last_n_segments c;
     no_speech_thresh := no_speech_thresh c |}.

Definition set_prev_out (v : string) (c : ServeClient) :=
  {| client_uid := client_uid c; websocket := websocket c;
     frames_np := frames_np c;
     timestamp_offset := timestamp_offset c; frames_offset := frames_offset c;
     text := text c; current_out := current_out c; prev_out := v;
     t_start := t_start c; exit := exit c;
     same_output_threshold := same_output_threshold c;
     show_prev_out_thresh := show_prev_out_thresh c;
     add_pause_thresh := add_pause_thresh c; transcript := transcript c;
     send_last_n_segments := send_last_n_segments c;
     no_speech_thresh := no_speech_thresh c |}.

Definition set_t_start (v : option Q) (c : ServeClient) :=
  {| client_uid := client_uid c; websocket := websocket c;
     frames_np := frames_np c;
     timestamp_offset := timestamp_offset c; frames_offset := frames_offset c;
     text := text c; current_out := current_out c; prev_out := prev_out c;
     t_start := v; exit := exit c;
     same_output_threshold := same_output_threshold c;
     show_prev_out_thresh := show_prev_out_thresh c;
     add_pause_thresh := add_pause_thresh c; transcript := transcript c;
     send_last_n_segments := send_last_n_segments c;
     no_speech_thresh := no_speech_thresh c |}.

Definition set_exit (v : bool) (c : ServeClient) :=
  {| client_uid := client_uid c; websocket := websocket c;
     frames_np := frames_np c;
     timestamp_offset := timestamp_offset c; frames_offset := frames_offset c;
     text := text c; current_out := current_out c; prev_out := prev_out c;
     t_start := t_start c; exit := v;
     same_output_threshold := same_output_threshold c;
     show_prev_out_thresh := show_prev_out_thresh c;
     add_pause_thresh := add_pause_thresh c; transcript := transcript c;
     send_last_n_segments := send_last_n_segments c;
     no_speech_thresh := no_speech_thresh c |}.

Definition set_same_output_threshold (v : Z) (c : ServeClient) :=
  {| client_uid := client_uid c; websocket := websocket c;
     frames_np := frames_np c;
     timestamp_offset := timestamp_offset c; frames_offset := frames_offset c;
     text := text c; current_out := current_out c; prev_out := prev_out c;
     t_start := t_start c; exit := exit c;
     same_output_threshold := v;
     show_prev_out_thresh := show_prev_out_thresh c;
     add_pause_thresh := add_pause_thresh c; transcript := transcript c;
     send_last_n_segments := send_last_n_segments c;
     no_speech_thresh := no_speech_thresh c |}.

Definition set_transcript (v : list Entry) (c : ServeClient) :=
  {| client_uid := client_uid c; websocket := websocket c;
     frames_np := frames_np c;
     timestamp_offset := timestamp_offset c; frames_offset := frames_offset c;
     text := text c; current_out := current_out c; prev_out := prev_out c;
     t_start := t_start c; exit := exit c;
     same_output_threshold := same_output_threshold c;
     show_prev_out_thresh := show_prev_out_thresh c;
     add_pause_thresh := add_pause_thresh c; transcript := v;
     send_last_n_segments := send_last_n_segments c;
     no_speech_thresh := no_speech_thresh c |}.

(* ================================================================== *)
(** ** The audio window ([ServeClientBase])                             *)
(* ================================================================== *)

(** [add_frames]: lines 371-384.  The trim test reads [self.frames_np[0]],
    the first sample of the buffer, and compares it with [45 * RATE]. *)
Definition add_frames (frame_np : list Q) (c : ServeClient)
  : result ServeClient :=
  c1 ← match frames_np c with
         | None => Ok c
         | Some buf =>
             match buf with
             | [] => Raise IndexError
             | x0 :: _ =>
                 if Qltb (inject_Z (45 * RATE)) x0 then
                   let c' := set_frames_offset (frames_offset c + 30) c in
                   let c' := set_frames_np
                               (Some (py_slice_from buf (30 * RATE))) c' in
                   if Qltb (timestamp_offset c') (frames_offset c')
                   then Ok (set_timestamp_offset (frames_offset c') c')
                   else Ok c'
                 else Ok c
             end
         end;
  match frames_np c1 with
  | None => Ok (set_frames_np (Some frame_np) c1)
  | Some buf => Ok (set_frames_np (Some (buf ++ frame_np)) c1)
  end.

(** [clip_audio_if_no_valid_segment]: lines 394-396. *)
Definition clip_audio_if_no_valid_segment (c : ServeClient)
  : result ServeClient :=
  match frames_np c with
  | None => Raise TypeError
  | Some buf =>
      let k := py_int (fmul (fsub (timestamp_offset c) (frames_offset c))
                            (inject_Z RATE)) in
      if (25 * RATE <? len (py_slice_from buf k))%Z then
        let duration := inject_Z (len buf) / inject_Z RATE in
        Ok (set_timestamp_offset
              (fsub (fadd (frames_offset c) duration) 5) c)
      else Ok c
  end.

(** [get_audio_chunk_for_processing]: lines 412-415. *)
Definition get_audio_chunk_for_processing (c : ServeClient)
  : result (list Q * Q) :=
  match frames_np c with
  | None => Raise TypeError
  | Some buf =>
      let samples_take :=
        py_max 0 (fmul (fsub (timestamp_offset c) (frames_offset c))
                       (inject_Z RATE)) in
      let input_bytes := py_slice_from buf (py_int samples_take) in
      Ok (input_bytes, inject_Z (len input_bytes) / inject_Z RATE)
  end.

(** [prepare_segments]: lines 433-442. *)
Definition prepare_segments (last_segment : option Entry) (c : ServeClient)
  : list Entry :=
  let segments :=
    if (send_last_n_segments c <=? len (transcript c))%Z
    then py_slice_from (transcript c) (- send_last_n_segments c)
    else transcript c in
  match last_segment with
  | Some e => segments ++ [e]
  | None => segments
  end.

(* ================================================================== *)
(** ** The segment stabilizer ([ServeClientFasterWhisper])              *)
(* ================================================================== *)

(** [format_segment]: lines 673-677. *)
Definition format_segment (start end_ : Q) (text_ : string) : Entry :=
  {| e_start := format_3f start; e_end := format_3f end_; e_text := text_ |}.

(** The body of the loop over the complete segments, lines 707-717; the
    accumulator is the client together with the local [offset]. *)
Definition complete_segment_step (duration : Q)
    (acc : ServeClient * option Q) (s : Segment) : ServeClient * option Q :=
  let '(c, offset) := acc in
  let text_ := seg_text s in
  let c := set_text (text c ++ [text_]) c in
  let start := timestamp_offset c + seg_start s in
  let end_ := timestamp_offset c + py_min duration (seg_end s) in
  if Qle_bool end_ start then (c, offset)
  else if Qltb (no_speech_thresh c) (no_speech_prob s) then (c, offset)
  else (set_transcript (transcript c ++ [format_segment start end_ text_]) c,
        Some (py_min duration (seg_end s))).

(** [update_segments]: lines 700-754. *)
Definition update_segments (segments : list Segment) (duration : Q)
    (c : ServeClient) : result (ServeClient * option Entry) :=
  let offset : option Q := None in
  let c := set_current_out "" c in
  let last_segment : option Entry := None in
  let '(c, offset) :=
    if (1 <? len segments)%Z
    then fold_left (complete_segment_step duration)
                   (removelast segments) (c, offset)
    else (c, offset) in
  match last segments with
  | None => Raise IndexError
  | Some sl =>
      let '(c, last_segment) :=
        if Qle_bool (no_speech_prob sl) (no_speech_thresh c) then
          let c := set_current_out (current_out c ++ seg_text sl) c in
          (c, Some (format_segment
                      (timestamp_offset c + seg_start sl)
                      (timestamp_offset c + py_min duration (seg_end sl))
                      (current_out c)))
        else (c, last_segment) in
      let c :=
        if (strip (current_out c) =? strip (prev_out c))%string
           && negb (current_out c =? "")%string
        then set_same_output_threshold (same_output_threshold c + 1) c
        else set_same_output_threshold 0 c in
      let '(c, offset, last_segment) :=
        if (5 <? same_output_threshold c)%Z then
          let c :=
            if (len (text c) =? 0)%Z
               || negb (match last (text c) with
                        | Some t =>
                            (lower (strip t)
                             =? lower (strip (current_out c)))%string
                        | None => false
                        end)
            then
              let c' := set_text (text c ++ [current_out c]) c in
              set_transcript
                (transcript c'
                 ++ [format_segment (timestamp_offset c')
                       (timestamp_offset c' + duration) (current_out c')]) c'
            else c in
          let c := set_current_out "" c in
          let c := set_same_output_threshold 0 c in
          (c, Some duration, None)
        else (set_prev_out (current_out c) c, offset, last_segment) in
      let c :=
        match offset with
        | Some o => set_timestamp_offset (timestamp_offset c + o) c
        | None => c
        end in
      Ok (c, last_segment)
  end.

(** [get_previous_output]: lines 647-657. *)
Definition get_previous_output (now : Q) (c : ServeClient)
  : ServeClient * list Entry :=
  let c := match t_start c with
           | None => set_t_start (Some now) c
           | Some _ => c
           end in
  let t0 := default now (t_start c) in
  let segments :=
    if Qltb (now - t0) (show_prev_out_thresh c)
    then prepare_segments None c else [] in
  let c :=
    if negb (len (text c) =? 0)%Z
       && negb (default "" (last (text c)) =? "")%string
    then if Qltb (add_pause_thresh c) (now - t0)
         then set_text (text c ++ [""%string]) c else c
    else c in
  (c, segments).

(** [handle_transcription_output]: lines 764-774.  The second component is
    the segment list sent to the client, when one is sent. *)
Definition handle_transcription_output (now : Q) (result_ : list Segment)
    (duration : Q) (c : ServeClient)
  : result (ServeClient * option (list Entry)) :=
  '(c, segments) ← (if negb (len result_ =? 0)%Z then
                       let c := set_t_start None c in
                       '(c, last_segment) ← update_segments result_ duration c;
                       Ok (c, prepare_segments last_segment c)
                     else Ok (get_previous_output now c));
  if negb (len segments =? 0)%Z
  then Ok (c, Some segments)
  else Ok (c, None).

(* ================================================================== *)
(** ** The session registry ([ClientManager])                           *)
(* ================================================================== *)

(** The JSON messages the server sends. *)
Inductive message : Type :=
| MsgWait (uid : string) (wait_time : Q)
| MsgDisconnect (uid : string)
| MsgSegments (uid : string) (segments : list Entry).

(** What a websocket object is asked to do. *)
Inductive event : Type :=
| Sent (ws : positive) (m : message)
| Closed (ws : positive).

Record ClientManager : Type := {
  clients : gmap positive ServeClient;
  start_times : gmap positive Q;
  max_clients : Z;
  max_connection_time : Q
}.

(** [ClientManager.__init__] with its default arguments. *)
Definition new_manager : ClientManager :=
  {| clients := ∅; start_times := ∅; max_clients := 4;
     max_connection_time := 600 |}.

(** [add_client]: lines 43-44. *)
Definition add_client (ws : positive) (client : ServeClient) (now : Q)
    (m : ClientManager) : ClientManager :=
  {| clients := <[ws := client]> (clients m);
     start_times := <[ws := now]> (start_times m);
     max_clients := max_clients m;
     max_connection_time := max_connection_time m |}.

(** [get_client]: lines 56-58; [None] stands for the [False] returned. *)
Definition get_client (ws : positive) (m : ClientManager)
  : option ServeClient :=
  clients m !! ws.

(** [ServeClientBase.cleanup]: line 499. *)
Definition cleanup (c : ServeClient) : ServeClient := set_exit true c.

(** [remove_client]: lines 68-71.  The client object popped from the table
    is returned after its [cleanup]. *)
Definition remove_client (ws : positive) (m : ClientManager)
  : ClientManager * option ServeClient :=
  ({| clients := delete ws (clients m);
      start_times := delete ws (start_times m);
      max_clients := max_clients m;
      max_connection_time := max_connection_time m |},
   cleanup <$> clients m !! ws).

(** The body of the loop of [get_wait_time], lines 82-84. *)
Definition wait_time_step (max_time now : Q) (wait_time : option Q)
    (start_time : Q) : option Q :=
  let current_client_time_remaining := max_time - (now - start_time) in
  match wait_time with
  | None => Some current_client_time_remaining
  | Some w =>
      if Qltb current_client_time_remaining w
      then Some current_client_time_remaining
      else Some w
  end.

(** [get_wait_time]: lines 80-85.  The values are visited in the order of
    the table's keys. *)
Definition get_wait_time (now : Q) (m : ClientManager) : Q :=
  let wait_time :=
    foldl (wait_time_step (max_connection_time m) now) None
          ((map_to_list (start_times m)).*2) in
  match wait_time with
  | Some w => w / 60
  | None => 0
  end.

(** [is_server_full]: lines 98-103; [uid] is [options["uid"]]. *)
Definition is_server_full (ws : positive) (uid : string) (now : Q)
    (m : ClientManager) : bool * list event :=
  if (max_clients m <=? Z.of_nat (size (clients m)))%Z
  then (true, [Sent ws (MsgWait uid (get_wait_time now m))])
  else (false, []).

(** [ServeClientBase.disconnect]: lines 484-487. *)
Definition disconnect (c : ServeClient) : list event :=
  [Sent (websocket c) (MsgDisconnect (client_uid c))].

(** [is_client_timeout]: lines 115-120. *)
Definition is_client_timeout (ws : positive) (now : Q) (m : ClientManager)
  : result (bool * list event) :=
  match start_times m !! ws with
  | None => Raise KeyError
  | Some start_time =>
      let elapsed_time := now - start_time in
      if Qle_bool (max_connection_time m) elapsed_time then
        match clients m !! ws with
        | None => Raise KeyError
        | Some c => Ok (true, disconnect c)
        end
      else Ok (false, [])
  end.

(* ================================================================== *)
(** ** The connection handler ([TranscriptionServer])                   *)
(* ================================================================== *)

(** [process_audio_frames]: lines 216-222.  [None] is the frame
    [END_OF_AUDIO]. *)
Definition process_audio_frames (ws : positive) (frame : option (list Q))
    (m : ClientManager) : result (bool * ClientManager) :=
  match frame with
  | None => Ok (false, m)
  | Some frame_np =>
      match get_client ws m with
      | None => Raise AttributeError
      | Some client =>
          client' ← add_frames frame_np client;
          Ok (true,
              {| clients := <[ws := client']> (clients m);
                 start_times := start_times m;
                 max_clients := max_clients m;
                 max_connection_time := max_connection_time m |})
      end
  end.

(** The [finally] clause of [recv_audio], lines 259-261, with
    [TranscriptionServer.cleanup], lines 304-305. *)
Definition recv_audio_finally (ws : positive) (m : ClientManager)
  : ClientManager * list event :=
  match get_client ws m with
  | Some _ => ((remove_client ws m).1, [Closed ws])
  | None => (m, [])
  end.

Inductive handler_status : Type :=
| Receiving
| Returned.

(** The loop of [recv_audio] after the handshake, lines 250-261.  Each input
    is the clock read by the lifetime check and the frame then received; the
    handler is left [Receiving] when the inputs run out. *)
Fixpoint recv_audio_loop (ws : positive)
    (inputs : list (Q * option (list Q))) (m : ClientManager)
  : handler_status * ClientManager * list event :=
  match inputs with
  | [] => (Receiving, m, [])
  | (now, frame) :: rest =>
      match is_client_timeout ws now m with
      | Raise _ =>
          let '(m', evs) := recv_audio_finally ws m in (Returned, m', evs)
      | Ok (true, sent) =>
          let '(m', evs) := recv_audio_finally ws m in
          (Returned, m', sent ++ evs)
      | Ok (false, sent) =>
          match process_audio_frames ws frame m with
          | Raise _ =>
              let '(m', evs) := recv_audio_finally ws m in
              (Returned, m', sent ++ evs)
          | Ok (false, m1) =>
              let '(m', evs) := recv_audio_finally ws m1 in
              (Returned, m', sent ++ evs)
          | Ok (true, m1) =>
              let '(st, m', evs) := recv_audio_loop ws rest m1 in
              (st, m', sent ++ evs)
          end
      end
  end.

(* ================================================================== *)
(** ** Running the stabilizer over a sequence of polls                  *)
(* ================================================================== *)

(** One poll: the raw segments and the chunk's duration. *)
Definition poll : Type := list Segment * Q.

(** Successive calls of [update_segments] on the same client, with the
    tentative segment each call returned. *)
Fixpoint run_polls (ps : list poll) (c : ServeClient)
  : result (ServeClient * list (option Entry)) :=
  match ps with
  | [] => Ok (c, [])
  | (segments, duration) :: rest =>
      '(c1, r) ← update_segments segments duration c;
      '(c2, rs) ← run_polls rest c1;
      Ok (c2, r :: rs)
  end.

Definition seg (a b : Q) (t : string) (p : Q) : Segment :=
  {| seg_start := a; seg_end := b; seg_text := t; no_speech_prob := p |}.

(* ================================================================== *)
(** ** Reference notions and sample inputs                              *)
(* ================================================================== *)

(** The estimate that the specification describes: the least remaining
    lifetime, in minutes, floored at [0]. *)
Definition spec_wait_time_ok (now : Q) (m : ClientManager) (w : Q) : Prop :=
  0 <= w /\
  forall ws t, start_times m !! ws = Some t ->
    w <= py_max 0 ((max_connection_time m - (now - t)) / 60).

(** Four sessions admitted at times 0, 10, 20 and 30 fill the default
    registry. *)
Definition full_manager : ClientManager :=
  add_client 4 (new_client "u4" 4) 30
    (add_client 3 (new_client "u3" 3) 20
      (add_client 2 (new_client "u2" 2) 10
        (add_client 1 (new_client "u1" 1) 0 new_manager))).


(** [processedCursor - bufferOrigin] converted to samples, as line 394
    converts it. *)
Definition cursor_samples (c : ServeClient) : Z :=
  py_int (fmul (fsub (timestamp_offset c) (frames_offset c))
               (inject_Z RATE)).

(** The unprocessed region in the specification's words: the window length
    minus [processedCursor - bufferOrigin] converted to samples. *)
Definition unprocessed_samples (c : ServeClient) (buf : list Q) : Z :=
  (len buf - cursor_samples c)%Z.

(** The times of a session stay within [horizon] seconds, some 34 years. *)
Definition horizon : Z := 2 ^ 30.

(** The data model of the window: the buffer origin and the cursor are
    times of the session with the cursor not before the origin, and the
    window holds no more than [horizon] seconds of samples. *)
Definition window_ok (c : ServeClient) (buf : list Q) : Prop :=
  frames_np c = Some buf /\
  0 <= frames_offset c /\
  frames_offset c <= timestamp_offset c /\
  timestamp_offset c <= inject_Z horizon /\
  (len buf <= horizon * RATE)%Z.

(** A window holding [n] seconds of silence. *)
Definition silence (n : Z) : list Q := repeat 0 (Z.to_nat (n * RATE)).

(** A window holding [n] samples of silence. *)
Definition samples (n : Z) : list Q := repeat 0 (Z.to_nat n).

(* ------------------------------------------------------------------ *)
(** *** The stabilizer in closed form                                   *)

(** The entry built from a complete segment. *)
Definition complete_entry (d ts : Q) (s : Segment) : Entry :=
  format_segment (ts + seg_start s) (ts + py_min d (seg_end s)) (seg_text s).

(** A complete segment is committed when it passes both filters. *)
Definition commits (d ts thresh : Q) (s : Segment) : bool :=
  negb (Qle_bool (ts + py_min d (seg_end s)) (ts + seg_start s))
  && negb (Qltb thresh (no_speech_prob s)).

(** The complete segments of a poll that are committed. *)
Definition kept (d : Q) (complete : list Segment) (c : ServeClient)
  : list Segment :=
  List.filter (commits d (timestamp_offset c) (no_speech_thresh c)) complete.

(** [current_out] once the last segment has been looked at. *)
Definition tentative_text (c : ServeClient) (sl : Segment) : string :=
  if Qle_bool (no_speech_prob sl) (no_speech_thresh c)
  then seg_text sl else "".

(** The segment returned when no commit-on-stability takes place. *)
Definition tentative_segment (d : Q) (c : ServeClient) (sl : Segment)
  : option Entry :=
  if Qle_bool (no_speech_prob sl) (no_speech_thresh c)
  then Some (format_segment (timestamp_offset c + seg_start sl)
               (timestamp_offset c + py_min d (seg_end sl)) (seg_text sl))
  else None.

(** [same_output_threshold] after the repetition test. *)
Definition repeat_count (c : ServeClient) (cur : string) : Z :=
  if (strip cur =? strip (prev_out c))%string && negb (cur =? "")%string
  then (same_output_threshold c + 1)%Z else 0%Z.

(** The guard of line 736 on a text history. *)
Definition is_new_text (history : list string) (cur : string) : bool :=
  (len history =? 0)%Z
  || negb (match last history with
           | Some t => (lower (strip t) =? lower (strip cur))%string
           | None => false
           end).

Definition stable (c : ServeClient) (sl : Segment) : bool :=
  (5 <? repeat_count c (tentative_text c sl))%Z.

(** The entry appended by commit-on-stability, if any. *)
Definition stability_entry (d : Q) (complete : list Segment) (sl : Segment)
    (c : ServeClient) : list Entry :=
  if stable c sl
     && is_new_text (text c ++ map seg_text complete) (tentative_text c sl)
  then [format_segment (timestamp_offset c) (timestamp_offset c + d)
          (tentative_text c sl)]
  else [].

(** The advance of the cursor. *)
Definition offset_advance (d : Q) (complete : list Segment) (sl : Segment)
    (c : ServeClient) : option Q :=
  if stable c sl then Some d
  else match last (kept d complete c) with
       | Some s => Some (py_min d (seg_end s))
       | None => None
       end.

(** The client after [update_segments] on [complete ++ [sl]]. *)
Definition stabilized (d : Q) (complete : list Segment) (sl : Segment)
    (c : ServeClient) : ServeClient :=
  let cur := tentative_text c sl in
  let committed := stability_entry d complete sl c in
  set_timestamp_offset
    (match offset_advance d complete sl c with
     | Some o => timestamp_offset c + o
     | None => timestamp_offset c
     end)
    (set_prev_out (if stable c sl then prev_out c else cur)
      (set_same_output_threshold
         (if stable c sl then 0%Z else repeat_count c cur)
        (set_current_out (if stable c sl then "" else cur)
          (set_transcript
             (transcript c
              ++ map (complete_entry d (timestamp_offset c))
                     (kept d complete c)
              ++ committed)
            (set_text
               (text c ++ map seg_text complete
                ++ map e_text committed) c))))).

(** A session whose transcript holds twelve one-second entries, and a
    tentative segment that follows them. *)
Definition twelve_entries : list Entry :=
  map (fun n : nat =>
         format_segment (inject_Z (Z.of_nat n)) (inject_Z (Z.of_nat n) + 1)
           "word")
      (seq 0 12).

Definition long_session : ServeClient :=
  set_transcript twelve_entries (new_client "u1" 1).

Definition tentative_entry : Entry := format_segment 12 (25 # 2) "wor".

(** The raw segments of the end-to-end scenario. *)
Definition scenario_segments : list Segment :=
  [seg 0 1 "hi" (1 # 10); seg 1 (19 # 10) "there" (1 # 10)].

(* ------------------------------------------------------------------ *)
(** *** Committed entries before formatting                             *)

(** The times and text handed to [format_segment]. *)
Record Span : Type := {
  sp_start : Q;
  sp_end : Q;
  sp_text : string
}.

Definition format_span (x : Span) : Entry :=
  format_segment (sp_start x) (sp_end x) (sp_text x).

Definition complete_span (d ts : Q) (s : Segment) : Span :=
  {| sp_start := ts + seg_start s; sp_end := ts + py_min d (seg_end s);
     sp_text := seg_text s |}.

(** The spans one poll commits: those of its complete segments, then the
    one of commit-on-stability. *)
Definition poll_spans (segments : list Segment) (d : Q) (c : ServeClient)
  : list Span * list Span :=
  match last segments with
  | None => ([], [])
  | Some sl =>
      (map (complete_span d (timestamp_offset c))
           (kept d (removelast segments) c),
       if stable c sl
          && is_new_text (text c ++ map seg_text (removelast segments))
                         (tentative_text c sl)
       then [{| sp_start := timestamp_offset c;
                sp_end := timestamp_offset c + d;
                sp_text := tentative_text c sl |}]
       else [])
  end.

Fixpoint run_spans (ps : list poll) (c : ServeClient)
  : list (list Span * list Span) :=
  match ps with
  | [] => []
  | (segments, duration) :: rest =>
      match update_segments segments duration c with
      | Ok (c1, _) => poll_spans segments duration c :: run_spans rest c1
      | Raise _ => []
      end
  end.

Definition all_spans (chunks : list (list Span * list Span)) : list Span :=
  concat (map (fun ch => ch.1 ++ ch.2) chunks).

(** A poll as the stabilizer expects it: some segments, sorted by start,
    none starting before the chunk, and a positive duration. *)
Definition well_formed_poll (p : poll) : Prop :=
  p.1 ≠ [] /\ 0 < p.2 /\
  Forall (fun s => 0 <= seg_start s) p.1 /\
  StronglySorted (fun s s' => seg_start s <= seg_start s') p.1.

Fixpoint sorted_by_start (l : list Segment) : bool :=
  match l with
  | [] => true
  | s :: r =>
      forallb (fun s' => Qle_bool (seg_start s) (seg_start s')) r
      && sorted_by_start r
  end.

(** [well_formed_poll] as a test. *)
Definition well_formed_pollb (p : poll) : bool :=
  negb (len p.1 =? 0)%Z && Qltb 0 p.2
  && forallb (fun s => Qle_bool 0 (seg_start s)) p.1
  && sorted_by_start p.1.

(** Every span of the first chunk starts no later than any of the second. *)
Definition chunk_le (ch ch' : list Span * list Span) : Prop :=
  forall x y, x ∈ ch.1 ++ ch.2 -> y ∈ ch'.1 ++ ch'.2 ->
    sp_start x <= sp_start y.

(** The spans of one poll: those of the complete segments in start order,
    then at most one stability span, which starts no later than they do. *)
Definition chunk_in_order (ch : list Span * list Span) : Prop :=
  StronglySorted (fun x y => sp_start x <= sp_start y) ch.1 /\
  (length ch.2 <= 1)%nat /\
  forall x y, x ∈ ch.1 -> y ∈ ch.2 -> sp_start y <= sp_start x.

(* ------------------------------------------------------------------ *)
(** *** The properties of the specification on stored transcripts       *)

(** Start and end of a stored entry, in thousandths of a second. *)
Definition entry_times (e : Entry) : option (Z * Z) :=
  a ← parse_3f (e_start e); b ← parse_3f (e_end e); Some (a, b).

Fixpoint starts_non_decreasing (l : list (Z * Z)) : bool :=
  match l with
  | x :: ((y :: _) as r) => (x.1 <=? y.1)%Z && starts_non_decreasing r
  | _ => true
  end.

(** "Monotonic transcript": adjacent starts do not decrease and every
    entry ends after it starts. *)
Definition monotonic_transcript (tr : list Entry) : bool :=
  match mapM entry_times tr with
  | Some times =>
      starts_non_decreasing times
      && forallb (fun x => (x.1 <? x.2)%Z) times
  | None => false
  end.

(** "Repetition commit": six polls of the same tentative segment leave
    exactly one new entry spanning the chunk, the repeat counter at 0, the
    cursor advanced by the duration, and return no tentative segment on the
    last call. *)
Definition repetition_commit (c : ServeClient) (sl : Segment) (d : Q)
  : Prop :=
  exists c' rs,
    run_polls (repeat ([sl], d) 6) c = Ok (c', rs) /\
    transcript c'
      = transcript c
        ++ [format_segment (timestamp_offset c) (timestamp_offset c + d)
              (seg_text sl)] /\
    same_output_threshold c' = 0%Z /\
    timestamp_offset c' = timestamp_offset c + d /\
    last rs = Some None.

(** Six polls of "b" and a seventh that also has a complete segment. *)
Definition stability_after_complete : list poll :=
  repeat ([seg 0 1 "b" (1 # 10)], 2) 6
  ++ [([seg (1 # 2) 1 "a" (1 # 10); seg 1 (19 # 10) "b" (1 # 10)], 2)].

(** The guard of lines 654-655 of [get_previous_output]. *)
Definition pause_due (now : Q) (c : ServeClient) : bool :=
  negb (len (text c) =? 0)%Z
  && negb (default "" (last (text c)) =? "")%string
  && Qltb (add_pause_thresh c) (now - default now (t_start c)).

(** A complete segment cut short by a chunk of 16005 samples. *)
Definition short_complete_segment : list poll :=
  [([seg 1 (3 # 2) "a" (1 # 10); seg (3 # 2) 2 "b" (1 # 10)], 16005 # 16000)].

(** "Monotonic transcript" for every run of well-formed polls on a fresh
    session. *)
Definition transcript_always_monotonic : Prop :=
  forall ps c rs,
    Forall well_formed_poll ps ->
    run_polls ps (new_client "u1" 1) = Ok (c, rs) ->
    monotonic_transcript (transcript c) = true.

(* ================================================================== *)
(** ** The handshake and the worker loop                                *)
(* ================================================================== *)

(** The handshake messages, beside those of [message]. *)
Inductive handshake_message : Type :=
| MsgServerReady (uid : string) (backend : string)
| MsgError (uid : string) (text_ : string).

(** What the handshake asks of a websocket: a handshake message, or one of
    the requests of [event]. *)
Inductive handshake_event : Type :=
| Told (ws : positive) (m : handshake_message)
| Did (e : event).

(** The keys of the handshake object that the server reads; [None] is an
    absent key. *)
Record Options : Type := {
  opt_uid : option string;
  opt_model : option string
}.

(** [self.model_sizes], line 524. *)
Definition model_sizes : list string := ["small.en"; "base.en"; "medium.en"]%string.

(** The text of the message of [check_valid_model], line 586. *)
Definition invalid_model_text (model_size : string) : string :=
  ("Invalid model size " +:+ model_size
   +:+ ". Available choices: ['small.en', 'base.en', 'medium.en']")%string.

(** [BackendType.valid_types] and [BackendType.is_valid], lines 127-133. *)
Definition valid_types : list string := ["faster_whisper"%string].

Definition is_valid (backend : string) : bool :=
  bool_decide (backend ∈ valid_types).

(** [get_audio_chunk_duration]: line 454. *)
Definition get_audio_chunk_duration (input_bytes : list Q) : Q :=
  inject_Z (len input_bytes) / inject_Z RATE.

(** [send_transcription_to_client]: lines 466-474. *)
Definition send_transcription_to_client (segments : list Entry)
    (c : ServeClient) : list event :=
  [Sent (websocket c) (MsgSegments (client_uid c) segments)].

Section Handshake.
(** [os.path.exists], and whether [WhisperModel] can be built from a path. *)
Variable path_exists : string -> bool.
Variable model_loads : string -> bool.

(** [check_valid_model]: lines 581-590. *)
Definition check_valid_model (ws : positive) (uid model_size : string)
  : list handshake_event * option string :=
  if bool_decide (model_size ∈ model_sizes)
  then ([], Some model_size)
  else ([Told ws (MsgError uid (invalid_model_text model_size))], None).

(** [ServeClientFasterWhisper.__init__]: lines 523-569.  The second
    component is [None] when the constructor raises. *)
Definition init_client (ws : positive) (uid model : string)
  : list handshake_event * option ServeClient :=
  let '(sent, model_sizes_or_path) :=
    if negb (path_exists model) then
      let '(sent, checked) := check_valid_model ws uid model in
      (sent, (fun size => "./model/" +:+ size)%string <$> checked)
    else ([], Some model) in
  match model_sizes_or_path with
  | None => (sent, None)
  | Some path =>
      if model_loads path
      then (sent ++ [Told ws (MsgServerReady uid "faster_whisper")],
            Some (new_client uid ws))
      else (sent, None)
  end.

(** [initialize_client]: lines 152-175. *)
Definition initialize_client (ws : positive) (options : Options)
    (model_path : option string) (now : Q) (m : ClientManager)
  : list handshake_event * option ClientManager :=
  let model :=
    match model_path with
    | Some p => if path_exists p then Some p else opt_model options
    | None => opt_model options
    end in
  match opt_uid options, model with
  | Some uid, Some model =>
      let '(sent, client) := init_client ws uid model in
      (sent, (fun c => add_client ws c now m) <$> client)
  | _, _ => ([], None)
  end.

(** [handle_new_connection]: lines 193-213.  The handshake is [None] when
    the first message is not a JSON object. *)
Definition handle_new_connection (ws : positive) (handshake : option Options)
    (model_path : option string) (now : Q) (m : ClientManager)
  : bool * ClientManager * list handshake_event :=
  match handshake with
  | None => (false, m, [])
  | Some options =>
      if (max_clients m <=? Z.of_nat (size (clients m)))%Z then
        match opt_uid options with
        | None => (false, m, [])
        | Some uid =>
            (false, m,
             (Did <$> (is_server_full ws uid now m).2) ++ [Did (Closed ws)])
        end
      else
        match initialize_client ws options model_path now m with
        | (sent, Some m') => (true, m', sent)
        | (sent, None) => (false, m, sent)
        end
  end.

(** [recv_audio]: lines 246-262; the clock of the handshake, then the
    inputs of the loop. *)
Definition recv_audio (ws : positive) (handshake : option Options)
    (model_path : option string) (now : Q)
    (inputs : list (Q * option (list Q))) (m : ClientManager)
  : handler_status * ClientManager * list handshake_event :=
  match handle_new_connection ws handshake model_path now m with
  | (false, m', sent) => (Returned, m', sent)
  | (true, m', sent) =>
      let '(st, m'', evs) := recv_audio_loop ws inputs m' in
      (st, m'', sent ++ (Did <$> evs))
  end.
End Handshake.

(** What [transcribe_audio] gives for a chunk: [None] of Python, the raw
    segments, or an exception. *)
Inductive transcription : Type :=
| NoVoice
| Transcribed (segments : list Segment)
| Failed.

(** How an iteration of [speech_to_text] ends. *)
Inductive worker_status : Type :=
| Exiting
| Continuing (slept : Q).

(** One iteration of the loop of [speech_to_text], lines 793-819. *)
Definition speech_to_text_step (transcribe_audio : list Q -> transcription)
    (now : Q) (c : ServeClient)
  : result (ServeClient * worker_status * list event) :=
  if exit c then Ok (c, Exiting, [])
  else
    match frames_np c with
    | None => Ok (c, Continuing 0, [])
    | Some _ =>
        c ← clip_audio_if_no_valid_segment c;
        '(input_bytes, duration) ← get_audio_chunk_for_processing c;
        if Qltb duration 1 then Ok (c, Continuing (1 # 10), [])
        else
          match transcribe_audio input_bytes with
          | NoVoice =>
              Ok (set_timestamp_offset
                    (fadd (timestamp_offset c) duration) c,
                  Continuing (25 # 100), [])
          | Transcribed result_ =>
              match handle_transcription_output now result_ duration c with
              | Ok (c', Some segments) =>
                  Ok (c', Continuing 0,
                      send_transcription_to_client segments c')
              | Ok (c', None) => Ok (c', Continuing 0, [])
              | Raise _ => Ok (c, Continuing (1 # 100), [])
              end
          | Failed => Ok (c, Continuing (1 # 100), [])
          end
    end.

(** Successive idle polls of [get_previous_output], at the given clocks. *)
Fixpoint idle_polls (clocks : list Q) (c : ServeClient) : ServeClient :=
  match clocks with
  | [] => c
  | now :: rest => idle_polls rest (get_previous_output now c).1
  end.

(** The two tables of the registry have the same keys. *)
Definition tables_agree (m : ClientManager) : Prop :=
  forall ws, is_Some (clients m !! ws) <-> is_Some (start_times m !! ws).
(* ================================================================== *)
(** ** Comparisons and arithmetic on model floats                       *)
(* ================================================================== *)

Lemma Qltb_lt (a b : Q) : Qltb a b = true <-> a < b.
Proof.
  unfold Qltb. rewrite negb_true_iff, <- not_true_iff_false, Qle_bool_iff.
  split; [apply Qnot_le_lt | apply Qlt_not_le].
Qed.

Lemma Qltb_ge (a b : Q) : Qltb a b = false <-> b <= a.
Proof.
  unfold Qltb. rewrite negb_false_iff. apply Qle_bool_iff.
Qed.

Lemma Qle_bool_gt (a b : Q) : Qle_bool a b = false <-> b < a.
Proof.
  rewrite <- not_true_iff_false, Qle_bool_iff.
  split; [apply Qnot_le_lt | apply Qlt_not_le].
Qed.

Lemma py_min_le_l (a b : Q) : py_min a b <= a.
Proof.
  unfold py_min. destruct (Qltb b a) eqn:E.
  - apply Qltb_lt in E. lra.
  - lra.
Qed.

Lemma py_min_le_r (a b : Q) : py_min a b <= b.
Proof.
  unfold py_min. destruct (Qltb b a) eqn:E.
  - lra.
  - apply Qltb_ge in E. lra.
Qed.

(* ================================================================== *)
(** ** Binary64 rounding                                                *)
(* ================================================================== *)

(** *** Rounding to an integer                                          *)

Lemma round_half_even_cases (x : Q) :
  (round_half_even x = Qfloor x /\ x - inject_Z (Qfloor x) <= 1 # 2) \/
  (round_half_even x = (Qfloor x + 1)%Z /\ 1 # 2 <= x - inject_Z (Qfloor x)).
Proof.
  unfold round_half_even.
  destruct (Qcompare_spec (x - inject_Z (Qfloor x)) (1 # 2)) as [H|H|H].
  - destruct (Z.even (Qfloor x)); [left|right]; rewrite H; split; (done || lra).
  - left. split; [done | lra].
  - right. split; [done | lra].
Qed.

Lemma round_half_even_near (x : Q) :
  x - (1 # 2) <= inject_Z (round_half_even x) <= x + (1 # 2).
Proof.
  pose proof (Qfloor_le x) as H1. pose proof (Qlt_floor x) as H2.
  rewrite inject_Z_plus in H2. change (inject_Z 1) with 1 in H2.
  destruct (round_half_even_cases x) as [[-> H]|[-> H]].
  - lra.
  - rewrite inject_Z_plus. change (inject_Z 1) with 1. lra.
Qed.

Lemma round_half_even_Z (z : Z) : round_half_even (inject_Z z) = z.
Proof.
  unfold round_half_even. rewrite Qfloor_Z.
  destruct (Qcompare_spec (inject_Z z - inject_Z z) (1 # 2)) as [H|H|H];
    [lra | done | lra].
Qed.

Lemma round_half_even_le (x y : Q) :
  x <= y -> (round_half_even x <= round_half_even y)%Z.
Proof.
  intros Hxy. pose proof (Qfloor_resp_le _ _ Hxy) as Hf.
  destruct (Z.eq_dec (Qfloor x) (Qfloor y)) as [E|N].
  - unfold round_half_even. rewrite <- E.
    destruct (Qcompare_spec (x - inject_Z (Qfloor x)) (1 # 2)) as [H|H|H];
    destruct (Qcompare_spec (y - inject_Z (Qfloor x)) (1 # 2)) as [K|K|K];
      try lia; try lra; destruct (Z.even (Qfloor x)); lia.
  - destruct (round_half_even_cases x) as [[-> _]|[-> _]];
    destruct (round_half_even_cases y) as [[-> _]|[-> _]]; lia.
Qed.

Lemma round_half_even_comp (x y : Q) :
  x == y -> round_half_even x = round_half_even y.
Proof.
  intros H. apply Z.le_antisymm; apply round_half_even_le; lra.
Qed.

(* ------------------------------------------------------------------ *)
(** *** Powers of two                                                   *)

Lemma pow2_pos (e : Z) : 0 < 2 ^ e.
Proof. by apply Qpower_0_lt. Qed.

Lemma pow2_add (a b : Z) : 2 ^ (a + b) == 2 ^ a * 2 ^ b.
Proof. by apply Qpower_plus. Qed.

Lemma pow2_succ (e : Z) : 2 ^ (e + 1) == 2 * 2 ^ e.
Proof. rewrite pow2_add. change (2 ^ 1) with 2. ring. Qed.

Lemma pow2_pred (e : Z) : 2 ^ e == 2 * 2 ^ (e - 1).
Proof. rewrite <- pow2_succ. by replace (e - 1 + 1)%Z with e by lia. Qed.

Lemma pow2_le (a b : Z) : (a <= b)%Z -> 2 ^ a <= 2 ^ b.
Proof. intros H. by apply Qpower_le_compat_l. Qed.

Lemma pow2_lt (a b : Z) : (a < b)%Z -> 2 ^ a < 2 ^ b.
Proof. intros H. by apply Qpower_lt_compat_l. Qed.

Lemma pow2_lt_inv (a b : Z) : 2 ^ a < 2 ^ b -> (a < b)%Z.
Proof. intros H. by apply (Qpower_lt_compat_l_inv 2). Qed.

Lemma pow2_Z (n : Z) : (0 <= n)%Z -> 2 ^ n == inject_Z (2 ^ n).
Proof. intros H. by rewrite Zpower_Qpower. Qed.

Lemma pow2_sub (a b : Z) : 2 ^ (a - b) == 2 ^ a / 2 ^ b.
Proof. by apply Qpower_minus. Qed.

(* ------------------------------------------------------------------ *)
(** *** The binade of a positive rational                               *)

Lemma ratio_bounds (N D A B : Q) :
  0 < A -> 0 < B -> A <= N -> N < 2 * A -> B <= D -> D < 2 * B ->
  A / B * (1 # 2) <= N / D /\ N / D < 2 * (A / B).
Proof.
  intros HA HB H1 H2 H3 H4. assert (HD : 0 < D) by lra. split.
  - apply Qle_shift_div_l; [done|].
    assert (E : A / B * (1 # 2) * D == A * (D / B) * (1 # 2)) by (field; lra).
    rewrite E.
    assert (D / B <= 2) by (apply Qle_shift_div_r; [done | lra]).
    assert (0 < D / B) by (apply Qlt_shift_div_l; [done | lra]).
    nra.
  - apply Qlt_shift_div_r; [done|].
    assert (E : 2 * (A / B) * D == 2 * A * (D / B)) by (field; lra). rewrite E.
    assert (1 <= D / B) by (apply Qle_shift_div_l; [done | lra]).
    nra.
Qed.

Lemma ilog2_spec (x : Q) :
  0 < x -> 2 ^ ilog2 x <= x /\ x < 2 ^ (ilog2 x + 1).
Proof.
  intros Hx. destruct x as [n d]. unfold ilog2. cbn [Qnum Qden].
  assert (Hn : (0 < n)%Z) by (unfold Qlt in Hx; cbn in Hx; lia).
  set (a := Z.log2 n). set (b := Z.log2 (Z.pos d)).
  destruct (Z.log2_spec n Hn) as [A1 A2]. fold a in A1, A2.
  destruct (Z.log2_spec (Z.pos d) ltac:(lia)) as [B1 B2]. fold b in B1, B2.
  assert (Ha : (0 <= a)%Z) by apply Z.log2_nonneg.
  assert (Hb : (0 <= b)%Z) by apply Z.log2_nonneg.
  rewrite Zle_Qle, <- pow2_Z in A1 by done.
  rewrite Zlt_Qlt, <- Z.add_1_r, <- pow2_Z, pow2_succ in A2 by lia.
  rewrite Zle_Qle, <- pow2_Z in B1 by done.
  rewrite Zlt_Qlt, <- Z.add_1_r, <- pow2_Z, pow2_succ in B2 by lia.
  pose proof (pow2_pos a) as Pa. pose proof (pow2_pos b) as Pb.
  assert (Hq : n # d == inject_Z n / inject_Z (Z.pos d)) by apply Qmake_Qdiv.
  destruct (ratio_bounds _ _ _ _ Pa Pb A1 A2 B1 B2) as [L U].
  rewrite <- Hq, <- pow2_sub in L, U.
  assert (U' : n # d < 2 ^ (a - b + 1)) by (by rewrite pow2_succ).
  assert (L' : 2 ^ (a - b - 1) <= n # d).
  { pose proof (pow2_pred (a - b)) as E. revert L E.
    generalize (2 ^ (a - b)) (2 ^ (a - b - 1)) (n # d). intros; lra. }
  destruct (Qle_bool (2 ^ (a - b)) (n # d)) eqn:E.
  - apply Qle_bool_iff in E. done.
  - split; [done|]. replace (a - b - 1 + 1)%Z with (a - b)%Z by lia.
    apply Qnot_le_lt. intros H. apply Qle_bool_iff in H. congruence.
Qed.

Lemma ilog2_le (x y : Q) : 0 < x -> x <= y -> (ilog2 x <= ilog2 y)%Z.
Proof.
  intros Hx Hxy. destruct (ilog2_spec x Hx) as [L _].
  destruct (ilog2_spec y ltac:(lra)) as [_ U].
  assert (H : 2 ^ ilog2 x < 2 ^ (ilog2 y + 1)) by lra.
  apply pow2_lt_inv in H. lia.
Qed.

Lemma ilog2_comp (x y : Q) : 0 < x -> x == y -> ilog2 x = ilog2 y.
Proof.
  intros Hx E. apply Z.le_antisymm; apply ilog2_le; lra.
Qed.

Lemma ilog2_le_bound (x : Q) (k : Z) : 0 < x -> x <= 2 ^ k -> (ilog2 x <= k)%Z.
Proof.
  intros Hx Hk. destruct (ilog2_spec x Hx) as [L _].
  destruct (Z.le_gt_cases (ilog2 x) k) as [|H]; [done|].
  apply pow2_lt in H. lra.
Qed.

Lemma ilog2_ge_bound (x : Q) (k : Z) : 2 ^ k <= x -> (k <= ilog2 x)%Z.
Proof.
  intros Hk. pose proof (pow2_pos k) as Hp.
  destruct (ilog2_spec x ltac:(lra)) as [_ U].
  assert (H : 2 ^ k < 2 ^ (ilog2 x + 1)) by lra.
  apply pow2_lt_inv in H. lia.
Qed.

(* ------------------------------------------------------------------ *)
(** *** Rounding a positive rational                                    *)

Lemma b64_pos_eq (x : Q) :
  b64_pos x = inject_Z (round_half_even (x / 2 ^ ulp_exp x)) * 2 ^ ulp_exp x.
Proof. reflexivity. Qed.

Lemma Qdiv_le_compat (x y p : Q) : 0 < p -> x <= y -> x / p <= y / p.
Proof.
  intros Hp H. unfold Qdiv. apply Qmult_le_compat_r; [done|].
  apply Qlt_le_weak, Qinv_lt_0_compat, Hp.
Qed.

Lemma scaled (x : Q) (e : Z) : x / 2 ^ e * 2 ^ e == x.
Proof. pose proof (pow2_pos e). field. lra. Qed.

Lemma b64_pos_near (x : Q) :
  x - 2 ^ ulp_exp x * (1 # 2) <= b64_pos x <= x + 2 ^ ulp_exp x * (1 # 2).
Proof.
  rewrite b64_pos_eq. set (e := ulp_exp x).
  pose proof (round_half_even_near (x / 2 ^ e)) as H.
  pose proof (pow2_pos e) as Hp. pose proof (scaled x e) as Hs.
  revert H Hp Hs.
  generalize (inject_Z (round_half_even (x / 2 ^ e))) (x / 2 ^ e) (2 ^ e).
  intros m s p H Hp Hs. nra.
Qed.

Lemma b64_pos_comp (x y : Q) : 0 < x -> x == y -> b64_pos x == b64_pos y.
Proof.
  intros Hx E. rewrite !b64_pos_eq. unfold ulp_exp.
  rewrite (ilog2_comp x y Hx E).
  set (e := Z.max _ _).
  rewrite (round_half_even_comp (x / 2 ^ e) (y / 2 ^ e)); [done|].
  by rewrite E.
Qed.

Lemma b64_pos_nonneg (x : Q) : 0 < x -> 0 <= b64_pos x.
Proof.
  intros Hx. rewrite b64_pos_eq. set (e := ulp_exp x).
  pose proof (pow2_pos e) as Hp.
  assert (H : (0 <= round_half_even (x / 2 ^ e))%Z).
  { rewrite <- (round_half_even_Z 0). apply round_half_even_le.
    apply Qle_shift_div_l; [done|]. change (inject_Z 0) with 0. lra. }
  rewrite Zle_Qle in H. change (inject_Z 0) with 0 in H.
  revert H Hp. generalize (inject_Z (round_half_even (x / 2 ^ e))) (2 ^ e).
  intros; nra.
Qed.

(** A quotient by a power of two that is a whole number is left alone. *)
Lemma b64_pos_scaled_le (x : Q) (e k : Z) :
  (0 <= k - e)%Z -> x <= 2 ^ k ->
  inject_Z (round_half_even (x / 2 ^ e)) * 2 ^ e <= 2 ^ k.
Proof.
  intros Hk Hx. pose proof (pow2_pos e) as Hp.
  assert (H : (round_half_even (x / 2 ^ e) <= 2 ^ (k - e))%Z).
  { rewrite <- (round_half_even_Z (2 ^ (k - e))).
    apply round_half_even_le. rewrite <- pow2_Z by done.
    rewrite pow2_sub. by apply Qdiv_le_compat. }
  rewrite Zle_Qle, <- pow2_Z in H by done.
  assert (E : 2 ^ k == 2 ^ (k - e) * 2 ^ e).
  { rewrite <- pow2_add. by replace (k - e + e)%Z with k by lia. }
  rewrite E. revert H Hp.
  generalize (inject_Z (round_half_even (x / 2 ^ e))) (2 ^ (k - e)) (2 ^ e).
  intros; nra.
Qed.

Lemma b64_pos_scaled_ge (x : Q) (e k : Z) :
  (0 <= k - e)%Z -> 2 ^ k <= x ->
  2 ^ k <= inject_Z (round_half_even (x / 2 ^ e)) * 2 ^ e.
Proof.
  intros Hk Hx. pose proof (pow2_pos e) as Hp.
  assert (H : (2 ^ (k - e) <= round_half_even (x / 2 ^ e))%Z).
  { rewrite <- (round_half_even_Z (2 ^ (k - e))) at 1.
    apply round_half_even_le. rewrite <- pow2_Z by done.
    rewrite pow2_sub. by apply Qdiv_le_compat. }
  rewrite Zle_Qle, <- pow2_Z in H by done.
  assert (E : 2 ^ k == 2 ^ (k - e) * 2 ^ e).
  { rewrite <- pow2_add. by replace (k - e + e)%Z with k by lia. }
  rewrite E. revert H Hp.
  generalize (inject_Z (round_half_even (x / 2 ^ e))) (2 ^ (k - e)) (2 ^ e).
  intros; nra.
Qed.

Lemma b64_pos_le (x y : Q) : 0 < x -> x <= y -> b64_pos x <= b64_pos y.
Proof.
  intros Hx Hxy. assert (Hy : 0 < y) by lra.
  pose proof (ilog2_le x y Hx Hxy) as Hl.
  destruct (ilog2_spec x Hx) as [Lx Ux]. destruct (ilog2_spec y Hy) as [Ly Uy].
  rewrite !b64_pos_eq. unfold ulp_exp.
  set (lx := ilog2 x) in *. set (ly := ilog2 y) in *.
  set (ex := Z.max (lx - 52) (-1074)). set (ey := Z.max (ly - 52) (-1074)).
  destruct (Z.eq_dec ex ey) as [E|N].
  - rewrite <- E. pose proof (pow2_pos ex) as Hp.
    assert (H : (round_half_even (x / 2 ^ ex) <= round_half_even (y / 2 ^ ex))%Z).
    { apply round_half_even_le. by apply Qdiv_le_compat. }
    rewrite Zle_Qle in H. revert H Hp.
    generalize (inject_Z (round_half_even (x / 2 ^ ex)))
               (inject_Z (round_half_even (y / 2 ^ ex))) (2 ^ ex).
    intros; nra.
  - assert (Hlt : (ex < ey)%Z) by lia.
    assert (Hey : ey = (ly - 52)%Z) by lia.
    assert (Hxl : x <= 2 ^ ly).
    { assert (lx + 1 <= ly)%Z by lia.
      pose proof (pow2_le (lx + 1) ly ltac:(lia)). lra. }
    apply Qle_trans with (2 ^ ly).
    + apply b64_pos_scaled_le; [lia | done].
    + apply b64_pos_scaled_ge; [lia | done].
Qed.

(** The error of one rounding, for magnitudes up to [2 ^ k]. *)
Lemma b64_pos_err (x : Q) (k : Z) :
  (-1021 <= k)%Z -> 0 < x -> x <= 2 ^ k ->
  x - 2 ^ (k - 53) <= b64_pos x <= x + 2 ^ (k - 53).
Proof.
  intros Hk Hx Hxk. pose proof (b64_pos_near x) as H.
  pose proof (ilog2_le_bound x k Hx Hxk) as Hl.
  assert (He : (ulp_exp x <= k - 52)%Z) by (unfold ulp_exp; lia).
  pose proof (pow2_le _ _ He) as Hp. rewrite (pow2_pred (k - 52)) in Hp.
  replace (k - 52 - 1)%Z with (k - 53)%Z in Hp by lia.
  revert H Hp. generalize (2 ^ ulp_exp x) (2 ^ (k - 53)) (b64_pos x).
  intros; lra.
Qed.

(** A value [m * 2 ^ e] with [m] below [2 ^ 53] is a binary64 number. *)
Lemma b64_pos_exact (m e : Z) :
  (0 < m < 2 ^ 53)%Z -> (-1074 <= e)%Z ->
  b64_pos (inject_Z m * 2 ^ e) == inject_Z m * 2 ^ e.
Proof.
  intros Hm He. set (x := inject_Z m * 2 ^ e).
  pose proof (pow2_pos e) as Hp.
  assert (Hm1 : 1 <= inject_Z m).
  { change 1 with (inject_Z 1). rewrite <- Zle_Qle. lia. }
  assert (Hm2 : inject_Z m <= 2 ^ 53 - 1).
  { change (2 ^ 53 - 1) with (inject_Z (2 ^ 53 - 1)). rewrite <- Zle_Qle. lia. }
  assert (Hx : 0 < x) by (unfold x; nra).
  assert (Hxk : x < 2 ^ (e + 53)).
  { rewrite pow2_add, Qmult_comm. unfold x. revert Hm2 Hp.
    generalize (inject_Z m) (2 ^ e). intros a p Ha Hp.
    change (2 ^ 53) with 9007199254740992 in *. nra. }
  assert (Hl : (ilog2 x <= e + 52)%Z).
  { destruct (ilog2_spec x Hx) as [L _].
    assert (H : 2 ^ ilog2 x < 2 ^ (e + 53)) by lra.
    apply pow2_lt_inv in H. lia. }
  rewrite b64_pos_eq. set (e' := ulp_exp x).
  assert (He' : (e' <= e)%Z) by (unfold e', ulp_exp; lia).
  assert (E : x / 2 ^ e' == inject_Z (m * 2 ^ (e - e'))).
  { rewrite inject_Z_mult, <- pow2_Z by lia. rewrite pow2_sub. unfold x.
    pose proof (pow2_pos e'). field. lra. }
  rewrite (round_half_even_comp _ _ E), round_half_even_Z.
  rewrite inject_Z_mult, <- pow2_Z by lia. rewrite pow2_sub. unfold x.
  pose proof (pow2_pos e'). field. lra.
Qed.

(* ------------------------------------------------------------------ *)
(** *** Rounding to binary64                                            *)

Lemma Qnum_pos (x : Q) : 0 < x -> exists p, Qnum x = Z.pos p.
Proof.
  destruct x as [[|p|p] d]; unfold Qlt; cbn; intros H; try lia. by exists p.
Qed.

Lemma Qnum_neg (x : Q) : x < 0 -> exists p, Qnum x = Z.neg p.
Proof.
  destruct x as [[|p|p] d]; unfold Qlt; cbn; intros H; try lia. by exists p.
Qed.

Lemma Qnum_zero (x : Q) : x == 0 -> Qnum x = 0%Z.
Proof. destruct x as [n d]. unfold Qeq. cbn. lia. Qed.

Lemma b64_pos_case (x : Q) : 0 < x -> b64 x == b64_pos x.
Proof.
  intros Hx. unfold b64. pose proof (Qred_correct x) as E.
  destruct (Qnum_pos (Qred x)) as [p Hp]; [lra|]. rewrite Hp, Qred_correct.
  apply b64_pos_comp; lra.
Qed.

Lemma b64_neg_case (x : Q) : x < 0 -> b64 x == - b64_pos (- x).
Proof.
  intros Hx. unfold b64. pose proof (Qred_correct x) as E.
  destruct (Qnum_neg (Qred x)) as [p Hp]; [lra|]. rewrite Hp, Qred_correct.
  apply Qopp_comp. apply b64_pos_comp; lra.
Qed.

Lemma b64_zero (x : Q) : x == 0 -> b64 x == 0.
Proof.
  intros Hx. unfold b64. pose proof (Qred_correct x) as E.
  rewrite (Qnum_zero (Qred x)) by lra. done.
Qed.

Lemma b64_comp (x y : Q) : x == y -> b64 x = b64 y.
Proof. intros E. unfold b64. by rewrite (Qred_complete x y E). Qed.

#[global] Instance b64_proper : Proper (Qeq ==> Qeq) b64.
Proof. intros x y E. by rewrite (b64_comp x y E). Qed.

Lemma b64_opp (x : Q) : b64 (- x) == - b64 x.
Proof.
  destruct (Q_dec x 0) as [[H|H]|H].
  - rewrite (b64_pos_case (- x)) by lra. rewrite (b64_neg_case x) by done. ring.
  - rewrite (b64_neg_case (- x)) by lra. rewrite (b64_pos_case x) by done.
    apply Qopp_comp, b64_pos_comp; lra.
  - rewrite (b64_zero x H), (b64_zero (- x)) by lra. done.
Qed.

Lemma b64_nonneg (x : Q) : 0 <= x -> 0 <= b64 x.
Proof.
  intros H. destruct (Qle_lt_or_eq _ _ H) as [Hx|Hx].
  - rewrite b64_pos_case by done. by apply b64_pos_nonneg.
  - rewrite b64_zero by lra. lra.
Qed.

Lemma b64_nonpos (x : Q) : x <= 0 -> b64 x <= 0.
Proof.
  intros H. pose proof (b64_nonneg (- x) ltac:(lra)) as H'.
  rewrite b64_opp in H'. lra.
Qed.

(** Rounding is monotone. *)
Lemma b64_le (x y : Q) : x <= y -> b64 x <= b64 y.
Proof.
  intros Hxy. destruct (Qlt_le_dec 0 x) as [Hx|Hx].
  - rewrite (b64_pos_case x), (b64_pos_case y) by lra. by apply b64_pos_le.
  - destruct (Qlt_le_dec y 0) as [Hy|Hy].
    + rewrite (b64_neg_case x), (b64_neg_case y) by lra.
      pose proof (b64_pos_le (- y) (- x) ltac:(lra) ltac:(lra)). lra.
    + pose proof (b64_nonpos x Hx). pose proof (b64_nonneg y Hy). lra.
Qed.

(** One rounding moves a value of magnitude at most [2 ^ k] by at most
    [2 ^ (k - 53)]. *)
Lemma b64_err (x : Q) (k : Z) :
  (-1021 <= k)%Z -> - 2 ^ k <= x -> x <= 2 ^ k ->
  x - 2 ^ (k - 53) <= b64 x /\ b64 x <= x + 2 ^ (k - 53).
Proof.
  intros Hk H1 H2. pose proof (pow2_pos (k - 53)) as Hp.
  destruct (Q_dec x 0) as [[H|H]|H].
  - rewrite b64_neg_case by done.
    pose proof (b64_pos_err (- x) k Hk ltac:(lra) ltac:(lra)). lra.
  - rewrite b64_pos_case by done.
    pose proof (b64_pos_err x k Hk H H2). lra.
  - rewrite (b64_zero x H). lra.
Qed.

(** Whole numbers below [2 ^ 53] are binary64 numbers. *)
Lemma b64_Z (z : Z) : (Z.abs z < 2 ^ 53)%Z -> b64 (inject_Z z) == inject_Z z.
Proof.
  intros Hz.
  assert (P : forall m, (0 < m < 2 ^ 53)%Z -> b64 (inject_Z m) == inject_Z m).
  { intros m Hm.
    assert (Hpos : 0 < inject_Z m).
    { change 0 with (inject_Z 0). rewrite <- Zlt_Qlt. lia. }
    assert (E1 : inject_Z m == inject_Z m * 2 ^ 0).
    { change (2 ^ 0) with 1. ring. }
    rewrite b64_pos_case by done.
    rewrite (b64_pos_comp _ _ Hpos E1).
    rewrite (b64_pos_exact m 0 Hm ltac:(lia)). by rewrite <- E1. }
  destruct (Z.lt_trichotomy z 0) as [H|[->|H]].
  - replace z with (- - z)%Z by lia. rewrite inject_Z_opp, b64_opp.
    rewrite P by lia. done.
  - done.
  - apply P. lia.
Qed.

(* ------------------------------------------------------------------ *)
(** *** Binary64 operations on the times of a session                   *)

Lemma b64_ge_Z (x : Q) (z : Z) :
  (Z.abs z < 2 ^ 53)%Z -> inject_Z z <= x -> inject_Z z <= b64 x.
Proof. intros Hz H. rewrite <- (b64_Z z Hz). by apply b64_le. Qed.

Lemma b64_le_Z (x : Q) (z : Z) :
  (Z.abs z < 2 ^ 53)%Z -> x <= inject_Z z -> b64 x <= inject_Z z.
Proof. intros Hz H. rewrite <- (b64_Z z Hz). by apply b64_le. Qed.

(** One rounding of a value within [2 ^ 33] moves it by at most
    [2 ^ -20]. *)
Lemma b64_near (x : Q) :
  - (8589934592) <= x -> x <= 8589934592 ->
  x - (1 # 1048576) <= b64 x /\ b64 x <= x + (1 # 1048576).
Proof. intros H1 H2. by apply (b64_err x 33). Qed.

(** One rounding of a value within [2 ^ 47] moves it by at most
    [2 ^ -6]. *)
Lemma b64_near_wide (x : Q) :
  - (140737488355328) <= x -> x <= 140737488355328 ->
  x - (1 # 64) <= b64 x /\ b64 x <= x + (1 # 64).
Proof. intros H1 H2. by apply (b64_err x 47). Qed.

(** A value within [2 ^ 32] stays within [2 ^ 32] when rounded. *)
Lemma b64_within (x : Q) :
  - (4294967296) <= x -> x <= 4294967296 ->
  - (4294967296) <= b64 x /\ b64 x <= 4294967296.
Proof.
  intros H1 H2. split.
  - change (- (4294967296)) with (inject_Z (-4294967296)).
    by apply b64_ge_Z.
  - change 4294967296 with (inject_Z 4294967296). by apply b64_le_Z.
Qed.

Lemma fadd_near (x y : Q) :
  - (4294967296) <= x -> x <= 4294967296 ->
  - (4294967296) <= y -> y <= 4294967296 ->
  x + y - (3 # 1048576) <= fadd x y /\ fadd x y <= x + y + (3 # 1048576).
Proof.
  intros X1 X2 Y1 Y2. unfold fadd.
  destruct (b64_near x) as [A1 A2]; [lra..|].
  destruct (b64_near y) as [B1 B2]; [lra..|].
  destruct (b64_within x X1 X2) as [C1 C2].
  destruct (b64_within y Y1 Y2) as [D1 D2].
  destruct (b64_near (b64 x + b64 y)) as [E1 E2]; [lra..|]. lra.
Qed.

Lemma fsub_near (x y : Q) :
  - (4294967296) <= x -> x <= 4294967296 ->
  - (4294967296) <= y -> y <= 4294967296 ->
  x - y - (3 # 1048576) <= fsub x y /\ fsub x y <= x - y + (3 # 1048576).
Proof.
  intros X1 X2 Y1 Y2. unfold fsub.
  destruct (b64_near x) as [A1 A2]; [lra..|].
  destruct (b64_near y) as [B1 B2]; [lra..|].
  destruct (b64_within x X1 X2) as [C1 C2].
  destruct (b64_within y Y1 Y2) as [D1 D2].
  destruct (b64_near (b64 x - b64 y)) as [E1 E2]; [lra..|]. lra.
Qed.

Lemma fsub_nonneg (x y : Q) : y <= x -> 0 <= fsub x y.
Proof.
  intros H. unfold fsub. apply b64_nonneg.
  pose proof (b64_le y x H). lra.
Qed.

Lemma fsub_nonpos (x y : Q) : x <= y -> fsub x y <= 0.
Proof.
  intros H. unfold fsub. apply b64_nonpos.
  pose proof (b64_le x y H). lra.
Qed.

Lemma b64_RATE : b64 (inject_Z RATE) = 16000.
Proof. by vm_compute. Qed.

Lemma fmul_RATE_nonneg (x : Q) : 0 <= x -> 0 <= fmul x (inject_Z RATE).
Proof.
  intros H. unfold fmul. rewrite b64_RATE. apply b64_nonneg.
  pose proof (b64_nonneg x H). lra.
Qed.

Lemma fmul_RATE_nonpos (x : Q) : x <= 0 -> fmul x (inject_Z RATE) <= 0.
Proof.
  intros H. unfold fmul. rewrite b64_RATE. apply b64_nonpos.
  pose proof (b64_nonpos x H). lra.
Qed.

(** Seconds to samples: within [2 ^ 32] seconds the product is off by
    less than a thirtieth of a sample. *)
Lemma fmul_RATE_near (x : Q) :
  - (4294967296) <= x -> x <= 4294967296 ->
  x * 16000 - (1 # 32) <= fmul x (inject_Z RATE) /\
  fmul x (inject_Z RATE) <= x * 16000 + (1 # 32).
Proof.
  intros X1 X2. unfold fmul. rewrite b64_RATE.
  destruct (b64_near x) as [A1 A2]; [lra..|].
  destruct (b64_within x X1 X2) as [C1 C2].
  destruct (b64_near_wide (b64 x * 16000)) as [E1 E2]; [lra..|]. lra.
Qed.

(** The cursor in samples before truncation: off the exact product by less
    than an eighth of a sample. *)
Lemma cursor_position (ts fo : Q) :
  0 <= fo -> fo <= ts -> ts <= 4294967296 ->
  let p := fmul (fsub ts fo) (inject_Z RATE) in
  0 <= p /\ (ts - fo) * 16000 - (1 # 8) <= p /\
  p <= (ts - fo) * 16000 + (1 # 8).
Proof.
  intros H0 H1 H2. cbv zeta.
  pose proof (fsub_nonneg ts fo H1) as N.
  destruct (fsub_near ts fo) as [A1 A2]; [lra..|].
  assert (U : fsub ts fo <= 4294967296).
  { unfold fsub. change 4294967296 with (inject_Z 4294967296).
    apply b64_le_Z; [done|]. change (inject_Z 4294967296) with 4294967296.
    destruct (b64_within ts) as [_ T]; [lra..|].
    pose proof (b64_nonneg fo H0). lra. }
  destruct (fmul_RATE_near (fsub ts fo)) as [B1 B2]; [lra..|].
  split; [by apply fmul_RATE_nonneg|]. lra.
Qed.
(* ================================================================== *)
(** ** The session registry                                             *)
(* ================================================================== *)

Section WaitTime.
Variables max_time now : Q.

Let remaining (start_time : Q) : Q := max_time - (now - start_time).

Lemma wait_time_fold_some (l : list Q) (w : Q) :
  exists w', foldl (wait_time_step max_time now) (Some w) l = Some w' /\
    (w' = w \/ exists t, t ∈ l /\ w' = remaining t) /\
    w' <= w /\ (forall t, t ∈ l -> w' <= remaining t).
Proof using Type.
  revert w. induction l as [|t l IH]; intros w; simpl.
  - exists w. split; [done|]. split; [by left|]. split; [lra|].
    intros t Ht. by apply elem_of_nil in Ht.
  - destruct (Qltb (max_time - (now - t)) w) eqn:E.
    + destruct (IH (max_time - (now - t))) as (w' & Hf & Hor & Hle & Hall).
      exists w'. split; [done|]. apply Qltb_lt in E.
      split; [|split].
      * right. destruct Hor as [->|(t' & Ht' & ->)].
        -- exists t. split; [left|done].
        -- exists t'. split; [by right|done].
      * lra.
      * intros t' [->|Ht']%elem_of_cons; [exact Hle | by apply Hall].
    + destruct (IH w) as (w' & Hf & Hor & Hle & Hall).
      exists w'. split; [done|]. apply Qltb_ge in E.
      split; [|split].
      * destruct Hor as [->|(t' & Ht' & ->)]; [by left|].
        right. exists t'. split; [by right|done].
      * done.
      * intros t' [->|Ht']%elem_of_cons; [unfold remaining; lra | by apply Hall].
Qed.

Lemma wait_time_fold_none (l : list Q) :
  match foldl (wait_time_step max_time now) None l with
  | None => l = []
  | Some w' => (exists t, t ∈ l /\ w' = remaining t) /\
               (forall t, t ∈ l -> w' <= remaining t)
  end.
Proof using Type.
  destruct l as [|t l]; simpl; [done|].
  destruct (wait_time_fold_some l (max_time - (now - t)))
    as (w' & -> & Hor & Hle & Hall).
  split.
  - destruct Hor as [->|(t' & Ht' & ->)].
    + exists t. split; [left|done].
    + exists t'. split; [by right|done].
  - intros t' [->|Ht']%elem_of_cons; [exact Hle | by apply Hall].
Qed.
End WaitTime.

Lemma elem_of_start_times (m : gmap positive Q) (t : Q) :
  t ∈ (map_to_list m).*2 <-> exists ws, m !! ws = Some t.
Proof.
  rewrite list_elem_of_fmap. split.
  - intros ([ws t'] & -> & H%elem_of_map_to_list). by exists ws.
  - intros (ws & H). exists (ws, t). split; [done|].
    by apply elem_of_map_to_list.
Qed.

(** C4, as stated, fails: a session that has outlived its lifetime and was
    not yet checked makes the estimate sent on rejection negative. *)
Lemma wait_time_not_floored :
  is_server_full 5 "u5" 660 full_manager
    = (true, [Sent 5 (MsgWait "u5" (get_wait_time 660 full_manager))]) /\
  get_wait_time 660 full_manager == -1 /\
  ~ spec_wait_time_ok 660 full_manager (get_wait_time 660 full_manager).
Proof.
  split; [by vm_compute|]. split; [by vm_compute|].
  intros [H _]. vm_compute in H. by apply H.
Qed.

(** C4, amended: on rejection the estimate is the least of
    [max_connection_time - (now - start_time)] over the sessions of the
    start-time table, divided by 60, with no floor; it is [0] when the table
    is empty, non-negative when no session has outlived its lifetime and
    negative as soon as one has. *)
Theorem wait_time_is_least_remaining (now : Q) (m : ClientManager)
    (ws : positive) (uid : string) :
  (max_clients m <= Z.of_nat (size (clients m)))%Z ->
  is_server_full ws uid now m
    = (true, [Sent ws (MsgWait uid (get_wait_time now m))]) /\
  (start_times m = ∅ -> get_wait_time now m = 0) /\
  (start_times m ≠ ∅ ->
     (exists ws' t, start_times m !! ws' = Some t /\
        get_wait_time now m = (max_connection_time m - (now - t)) / 60) /\
     (forall ws' t, start_times m !! ws' = Some t ->
        get_wait_time now m <= (max_connection_time m - (now - t)) / 60)) /\
  ((forall ws' t, start_times m !! ws' = Some t ->
      now - t <= max_connection_time m) -> 0 <= get_wait_time now m) /\
  ((exists ws' t, start_times m !! ws' = Some t /\
      max_connection_time m < now - t) -> get_wait_time now m < 0).
Proof.
  intros Hfull.
  assert (Hmin : start_times m ≠ ∅ ->
     (exists ws' t, start_times m !! ws' = Some t /\
        get_wait_time now m = (max_connection_time m - (now - t)) / 60) /\
     (forall ws' t, start_times m !! ws' = Some t ->
        get_wait_time now m <= (max_connection_time m - (now - t)) / 60)).
  { intros Hne. unfold get_wait_time.
    pose proof (wait_time_fold_none (max_connection_time m) now
                  ((map_to_list (start_times m)).*2)) as H.
    destruct (foldl _ _ _) as [w|].
    - destruct H as [(t & Ht & ->) Hall]. split.
      + apply elem_of_start_times in Ht as (ws' & Hws'). by exists ws', t.
      + intros ws' t' Hws'.
        assert (Hin : t' ∈ (map_to_list (start_times m)).*2)
          by (apply elem_of_start_times; by exists ws').
        specialize (Hall _ Hin). simpl in Hall.
        apply Qmult_le_compat_r; [exact Hall | by vm_compute].
    - apply fmap_nil_inv, map_to_list_empty_iff in H. done. }
  split; [|split; [|split; [|split]]].
  - unfold is_server_full. by apply Z.leb_le in Hfull as ->.
  - intros He. unfold get_wait_time. by rewrite He, map_to_list_empty.
  - exact Hmin.
  - intros Hall. destruct (decide (start_times m = ∅)) as [He|Hne].
    + unfold get_wait_time. by rewrite He, map_to_list_empty.
    + destruct (Hmin Hne) as [(ws' & t & Hws' & ->) _].
      specialize (Hall _ _ Hws').
      apply Qle_shift_div_l; [by vm_compute | lra].
  - intros (ws' & t & Hws' & Hlt).
    assert (Hne : start_times m ≠ ∅).
    { intros He. rewrite He in Hws'. by rewrite lookup_empty in Hws'. }
    destruct (Hmin Hne) as [_ Hall]. specialize (Hall _ _ Hws').
    eapply Qle_lt_trans; [exact Hall|].
    apply Qlt_shift_div_r; [by vm_compute | lra].
Qed.

Lemma wait_time_is_least_remaining_witness :
  is_server_full 5 "u5" 60 full_manager
    = (true, [Sent 5 (MsgWait "u5" (get_wait_time 60 full_manager))]) /\
  0 <= get_wait_time 60 full_manager.
Proof.
  assert (H : (max_clients full_manager
               <= Z.of_nat (size (clients full_manager)))%Z) by (by vm_compute).
  destruct (wait_time_is_least_remaining 60 full_manager 5 "u5" H)
    as (H1 & _ & _ & H4 & _).
  split; [exact H1|]. apply H4.
  intros ws' t Ht.
  assert (Hin : t ∈ (map_to_list (start_times full_manager)).*2)
    by (apply elem_of_start_times; by exists ws').
  vm_compute in Hin.
  repeat (apply elem_of_cons in Hin as [->|Hin]; [by vm_compute|]).
  by apply elem_of_nil in Hin.
Defined.

(* ------------------------------------------------------------------ *)
(** *** Lifetime enforcement                                            *)

Lemma is_client_timeout_known (ws : positive) (now t0 : Q)
    (m : ClientManager) (c : ServeClient) :
  clients m !! ws = Some c ->
  start_times m !! ws = Some t0 ->
  is_client_timeout ws now m =
    if Qle_bool (max_connection_time m) (now - t0)
    then Ok (true, disconnect c) else Ok (false, []).
Proof.
  intros Hc Ht. unfold is_client_timeout. rewrite Ht, Hc. done.
Qed.

Lemma recv_audio_finally_removes (ws : positive) (m : ClientManager)
    (c : ServeClient) :
  clients m !! ws = Some c ->
  exists m', recv_audio_finally ws m = (m', [Closed ws]) /\
    clients m' !! ws = None /\ start_times m' !! ws = None /\
    (forall ws', ws' ≠ ws ->
       clients m' !! ws' = clients m !! ws' /\
       start_times m' !! ws' = start_times m !! ws').
Proof.
  intros Hc. unfold recv_audio_finally, get_client. rewrite Hc.
  eexists. split; [done|]. simpl.
  split; [apply lookup_delete_eq|]. split; [apply lookup_delete_eq|].
  intros ws' Hne. by rewrite !lookup_delete_ne.
Qed.

(** C7 as stated fails on the code.  The lifetime check runs only at the
    head of the frame loop, once the frame before has been received.  A
    session admitted at 0 whose last frame is received after the check at
    599 keeps its handler waiting for a frame: at 601 and later the session
    is still registered, a check made then would report it timed out, and a
    newcomer finds the server full. *)
Lemma idle_session_outlives_lifetime :
  exists m',
    recv_audio_loop 1 [(599, Some [0])] full_manager = (Receiving, m', []) /\
    is_Some (clients m' !! 1%positive) /\
    start_times m' !! 1%positive = Some 0 /\
    is_client_timeout 1 601 m' = Ok (true, [Sent 1 (MsgDisconnect "u1")]) /\
    (is_server_full 5 "u5" 601 m').1 = true.
Proof.
  eexists. split; [by vm_compute|]. split; [by vm_compute; eauto|].
  split; [by vm_compute|]. split; by vm_compute.
Qed.

(** C7: for an admitted session the lifetime check returns true exactly
    when [now - admittedAt >= maxLifetime]; it then sends DISCONNECT to the
    client, and the handler removes the session only afterwards.  The
    check is made at the head of the frame loop: a check before the
    lifetime has run out, followed by a frame, leaves the session
    registered, and it stays registered, though a later check would report
    it timed out, until the loop comes round again.  With a lifetime of 600
    the session is still registered after the check at [t0 + 599] and gone
    after the check at [t0 + 601]. *)
Theorem lifetime_check_disconnects (ws : positive) (m : ClientManager)
    (c : ServeClient) (t0 : Q) :
  clients m !! ws = Some c ->
  start_times m !! ws = Some t0 ->
  (forall now, exists b : bool,
     is_client_timeout ws now m
       = Ok (b, if b then [Sent (websocket c) (MsgDisconnect (client_uid c))]
                else []) /\
     (b = true <-> max_connection_time m <= now - t0)) /\
  (forall now frame rest, max_connection_time m <= now - t0 ->
     exists m',
       recv_audio_loop ws ((now, frame) :: rest) m
         = (Returned, m',
            [Sent (websocket c) (MsgDisconnect (client_uid c)); Closed ws]) /\
       clients m' !! ws = None /\ start_times m' !! ws = None) /\
  (forall now frame c',
     now - t0 < max_connection_time m -> add_frames frame c = Ok c' ->
     exists m',
       recv_audio_loop ws [(now, Some frame)] m = (Receiving, m', []) /\
       clients m' !! ws = Some c' /\ start_times m' !! ws = Some t0 /\
       forall later, max_connection_time m <= later - t0 ->
         is_client_timeout ws later m'
         = Ok (true, [Sent (websocket c') (MsgDisconnect (client_uid c'))])) /\
  (max_connection_time m = 600 ->
     (forall frame c', add_frames frame c = Ok c' ->
        exists m',
          recv_audio_loop ws [(t0 + 599, Some frame)] m = (Receiving, m', []) /\
          clients m' !! ws = Some c' /\ start_times m' !! ws = Some t0) /\
     (forall frame rest, exists m',
        recv_audio_loop ws ((t0 + 601, frame) :: rest) m
          = (Returned, m',
             [Sent (websocket c) (MsgDisconnect (client_uid c)); Closed ws]) /\
        clients m' !! ws = None /\ start_times m' !! ws = None)).
Proof.
  intros Hc Ht.
  assert (Hgone : forall now frame rest, max_connection_time m <= now - t0 ->
     exists m',
       recv_audio_loop ws ((now, frame) :: rest) m
         = (Returned, m',
            [Sent (websocket c) (MsgDisconnect (client_uid c)); Closed ws]) /\
       clients m' !! ws = None /\ start_times m' !! ws = None).
  { intros now frame rest Hle. simpl.
    rewrite (is_client_timeout_known _ _ _ _ _ Hc Ht).
    apply Qle_bool_iff in Hle as ->.
    destruct (recv_audio_finally_removes _ _ _ Hc) as (m' & -> & H1 & H2 & _).
    by exists m'. }
  assert (Hstay : forall now frame c',
     now - t0 < max_connection_time m -> add_frames frame c = Ok c' ->
     exists m',
       recv_audio_loop ws [(now, Some frame)] m = (Receiving, m', []) /\
       clients m' !! ws = Some c' /\ start_times m' !! ws = Some t0 /\
       forall later, max_connection_time m <= later - t0 ->
         is_client_timeout ws later m'
         = Ok (true, [Sent (websocket c') (MsgDisconnect (client_uid c'))])).
  { intros now frame c' Hlt Hadd. simpl.
    rewrite (is_client_timeout_known _ _ _ _ _ Hc Ht).
    apply Qle_bool_gt in Hlt as ->.
    unfold process_audio_frames, get_client. rewrite Hc, Hadd.
    simpl. eexists. split; [done|]. simpl.
    split; [apply lookup_insert_eq|]. split; [done|].
    intros later Hle.
    rewrite (is_client_timeout_known ws later t0 _ c').
    - cbn [max_connection_time]. by apply Qle_bool_iff in Hle as ->.
    - cbn [clients]. apply lookup_insert_eq.
    - done. }
  split; [|split; [exact Hgone|split; [exact Hstay|]]].
  - intros now. rewrite (is_client_timeout_known _ _ _ _ _ Hc Ht).
    destruct (Qle_bool _ _) eqn:E.
    + exists true. split; [done|]. by rewrite <- Qle_bool_iff.
    + exists false. split; [done|]. rewrite <- Qle_bool_iff, E. done.
  - intros Hmax. split.
    + intros frame c' Hadd.
      destruct (Hstay (t0 + 599) frame c') as (m' & H1 & H2 & H3 & _);
        [rewrite Hmax; lra | done |].
      by exists m'.
    + intros frame rest. apply Hgone. rewrite Hmax. lra.
Qed.

Lemma lifetime_check_disconnects_witness :
  exists m',
    recv_audio_loop 1 [(0 + 601, Some [0])] full_manager
      = (Returned, m', [Sent 1 (MsgDisconnect "u1"); Closed 1]) /\
    clients m' !! 1%positive = None /\ start_times m' !! 1%positive = None.
Proof.
  assert (Hc : clients full_manager !! 1%positive = Some (new_client "u1" 1))
    by (by vm_compute).
  assert (Ht : start_times full_manager !! 1%positive = Some 0)
    by (by vm_compute).
  destruct (lifetime_check_disconnects 1 full_manager _ _ Hc Ht)
    as (_ & _ & _ & H).
  destruct (H eq_refl) as [_ H']. exact (H' (Some [0]) []).
Defined.

(** C10: the lifetime check returns a boolean only for a websocket that has
    an entry in the start-time table.  Without one, whether the websocket
    was never admitted or was removed, it raises [KeyError]. *)
Theorem is_client_timeout_needs_entry (ws : positive) (now : Q)
    (m : ClientManager) :
  (start_times m !! ws = None -> is_client_timeout ws now m = Raise KeyError) /\
  is_client_timeout ws now (remove_client ws m).1 = Raise KeyError /\
  is_client_timeout ws now new_manager = Raise KeyError /\
  (is_Some (start_times m !! ws) -> is_Some (clients m !! ws) ->
     exists b evs, is_client_timeout ws now m = Ok (b, evs)).
Proof.
  split; [|split; [|split]].
  - intros H. unfold is_client_timeout. by rewrite H.
  - unfold is_client_timeout. simpl. by rewrite lookup_delete_eq.
  - unfold is_client_timeout. simpl. by rewrite lookup_empty.
  - intros [t Ht] [c Hc]. rewrite (is_client_timeout_known _ _ _ _ _ Hc Ht).
    destruct (Qle_bool _ _); eauto.
Qed.

Lemma is_client_timeout_needs_entry_witness :
  is_client_timeout 9 100 full_manager = Raise KeyError /\
  exists b evs, is_client_timeout 1 100 full_manager = Ok (b, evs).
Proof.
  split.
  - apply (proj1 (is_client_timeout_needs_entry 9 100 full_manager)).
    by vm_compute.
  - apply (proj2 (proj2 (proj2
             (is_client_timeout_needs_entry 1 100 full_manager)))).
    + vm_compute. eauto.
    + vm_compute. eauto.
Defined.

(* ================================================================== *)
(** ** The audio window                                                 *)
(* ================================================================== *)

Lemma py_int_nonneg (x : Q) : 0 <= x -> (0 <= py_int x)%Z.
Proof.
  intros H. unfold py_int. apply Z.quot_pos; [|lia].
  unfold Qle in H. simpl in H. lia.
Qed.

Lemma len_py_slice_from_nonneg {A} (l : list A) (k : Z) :
  (0 <= k)%Z -> len (py_slice_from l k) = Z.max 0 (len l - k).
Proof.
  intros Hk. unfold py_slice_from, len.
  apply Z.leb_le in Hk as Hk'. rewrite Hk', length_drop. lia.
Qed.

Lemma seconds_of_samples (n s : Z) :
  (s * RATE < n)%Z -> inject_Z s < inject_Z n / inject_Z RATE.
Proof.
  intros H. apply Qlt_shift_div_l; [by vm_compute|].
  rewrite <- inject_Z_mult. by rewrite <- Zlt_Qlt.
Qed.

Lemma inject_Z_sub (x y : Z) : inject_Z (x - y) = inject_Z x - inject_Z y.
Proof.
  unfold Z.sub, Qminus. by rewrite inject_Z_plus, inject_Z_opp.
Qed.

Lemma py_int_floor (x : Q) : 0 <= x -> py_int x = Qfloor x.
Proof.
  intros H. destruct x as [n d]. unfold py_int, Qfloor. cbn [Qnum Qden].
  apply Z.quot_div_nonneg; [|lia]. unfold Qle in H. cbn in H. lia.
Qed.

Lemma py_int_inject (x : Q) (z : Z) :
  (0 <= z)%Z -> x == inject_Z z -> py_int x = z.
Proof.
  intros Hz Hx. rewrite py_int_floor.
  - by rewrite Hx, Qfloor_Z.
  - rewrite Hx. change 0 with (inject_Z 0). by rewrite <- Zle_Qle.
Qed.

Lemma py_int_bounds (x : Q) :
  0 <= x -> (0 <= py_int x)%Z /\ inject_Z (py_int x) <= x /\
            x < inject_Z (py_int x) + 1.
Proof.
  intros H. split; [by apply py_int_nonneg|]. rewrite py_int_floor by done.
  split; [apply Qfloor_le|].
  pose proof (Qlt_floor x) as Hlt. rewrite inject_Z_plus in Hlt. exact Hlt.
Qed.

Lemma len_samples (n : Z) : (0 <= n)%Z -> len (samples n) = n.
Proof. intros H. unfold len, samples. rewrite repeat_length. lia. Qed.

Lemma inject_Z_horizon : inject_Z horizon = 1073741824.
Proof. reflexivity. Qed.

(** The duration of a window of the data model, in seconds. *)
Lemma window_seconds (n : Z) :
  (0 <= n)%Z -> (n <= horizon * RATE)%Z ->
  0 <= inject_Z n / inject_Z RATE /\
  inject_Z n / inject_Z RATE <= 1073741824 /\
  inject_Z n / inject_Z RATE == inject_Z n * (1 # 16000).
Proof.
  intros H0 H1.
  assert (E : inject_Z n / inject_Z RATE == inject_Z n * (1 # 16000))
    by reflexivity.
  rewrite E. rewrite Zle_Qle in H0, H1. rewrite inject_Z_mult in H1.
  change (inject_Z 0) with 0 in H0.
  change (inject_Z horizon) with 1073741824 in H1.
  change (inject_Z RATE) with 16000 in H1. repeat split; lra.
Qed.

(** The cursor in samples, for a cursor not before the buffer origin: the
    truncated binary64 product is the exact product up to one sample. *)
Lemma cursor_samples_bounds (c : ServeClient) :
  0 <= frames_offset c -> frames_offset c <= timestamp_offset c ->
  timestamp_offset c <= 4294967296 ->
  (0 <= cursor_samples c)%Z /\
  (timestamp_offset c - frames_offset c) * 16000 - (9 # 8)
    < inject_Z (cursor_samples c) /\
  inject_Z (cursor_samples c)
    <= (timestamp_offset c - frames_offset c) * 16000 + (1 # 8).
Proof.
  intros H0 H1 H2. unfold cursor_samples.
  destruct (cursor_position _ _ H0 H1 H2) as (P0 & P1 & P2).
  destruct (py_int_bounds _ P0) as (K0 & K1 & K2).
  split; [done|]. split; lra.
Qed.

Lemma cursor_samples_nonneg (c : ServeClient) :
  frames_offset c <= timestamp_offset c -> (0 <= cursor_samples c)%Z.
Proof.
  intros H. unfold cursor_samples. apply py_int_nonneg.
  apply fmul_RATE_nonneg. by apply fsub_nonneg.
Qed.

(** Where a clip puts the cursor: the binary64 value of
    [frames_offset + duration - 5] is the exact one up to an eighth of a
    sample period. *)
Lemma clip_cursor_near (fo : Q) (n : Z) :
  0 <= fo -> fo <= 2147483648 -> (0 <= n)%Z -> (n <= horizon * RATE)%Z ->
  let ts := fsub (fadd fo (inject_Z n / inject_Z RATE)) 5 in
  fo + inject_Z n * (1 # 16000) - 5 - (1 # 131072) <= ts /\
  ts <= fo + inject_Z n * (1 # 16000) - 5 + (1 # 131072).
Proof.
  intros F0 F1 N0 N1. cbv zeta.
  destruct (window_seconds n N0 N1) as (D0 & D1 & E).
  revert D0 D1 E. generalize (inject_Z n / inject_Z RATE). intros d D0 D1 E.
  destruct (fadd_near fo d) as [A1 A2]; [lra..|].
  assert (U : fadd fo d <= 4294967296).
  { unfold fadd. change 4294967296 with (inject_Z 4294967296).
    apply b64_le_Z; [done|]. change (inject_Z 4294967296) with 4294967296.
    assert (b64 fo <= 2147483648).
    { change 2147483648 with (inject_Z 2147483648). by apply b64_le_Z. }
    assert (b64 d <= 2147483648).
    { change 2147483648 with (inject_Z 2147483648). apply b64_le_Z; [done|].
      change (inject_Z 2147483648) with 2147483648. lra. }
    lra. }
  assert (L : 0 <= fadd fo d).
  { unfold fadd. apply b64_nonneg.
    pose proof (b64_nonneg fo F0). pose proof (b64_nonneg d D0). lra. }
  destruct (fsub_near (fadd fo d) 5) as [B1 B2]; [lra..|]. lra.
Qed.



(** The trim test of [add_frames] looks at the first sample only: a
    buffer whose first sample is at most [45 * RATE] is never trimmed. *)
Lemma add_frames_no_trim (c : ServeClient) (x0 : Q) (rest frame : list Q) :
  frames_np c = Some (x0 :: rest) ->
  x0 <= inject_Z (45 * RATE) ->
  add_frames frame c = Ok (set_frames_np (Some ((x0 :: rest) ++ frame)) c).
Proof.
  intros Hbuf Hx. unfold add_frames. rewrite Hbuf.
  apply Qltb_ge in Hx. rewrite Hx. simpl. by rewrite Hbuf.
Qed.

(** When the first sample does exceed [45 * RATE], 30 seconds are dropped
    and the buffer origin advances by 30. *)
Lemma add_frames_trim (c : ServeClient) (x0 : Q) (rest frame : list Q) :
  frames_np c = Some (x0 :: rest) ->
  inject_Z (45 * RATE) < x0 ->
  exists c', add_frames frame c = Ok c' /\
    frames_offset c' = frames_offset c + 30 /\
    frames_np c' = Some (py_slice_from (x0 :: rest) (30 * RATE) ++ frame) /\
    frames_offset c' <= timestamp_offset c'.
Proof.
  intros Hbuf Hx. unfold add_frames. rewrite Hbuf.
  apply Qltb_lt in Hx. rewrite Hx. cbn -[py_slice_from Qplus].
  destruct (Qltb (timestamp_offset c) (frames_offset c + 30)) eqn:E;
    cbn -[py_slice_from Qplus]; eexists; (split; [done|]);
    cbn -[py_slice_from Qplus]; repeat split; try lra.
  by apply Qltb_ge in E.
Qed.

(** An append never leaves the cursor before the buffer origin. *)
Lemma add_frames_cursor_ge_origin (c c' : ServeClient) (frame : list Q) :
  frames_offset c <= timestamp_offset c ->
  add_frames frame c = Ok c' ->
  frames_offset c' <= timestamp_offset c'.
Proof.
  intros Hinv. unfold add_frames.
  destruct (frames_np c) as [[|x0 rest]|] eqn:Hbuf; simpl.
  - discriminate.
  - destruct (Qltb (inject_Z (45 * RATE)) x0) eqn:Hx.
    + cbn -[py_slice_from Qplus].
      destruct (Qltb (timestamp_offset c) (frames_offset c + 30)) eqn:E;
        cbn -[py_slice_from Qplus]; intros [= <-]; cbn -[Qplus]; [lra|].
      by apply Qltb_ge in E.
    + simpl. rewrite Hbuf. by intros [= <-].
  - rewrite Hbuf. by intros [= <-].
Qed.

(** C1 fails on the code: a window that holds 46 seconds of silence is not
    trimmed by the next append; nothing is dropped, the buffer origin does
    not move, and the window is left longer than 45 seconds. *)
Theorem add_frames_keeps_46s_window (c : ServeClient) (frame : list Q) :
  let c0 := set_frames_np (Some (silence 46)) c in
  (45 * RATE < len (silence 46))%Z /\
  exists c', add_frames frame c0 = Ok c' /\
    frames_np c' = Some (silence 46 ++ frame) /\
    frames_offset c' = frames_offset c /\
    timestamp_offset c' = timestamp_offset c /\
    (45 * RATE < len (silence 46 ++ frame))%Z.
Proof.
  assert (Hs : exists tl, silence 46 = 0 :: tl).
  { exists (repeat 0 (Z.to_nat (46 * RATE - 1))). unfold silence.
    replace (Z.to_nat (46 * RATE)) with (S (Z.to_nat (46 * RATE - 1)))
      by (unfold RATE; lia).
    reflexivity. }
  assert (Hl : len (silence 46) = (46 * RATE)%Z).
  { unfold silence, len. rewrite repeat_length. unfold RATE. lia. }
  destruct Hs as [tl Hs]. revert Hl. generalize (silence 46) Hs.
  intros w -> Hl c0. subst c0.
  split; [rewrite Hl; unfold RATE; lia|].
  eexists. split.
  - apply add_frames_no_trim; [reflexivity | by vm_compute].
  - cbn [frames_np frames_offset timestamp_offset set_frames_np].
    repeat split.
    unfold len in *. rewrite length_app. unfold RATE in *. lia.
Qed.

(* ================================================================== *)
(** ** The segment stabilizer                                           *)
(* ================================================================== *)

(** Exposes the record behind a chain of attribute assignments. *)
Ltac unfold_setters :=
  unfold set_frames_np, set_timestamp_offset, set_frames_offset, set_text,
    set_current_out, set_prev_out, set_t_start, set_exit,
    set_same_output_threshold, set_transcript in *;
  cbn [client_uid websocket frames_np timestamp_offset frames_offset text
       current_out prev_out t_start exit same_output_threshold
       show_prev_out_thresh add_pause_thresh transcript send_last_n_segments
       no_speech_thresh] in *.

(** Reads attributes through a chain of assignments, leaving the chain
    folded. *)
Ltac read_fields :=
  cbn [client_uid websocket frames_np timestamp_offset frames_offset text
       current_out prev_out t_start exit same_output_threshold
       show_prev_out_thresh add_pause_thresh transcript send_last_n_segments
       no_speech_thresh
       set_frames_np set_timestamp_offset set_frames_offset set_text
       set_current_out set_prev_out set_t_start set_exit
       set_same_output_threshold set_transcript] in *.

(** The loop over the complete segments. *)
Lemma complete_loop (d : Q) (complete : list Segment) (c : ServeClient)
    (offset : option Q) :
  fold_left (complete_segment_step d) complete (c, offset)
  = (set_transcript
       (transcript c
        ++ map (complete_entry d (timestamp_offset c)) (kept d complete c))
       (set_text (text c ++ map seg_text complete) c),
     match last (kept d complete c) with
     | Some s => Some (py_min d (seg_end s))
     | None => offset
     end).
Proof.
  unfold kept.
  revert c offset. induction complete as [|s l IH]; intros c offset.
  - destruct c. unfold_setters. cbn. by rewrite !app_nil_r.
  - cbn [fold_left]. unfold complete_segment_step at 2.
    cbn [List.filter map]. unfold commits at 1 4.
    unfold_setters.
    destruct (Qle_bool _ _) eqn:E1; cbn [negb andb];
      [|destruct (Qltb _ _) eqn:E2; cbn [negb andb]];
      rewrite IH; unfold_setters; cbn [map]; rewrite <- ?app_assoc;
      try reflexivity.
    unfold complete_entry at 3. cbn [app]. f_equal.
    destruct (List.filter _ l) as [|s' l'] eqn:El; [done|].
    rewrite last_cons_cons. destruct (last (s' :: l')) eqn:Hl; [done|].
    by apply last_None in Hl.
Qed.

Lemma complete_segments_of_snoc (d : Q) (complete : list Segment)
    (sl : Segment) (acc : ServeClient * option Q) :
  (if (1 <? len (complete ++ [sl]))%Z
   then fold_left (complete_segment_step d) (removelast (complete ++ [sl])) acc
   else acc)
  = fold_left (complete_segment_step d) complete acc.
Proof.
  rewrite removelast_last. destruct complete as [|s l]; [done|].
  assert (E : (1 <? len ((s :: l) ++ [sl]))%Z = true).
  { apply Z.ltb_lt. unfold len. rewrite length_app. simpl. lia. }
  by rewrite E.
Qed.

Lemma append_empty_l (s : string) : ("" +:+ s = s)%string.
Proof. reflexivity. Qed.

(** [update_segments] in closed form. *)
Lemma update_segments_closed_form (complete : list Segment) (sl : Segment)
    (d : Q) (c : ServeClient) :
  update_segments (complete ++ [sl]) d c
  = Ok (stabilized d complete sl c,
        if stable c sl then None else tentative_segment d c sl).
Proof.
  unfold update_segments.
  rewrite complete_segments_of_snoc, complete_loop, last_snoc.
  unfold stabilized, offset_advance, stability_entry, stable, repeat_count,
    tentative_text, tentative_segment, is_new_text, kept.
  read_fields.
  destruct (Qle_bool (no_speech_prob sl) (no_speech_thresh c)) eqn:Ep;
    read_fields; rewrite ?append_empty_l.
  - destruct ((strip (seg_text sl) =? strip (prev_out c))%string
              && negb (seg_text sl =? "")%string) eqn:Er; read_fields.
    + destruct (5 <? same_output_threshold c + 1)%Z eqn:E5; read_fields.
      * destruct ((len (text c ++ map seg_text complete) =? 0)%Z
                  || negb match last (text c ++ map seg_text complete) with
                          | Some t =>
                              (lower (strip t)
                               =? lower (strip (seg_text sl)))%string
                          | None => false
                          end) eqn:En;
          read_fields; cbn [andb map e_text format_segment];
          rewrite ?app_nil_r, <- ?app_assoc; reflexivity.
      * cbn [andb map]. rewrite ?app_nil_r.
        destruct (last (List.filter _ complete)); reflexivity.
    + cbn [Z.ltb Z.compare andb map]. rewrite ?app_nil_r.
      destruct (last (List.filter _ complete)); reflexivity.
  - cbn [String.eqb negb andb Z.ltb Z.compare map]. rewrite ?app_nil_r.
    rewrite Bool.andb_false_r. cbn [Z.ltb Z.compare andb map].
    read_fields. rewrite ?app_nil_r.
    destruct (last (List.filter _ complete)); reflexivity.
Qed.

Lemma update_segments_empty (d : Q) (c : ServeClient) :
  update_segments [] d c = Raise IndexError.
Proof. reflexivity. Qed.

Lemma segments_snoc (segments : list Segment) :
  segments ≠ [] ->
  exists sl, last segments = Some sl /\ segments = removelast segments ++ [sl].
Proof.
  intros Hne. destruct (exists_last Hne) as (l & sl & ->).
  exists sl. by rewrite last_snoc, removelast_last.
Qed.

Lemma len_silence (n : Z) : (0 <= n)%Z -> len (silence n) = (n * RATE)%Z.
Proof.
  intros Hn. unfold silence, len. rewrite repeat_length. unfold RATE. lia.
Qed.

(** C8: the end-to-end scenario.  A fresh session holding 2.0 seconds of
    audio polls the raw segments (0.0, 1.0, "hi", 0.1) and
    (1.0, 1.9, "there", 0.1): the transcript gains exactly the entry
    ("0.000", "1.000", "hi"), the tentative segment returned and sent has
    the text "there", and the cursor advances to 1.0. *)
Theorem end_to_end_scenario (now : Q) :
  let c0 := new_client "u1" 1 in
  let c1 := set_frames_np (Some (silence 2)) c0 in
  let duration := inject_Z (len (silence 2)) / inject_Z RATE in
  let hi := {| e_start := "0.000"; e_end := "1.000"; e_text := "hi" |} in
  let there := {| e_start := "1.000"; e_end := "1.900"; e_text := "there" |} in
  add_frames (silence 2) c0 = Ok c1 /\
  timestamp_offset c1 = 0 /\ transcript c1 = [] /\
  get_audio_chunk_for_processing c1 = Ok (silence 2, duration) /\
  duration == 2 /\
  exists c2,
    update_segments scenario_segments duration c1 = Ok (c2, Some there) /\
    transcript c2 = [hi] /\
    timestamp_offset c2 = 1 /\
    handle_transcription_output now scenario_segments duration c1
      = Ok (c2, Some [hi; there]).
Proof.
  cbv zeta.
  assert (Hw : len (silence 2) = 32000%Z) by (by apply len_silence).
  revert Hw. generalize (silence 2). intros w Hw. rewrite Hw.
  split; [reflexivity|]. split; [reflexivity|]. split; [reflexivity|].
  split.
  { unfold get_audio_chunk_for_processing. unfold_setters.
    change (py_slice_from w _) with w. by rewrite Hw. }
  split; [by vm_compute|].
  eexists. split; [vm_compute; reflexivity|].
  split; [reflexivity|]. split; [reflexivity|].
  vm_compute. reflexivity.
Qed.

Lemma update_segments_last (segments : list Segment) (sl : Segment)
    (d : Q) (c : ServeClient) :
  last segments = Some sl ->
  update_segments segments d c
  = Ok (stabilized d (removelast segments) sl c,
        if stable c sl then None else tentative_segment d c sl).
Proof.
  intros Hl.
  assert (Hne : segments ≠ []) by (by intros ->).
  destruct (segments_snoc _ Hne) as (sl' & Hl' & Hs).
  assert (sl' = sl) as -> by congruence.
  rewrite Hs at 1. apply update_segments_closed_form.
Qed.

Lemma commits_true (d ts thresh : Q) (s : Segment) :
  commits d ts thresh s = true <->
  ts + seg_start s < ts + py_min d (seg_end s) /\ no_speech_prob s <= thresh.
Proof.
  unfold commits.
  rewrite andb_true_iff, !negb_true_iff, Qle_bool_gt, Qltb_ge. done.
Qed.

Lemma elem_of_kept (d : Q) (complete : list Segment) (c : ServeClient)
    (s : Segment) :
  s ∈ kept d complete c <->
  s ∈ complete /\
  timestamp_offset c + seg_start s
    < timestamp_offset c + py_min d (seg_end s) /\
  no_speech_prob s <= no_speech_thresh c.
Proof.
  unfold kept. rewrite !list_elem_of_In, filter_In, commits_true. done.
Qed.

(** A segment above the threshold leaves the transcript and the pending
    offset untouched when the loop body runs on it. *)
Lemma complete_segment_step_no_speech (d : Q) (c : ServeClient)
    (offset : option Q) (s : Segment) :
  no_speech_thresh c < no_speech_prob s ->
  transcript (complete_segment_step d (c, offset) s).1 = transcript c /\
  (complete_segment_step d (c, offset) s).2 = offset.
Proof.
  intros H. unfold complete_segment_step. read_fields.
  apply Qltb_lt in H. rewrite H.
  by destruct (Qle_bool _ _).
Qed.

(** C5: a raw segment whose no-speech probability exceeds the threshold
    produces neither a committed entry nor the returned tentative segment:
    the entries a call appends come from complete segments at or below the
    threshold and, for commit-on-stability, from a last segment at or below
    it, and so does the segment it returns. *)
Theorem no_speech_segments_are_dropped (segments : list Segment) (d : Q)
    (c : ServeClient) :
  segments ≠ [] ->
  exists c' r stab,
    update_segments segments d c = Ok (c', r) /\
    transcript c'
      = transcript c
        ++ map (complete_entry d (timestamp_offset c))
               (kept d (removelast segments) c)
        ++ stab /\
    (forall s, no_speech_thresh c < no_speech_prob s ->
       (s ∉ kept d (removelast segments) c) /\
       forall offset,
         transcript (complete_segment_step d (c, offset) s).1 = transcript c) /\
    (forall sl, last segments = Some sl ->
       (no_speech_thresh c < no_speech_prob sl -> r = None /\ stab = []) /\
       (r = None \/
        no_speech_prob sl <= no_speech_thresh c /\
        r = Some (format_segment (timestamp_offset c + seg_start sl)
                    (timestamp_offset c + py_min d (seg_end sl))
                    (seg_text sl))) /\
       (stab = [] \/
        no_speech_prob sl <= no_speech_thresh c /\
        stab = [format_segment (timestamp_offset c) (timestamp_offset c + d)
                  (seg_text sl)])).
Proof.
  intros Hne. destruct (segments_snoc _ Hne) as (sl & Hl & _).
  rewrite (update_segments_last _ _ _ _ Hl).
  eexists _, _, (stability_entry d (removelast segments) sl c).
  split; [reflexivity|]. split; [reflexivity|]. split.
  - intros s Hs. split.
    + rewrite elem_of_kept. intros (_ & _ & Hle). lra.
    + intros offset. by apply complete_segment_step_no_speech.
  - intros sl' Hl'. assert (sl' = sl) as -> by congruence.
    unfold stability_entry, stable, repeat_count, tentative_text,
      tentative_segment.
    destruct (Qle_bool (no_speech_prob sl) (no_speech_thresh c)) eqn:Ep.
    + apply Qle_bool_iff in Ep. split; [intros; lra|].
      split.
      * destruct (5 <? _)%Z; [by left | by right].
      * destruct (_ && _); [by right | by left].
    + apply Qle_bool_gt in Ep.
      cbn [String.eqb negb]. rewrite Bool.andb_false_r.
      cbn [Z.ltb Z.compare andb]. split; [done|]. split; by left.
Qed.

Lemma no_speech_segments_are_dropped_witness :
  exists c' r stab,
    update_segments [seg 0 1 "hum" (9 # 10); seg 1 2 "hiss" (8 # 10)] 2
      (new_client "u1" 1) = Ok (c', r) /\
    transcript c' = [] ++ [] ++ stab /\ r = None /\ stab = [].
Proof.
  destruct (no_speech_segments_are_dropped
              [seg 0 1 "hum" (9 # 10); seg 1 2 "hiss" (8 # 10)] 2
              (new_client "u1" 1))
    as (c' & r & stab & H1 & H2 & _ & H4); [discriminate|].
  exists c', r, stab. split; [exact H1|]. split; [exact H2|].
  apply (H4 (seg 1 2 "hiss" (8 # 10)) eq_refl). by vm_compute.
Defined.

(** The loop body records the text before it applies either filter. *)
Lemma complete_segment_step_text (d : Q) (c : ServeClient)
    (offset : option Q) (s : Segment) :
  text (complete_segment_step d (c, offset) s).1 = text c ++ [seg_text s].
Proof.
  unfold complete_segment_step. read_fields.
  destruct (Qle_bool _ _); [done|]. by destruct (Qltb _ _).
Qed.

Lemma get_previous_output_text (now : Q) (c : ServeClient) :
  text (get_previous_output now c).1
  = if pause_due now c then text c ++ [""%string] else text c.
Proof.
  unfold get_previous_output, pause_due.
  destruct (t_start c) eqn:Et; read_fields; rewrite ?Et; cbn [default];
    destruct (negb (len (text c) =? 0)%Z
              && negb (default "" (last (text c)) =? "")%string);
    cbn [andb]; try done; by destruct (Qltb _ _).
Qed.

(** C9: the text of every non-last segment is appended to the text history
    before the zero-length and no-speech filters, so the history grows by
    one entry per non-last segment whether or not the segment is committed;
    the commit-on-stability guard and the pause-marker guard read that
    history. *)
Theorem text_history_precedes_filters (segments : list Segment) (d now : Q)
    (c : ServeClient) :
  segments ≠ [] ->
  exists c' r sl,
    last segments = Some sl /\
    update_segments segments d c = Ok (c', r) /\
    let history := text c ++ map seg_text (removelast segments) in
    let committed :=
      stable c sl && is_new_text history (tentative_text c sl) in
    (forall c0 offset s,
       text (complete_segment_step d (c0, offset) s).1
       = text c0 ++ [seg_text s]) /\
    text (fold_left (complete_segment_step d) (removelast segments)
            (set_current_out "" c, None)).1 = history /\
    length history = (length (text c) + length (removelast segments))%nat /\
    text c'
      = history ++ (if committed then [tentative_text c sl] else []) /\
    transcript c'
      = transcript c
        ++ map (complete_entry d (timestamp_offset c))
               (kept d (removelast segments) c)
        ++ (if committed
            then [format_segment (timestamp_offset c)
                    (timestamp_offset c + d) (tentative_text c sl)]
            else []) /\
    text (get_previous_output now c').1
      = if pause_due now c' then text c' ++ [""%string] else text c'.
Proof.
  intros Hne. destruct (segments_snoc _ Hne) as (sl & Hl & _).
  rewrite (update_segments_last _ _ _ _ Hl).
  eexists _, _, sl. split; [done|]. split; [reflexivity|].
  cbv zeta. split; [apply complete_segment_step_text|].
  split; [by rewrite complete_loop|].
  split; [by rewrite length_app, length_map|].
  split; [|split; [|apply get_previous_output_text]].
  - unfold stabilized, stability_entry. read_fields.
    rewrite <- app_assoc. by destruct (_ && _).
  - unfold stabilized, stability_entry. read_fields. done.
Qed.

Lemma text_history_precedes_filters_witness :
  exists c' r,
    update_segments [seg 1 1 "uh" (9 # 10); seg 1 2 "oh" (1 # 10)] 2
      (new_client "u1" 1) = Ok (c', r) /\
    text c' = ["uh"%string] /\ transcript c' = [].
Proof.
  destruct (text_history_precedes_filters
              [seg 1 1 "uh" (9 # 10); seg 1 2 "oh" (1 # 10)] 2 0
              (new_client "u1" 1))
    as (c' & r & sl & Hl & H1 & _ & _ & _ & H4 & H5 & _); [discriminate|].
  exists c', r. split; [exact H1|].
  injection Hl as <-. split; [exact H4 | exact H5].
Defined.

(* ------------------------------------------------------------------ *)
(** *** Repetition of the tentative text                                *)

Section RepeatedPoll.
Variables (sl : Segment) (d : Q).

Lemma repeated_text_counts (c : ServeClient) :
  no_speech_prob sl <= no_speech_thresh c ->
  seg_text sl ≠ ""%string ->
  strip (seg_text sl) = strip (prev_out c) ->
  tentative_text c sl = seg_text sl /\
  repeat_count c (seg_text sl) = (same_output_threshold c + 1)%Z.
Proof using Type.
  intros Hp Hne Hs. unfold tentative_text, repeat_count.
  apply Qle_bool_iff in Hp. rewrite Hp, Hs, String.eqb_refl.
  apply String.eqb_neq in Hne. by rewrite Hne.
Qed.

(** A poll that repeats the pending text below the limit only counts. *)
Lemma poll_counts (c : ServeClient) (k : Z) :
  no_speech_prob sl <= no_speech_thresh c ->
  seg_text sl ≠ ""%string ->
  strip (seg_text sl) = strip (prev_out c) ->
  same_output_threshold c = k ->
  (k < 5)%Z ->
  exists c1,
    update_segments [sl] d c = Ok (c1, tentative_segment d c sl) /\
    is_Some (tentative_segment d c sl) /\
    transcript c1 = transcript c /\ text c1 = text c /\
    timestamp_offset c1 = timestamp_offset c /\
    no_speech_thresh c1 = no_speech_thresh c /\
    prev_out c1 = seg_text sl /\
    same_output_threshold c1 = (k + 1)%Z.
Proof using Type.
  intros Hp Hne Hs Hk Hlt.
  destruct (repeated_text_counts c Hp Hne Hs) as [Ht Hr].
  rewrite (update_segments_last [sl] sl d c eq_refl).
  assert (Hst : stable c sl = false).
  { unfold stable. rewrite Ht, Hr. apply Z.ltb_ge. lia. }
  rewrite Hst. eexists. split; [reflexivity|].
  split.
  { unfold tentative_segment. apply Qle_bool_iff in Hp. rewrite Hp. eauto. }
  unfold stabilized, offset_advance, stability_entry, kept.
  rewrite Hst, Ht, Hr. read_fields. cbn [List.filter map last andb].
  rewrite !app_nil_r. repeat split. lia.
Qed.

(** The poll that takes the count past the limit commits. *)
Lemma poll_commits (c : ServeClient) :
  no_speech_prob sl <= no_speech_thresh c ->
  seg_text sl ≠ ""%string ->
  strip (seg_text sl) = strip (prev_out c) ->
  same_output_threshold c = 5%Z ->
  is_new_text (text c) (seg_text sl) = true ->
  exists c1,
    update_segments [sl] d c = Ok (c1, None) /\
    transcript c1
      = transcript c
        ++ [format_segment (timestamp_offset c) (timestamp_offset c + d)
              (seg_text sl)] /\
    text c1 = text c ++ [seg_text sl] /\
    timestamp_offset c1 = timestamp_offset c + d /\
    same_output_threshold c1 = 0%Z.
Proof using Type.
  intros Hp Hne Hs Hk Hnew.
  destruct (repeated_text_counts c Hp Hne Hs) as [Ht Hr].
  rewrite (update_segments_last [sl] sl d c eq_refl).
  assert (Hst : stable c sl = true).
  { unfold stable. by rewrite Ht, Hr, Hk. }
  rewrite Hst. eexists. split; [reflexivity|].
  unfold stabilized, offset_advance, stability_entry, kept.
  rewrite Hst, Ht. read_fields. cbn [List.filter map last andb].
  rewrite !app_nil_r, Hnew. done.
Qed.
End RepeatedPoll.

(** C2, as stated, fails: six polls of the same tentative text on a fresh
    session commit nothing; the sixth still returns the tentative segment
    and leaves the repeat counter at 5. *)
Lemma six_polls_do_not_commit :
  (exists c rs,
     run_polls (repeat ([seg 0 1 "b" (1 # 10)], 2) 6) (new_client "u1" 1)
       = Ok (c, rs) /\
     transcript c = [] /\ same_output_threshold c = 5%Z /\
     timestamp_offset c = 0 /\
     last rs = Some (Some {| e_start := "0.000"; e_end := "1.000";
                             e_text := "b" |})) /\
  ~ repetition_commit (new_client "u1" 1) (seg 0 1 "b" (1 # 10)) 2.
Proof.
  split.
  - eexists _, _. split; [vm_compute; reflexivity|]. by vm_compute.
  - intros (c & rs & Hrun & Htr & _). vm_compute in Hrun.
    injection Hrun as <- <-. discriminate Htr.
Qed.

(** Six polls of a text that is already pending: five that count and one
    that commits. *)
Lemma six_polls_of_pending_text (c : ServeClient) (sl : Segment) (d : Q) :
  no_speech_prob sl <= no_speech_thresh c ->
  seg_text sl ≠ ""%string ->
  strip (seg_text sl) = strip (prev_out c) ->
  same_output_threshold c = 0%Z ->
  is_new_text (text c) (seg_text sl) = true ->
  repetition_commit c sl d.
Proof.
  intros Hp Hne Hs Hk Hnew.
  destruct (poll_counts sl d c 0 Hp Hne Hs Hk) as
    (c1 & R1 & _ & T1 & X1 & O1 & N1 & P1 & K1); [lia|].
  destruct (poll_counts sl d c1 1) as
    (c2 & R2 & _ & T2 & X2 & O2 & N2 & P2 & K2);
    [by rewrite N1 | done | by rewrite P1 | done | lia |].
  destruct (poll_counts sl d c2 2) as
    (c3 & R3 & _ & T3 & X3 & O3 & N3 & P3 & K3);
    [by rewrite N2, N1 | done | by rewrite P2 | done | lia |].
  destruct (poll_counts sl d c3 3) as
    (c4 & R4 & _ & T4 & X4 & O4 & N4 & P4 & K4);
    [by rewrite N3, N2, N1 | done | by rewrite P3 | done | lia |].
  destruct (poll_counts sl d c4 4) as
    (c5 & R5 & _ & T5 & X5 & O5 & N5 & P5 & K5);
    [by rewrite N4, N3, N2, N1 | done | by rewrite P4 | done | lia |].
  destruct (poll_commits sl d c5) as (c6 & R6 & T6 & _ & O6 & K6);
    [by rewrite N5, N4, N3, N2, N1 | done | by rewrite P5 | done
    | by rewrite X5, X4, X3, X2, X1 |].
  unfold repetition_commit. exists c6. eexists.
  split.
  { cbn [repeat run_polls]. rewrite R1. cbn. rewrite R2. cbn. rewrite R3. cbn.
    rewrite R4. cbn. rewrite R5. cbn. rewrite R6. cbn. reflexivity. }
  split; [by rewrite T6, T5, T4, T3, T2, T1, O5, O4, O3, O2, O1|].
  split; [done|].
  split; [by rewrite O6, O5, O4, O3, O2, O1 | done].
Qed.
(** C2, amended: six consecutive polls of the same tentative segment commit
    exactly one entry on the sixth, provided the pending text of the session
    is already that text (trimmed) with the repeat counter at 0, the text is
    not empty, its no-speech probability is within the threshold and it
    differs from the last entry of the text history. *)
Theorem repetition_commit_after_six (c : ServeClient) (sl : Segment) (d : Q) :
  no_speech_prob sl <= no_speech_thresh c ->
  seg_text sl ≠ ""%string ->
  strip (seg_text sl) = strip (prev_out c) ->
  same_output_threshold c = 0%Z ->
  is_new_text (text c) (seg_text sl) = true ->
  repetition_commit c sl d.
Proof.
  intros Hp Hne Hs Hk Hnew. by apply six_polls_of_pending_text.
Qed.

Lemma repetition_commit_after_six_witness :
  repetition_commit (set_prev_out "b" (new_client "u1" 1))
    (seg 0 1 "b" (1 # 10)) 2.
Proof.
  apply repetition_commit_after_six.
  - by vm_compute.
  - discriminate.
  - reflexivity.
  - reflexivity.
  - reflexivity.
Defined.

(** A poll whose tentative text differs from the pending one restarts the
    count and becomes the pending text. *)
Lemma poll_resets (sl : Segment) (d : Q) (c : ServeClient) :
  no_speech_prob sl <= no_speech_thresh c ->
  strip (seg_text sl) ≠ strip (prev_out c) ->
  exists c1,
    update_segments [sl] d c = Ok (c1, tentative_segment d c sl) /\
    transcript c1 = transcript c /\ text c1 = text c /\
    timestamp_offset c1 = timestamp_offset c /\
    no_speech_thresh c1 = no_speech_thresh c /\
    prev_out c1 = seg_text sl /\
    same_output_threshold c1 = 0%Z.
Proof.
  intros Hp Hs.
  rewrite (update_segments_last [sl] sl d c eq_refl).
  assert (Ht : tentative_text c sl = seg_text sl).
  { unfold tentative_text. apply Qle_bool_iff in Hp. by rewrite Hp. }
  assert (Hr : repeat_count c (seg_text sl) = 0%Z).
  { unfold repeat_count. apply String.eqb_neq in Hs. by rewrite Hs. }
  assert (Hst : stable c sl = false) by (unfold stable; by rewrite Ht, Hr).
  rewrite Hst. eexists. split; [reflexivity|].
  unfold stabilized, offset_advance, stability_entry, kept.
  rewrite Hst, Ht, Hr. read_fields. cbn [List.filter map last andb].
  by rewrite !app_nil_r.
Qed.

(** On a fresh session the first poll only records the pending text, so the
    commit comes with the seventh poll. *)
Lemma fresh_session_commits_on_seventh_poll (uid : string) (ws : positive)
    (sl : Segment) (d : Q) :
  no_speech_prob sl <= 45 # 100 ->
  strip (seg_text sl) ≠ ""%string ->
  exists c1 r1,
    update_segments [sl] d (new_client uid ws) = Ok (c1, r1) /\
    transcript c1 = [] /\ timestamp_offset c1 = 0 /\
    repetition_commit c1 sl d.
Proof.
  intros Hp Hs.
  destruct (poll_resets sl d (new_client uid ws) Hp Hs)
    as (c1 & R1 & T1 & X1 & O1 & N1 & P1 & K1).
  exists c1, (tentative_segment d (new_client uid ws) sl).
  split; [done|]. split; [done|]. split; [done|].
  apply six_polls_of_pending_text.
  - by rewrite N1.
  - intros E. by rewrite E in Hs.
  - by rewrite P1.
  - done.
  - by rewrite X1.
Qed.

(* ------------------------------------------------------------------ *)
(** *** Order of the committed entries                                  *)

Lemma StronglySorted_list_filter {A} (R : relation A) (f : A -> bool)
    (l : list A) :
  StronglySorted R l -> StronglySorted R (List.filter f l).
Proof.
  induction 1 as [|a l Hs IH Hall]; cbn [List.filter]; [constructor|].
  destruct (f a); [|done]. constructor; [done|].
  rewrite Forall_forall in *. intros x Hx.
  apply Hall. rewrite list_elem_of_In in *. by apply filter_In in Hx as [].
Qed.

Lemma StronglySorted_le_last {A} (R : relation A) (l : list A) (x z : A) :
  StronglySorted R l -> last l = Some z -> x ∈ l -> x = z \/ R x z.
Proof.
  intros Hs Hl Hx.
  assert (Hne : l ≠ []) by (by intros ->).
  destruct (exists_last Hne) as (l' & z' & ->).
  rewrite last_snoc in Hl. injection Hl as ->.
  apply elem_of_app in Hx as [Hx|Hx].
  - right. eapply StronglySorted_app_1_elem_of; [done..|]. by left.
  - left. by apply list_elem_of_singleton in Hx.
Qed.

Lemma kept_sorted (d : Q) (complete : list Segment) (c : ServeClient) :
  StronglySorted (fun s s' => seg_start s <= seg_start s') complete ->
  StronglySorted (fun s s' => seg_start s <= seg_start s') (kept d complete c).
Proof. apply StronglySorted_list_filter. Qed.

Lemma format_complete_span (d ts : Q) (l : list Segment) :
  map format_span (map (complete_span d ts) l) = map (complete_entry d ts) l.
Proof. rewrite map_map. by apply map_ext. Qed.

(** What one well-formed poll commits. *)
Lemma poll_commits_in_order (segments : list Segment) (d : Q)
    (c : ServeClient) :
  well_formed_poll (segments, d) ->
  exists c' r,
    update_segments segments d c = Ok (c', r) /\
    transcript c'
      = transcript c
        ++ map format_span ((poll_spans segments d c).1
                            ++ (poll_spans segments d c).2) /\
    timestamp_offset c <= timestamp_offset c' /\
    (forall x, x ∈ (poll_spans segments d c).1 ++ (poll_spans segments d c).2 ->
       timestamp_offset c <= sp_start x /\
       sp_start x <= timestamp_offset c' /\
       sp_start x < sp_end x) /\
    StronglySorted (fun x y => sp_start x <= sp_start y)
      (poll_spans segments d c).1 /\
    (forall y, y ∈ (poll_spans segments d c).2 ->
       sp_start y = timestamp_offset c) /\
    (length (poll_spans segments d c).2 <= 1)%nat.
Proof.
  intros (Hne & Hd & Hpos & Hsorted). cbn [fst snd] in *.
  destruct (segments_snoc _ Hne) as (sl & Hl & Hs).
  rewrite (update_segments_last _ _ _ _ Hl).
  unfold poll_spans. rewrite Hl. cbn [fst snd].
  set (complete := removelast segments) in *.
  assert (Hsc : StronglySorted (fun s s' => seg_start s <= seg_start s')
                  complete).
  { rewrite Hs in Hsorted. by apply StronglySorted_app_1_l in Hsorted. }
  assert (Hpc : forall s, s ∈ complete -> 0 <= seg_start s).
  { intros s Hin. rewrite Forall_forall in Hpos. apply Hpos.
    rewrite Hs. apply elem_of_app. by left. }
  assert (Hk : forall s, s ∈ kept d complete c ->
            0 <= seg_start s /\ seg_start s < py_min d (seg_end s)).
  { intros s (Hin & Hlt & _)%elem_of_kept. split; [by apply Hpc | lra]. }
  eexists _, _. split; [reflexivity|].
  unfold stabilized, offset_advance, stability_entry. read_fields.
  split; [|split; [|split; [|split; [|split]]]].
  - rewrite map_app, format_complete_span. do 2 f_equal.
    by destruct (_ && _).
  - destruct (stable c sl); [lra|].
    destruct (last (kept d complete c)) as [z|] eqn:Hz; [|lra].
    assert (Hin : z ∈ kept d complete c).
    { apply last_Some_elem_of in Hz. done. }
    destruct (Hk _ Hin). lra.
  - intros x [Hx|Hx]%elem_of_app.
    + apply list_elem_of_fmap in Hx as (s & -> & Hin).
      destruct (Hk _ Hin) as [H0 Hlt]. cbn [sp_start sp_end complete_span].
      split; [lra|]. split; [|lra].
      destruct (stable c sl).
      * pose proof (py_min_le_l d (seg_end s)). lra.
      * destruct (last (kept d complete c)) as [z|] eqn:Hz.
        -- assert (Hinz : z ∈ kept d complete c)
             by (by apply last_Some_elem_of in Hz).
           destruct (Hk _ Hinz) as [_ Hltz].
           destruct (StronglySorted_le_last _ _ s z
                       (kept_sorted d complete c Hsc) Hz Hin) as [->|Hle];
             lra.
        -- apply last_None in Hz. rewrite Hz in Hin.
           by apply elem_of_nil in Hin.
    + destruct (stable c sl); cbn [andb] in Hx;
        [|by apply elem_of_nil in Hx].
      destruct (is_new_text _ _); [|by apply elem_of_nil in Hx].
      apply list_elem_of_singleton in Hx as ->. cbn [sp_start sp_end]. lra.
  - apply StronglySorted_fmap with
      (R1 := fun s s' => seg_start s <= seg_start s');
      [|by apply kept_sorted].
    intros s s' Hle. cbn [sp_start complete_span]. lra.
  - intros y Hy. destruct (_ && _); [|by apply elem_of_nil in Hy].
    by apply list_elem_of_singleton in Hy as ->.
  - destruct (_ && _); cbn [length]; lia.
Qed.

Lemma polls_commit_in_order (ps : list poll) (c : ServeClient) :
  Forall well_formed_poll ps ->
  exists c' rs,
    run_polls ps c = Ok (c', rs) /\
    transcript c'
      = transcript c ++ map format_span (all_spans (run_spans ps c)) /\
    timestamp_offset c <= timestamp_offset c' /\
    (forall x, x ∈ all_spans (run_spans ps c) ->
       timestamp_offset c <= sp_start x /\
       sp_start x <= timestamp_offset c' /\
       sp_start x < sp_end x) /\
    StronglySorted chunk_le (run_spans ps c) /\
    Forall chunk_in_order (run_spans ps c).
Proof.
  intros Hwf. revert c.
  induction Hwf as [|[segments d] ps Hp Hps IH]; intros c.
  - exists c, []. cbn. rewrite app_nil_r.
    split; [done|]. split; [done|]. split; [lra|].
    split; [intros x Hx; by apply elem_of_nil in Hx|].
    split; constructor.
  - destruct (poll_commits_in_order segments d c Hp)
      as (c1 & r & Hu & Ht & Hle & Hb & Hs & Hy & Hlen).
    destruct (IH c1) as (c' & rs & Hr & Ht' & Hle' & Hb' & Hs' & Hin').
    exists c', (r :: rs).
    cbn [run_polls run_spans]. rewrite Hu. cbn. rewrite Hr. cbn.
    unfold all_spans in *. cbn [map concat].
    split; [done|].
    split; [rewrite Ht', Ht, <- app_assoc; f_equal; symmetry; apply map_app|].
    split; [lra|].
    split; [|split].
    + intros x [Hx|Hx]%elem_of_app.
      * destruct (Hb x Hx) as (? & ? & ?). repeat split; lra.
      * destruct (Hb' x Hx) as (? & ? & ?). repeat split; lra.
    + constructor; [done|]. rewrite Forall_forall. intros ch Hch x y Hx Hyc.
      destruct (Hb x Hx) as (_ & Hx1 & _).
      assert (Hyall : y ∈ concat (map (fun ch => ch.1 ++ ch.2)
                                      (run_spans ps c1))).
      { apply list_elem_of_In, in_concat. exists (ch.1 ++ ch.2).
        split; [|by apply list_elem_of_In].
        apply (in_map (fun ch : list Span * list Span => ch.1 ++ ch.2)).
        by apply list_elem_of_In. }
      destruct (Hb' y Hyall) as (Hy1 & _ & _). lra.
    + constructor; [|done]. split; [done|]. split; [done|].
      intros x y Hx Hy'. rewrite (Hy y Hy').
      apply (Hb x). apply elem_of_app. by left.
Qed.

Lemma sorted_by_start_true (l : list Segment) :
  sorted_by_start l = true ->
  StronglySorted (fun s s' => seg_start s <= seg_start s') l.
Proof.
  induction l as [|s r IH]; cbn [sorted_by_start]; [constructor|].
  intros [Hall Hr]%andb_true_iff. constructor; [by apply IH|].
  rewrite forallb_forall in Hall. rewrite Forall_forall.
  intros s' Hin. apply Qle_bool_iff, Hall. by apply list_elem_of_In.
Qed.

Lemma well_formed_pollb_true (ps : list poll) :
  forallb well_formed_pollb ps = true -> Forall well_formed_poll ps.
Proof.
  rewrite forallb_forall, Forall_forall. intros H p Hin.
  apply list_elem_of_In, H in Hin. unfold well_formed_pollb in Hin.
  repeat (apply andb_true_iff in Hin as [Hin ?]).
  split; [|split; [|split]].
  - intros E. rewrite E in Hin. discriminate.
  - by apply Qltb_lt.
  - rewrite Forall_forall. intros s Hs.
    match goal with
    | Hf : forallb _ _ = true |- _ => rewrite forallb_forall in Hf;
        apply Qle_bool_iff, Hf; by apply list_elem_of_In
    end.
  - by apply sorted_by_start_true.
Qed.

Lemma stability_after_complete_well_formed :
  Forall well_formed_poll stability_after_complete.
Proof. apply well_formed_pollb_true. by vm_compute. Qed.

(** C3, as stated, fails: when a poll commits a complete segment and then
    its stable tentative text, the second entry starts at the cursor, before
    the first. *)
Lemma stability_entry_starts_earlier :
  (exists c rs,
     run_polls stability_after_complete (new_client "u1" 1) = Ok (c, rs) /\
     transcript c
       = [{| e_start := "0.500"; e_end := "1.000"; e_text := "a" |};
          {| e_start := "0.000"; e_end := "2.000"; e_text := "b" |}] /\
     monotonic_transcript (transcript c) = false) /\
  ~ transcript_always_monotonic.
Proof.
  assert (H : exists c rs,
     run_polls stability_after_complete (new_client "u1" 1) = Ok (c, rs) /\
     transcript c
       = [{| e_start := "0.500"; e_end := "1.000"; e_text := "a" |};
          {| e_start := "0.000"; e_end := "2.000"; e_text := "b" |}] /\
     monotonic_transcript (transcript c) = false).
  { eexists _, _. split; [vm_compute; reflexivity|]. by vm_compute. }
  split; [exact H|].
  destruct H as (c & rs & Hrun & _ & Hm). intros Hall.
  specialize (Hall _ _ _ stability_after_complete_well_formed Hrun).
  congruence.
Qed.

(** Formatting to three decimals can also make a committed entry end where
    it starts. *)
Lemma formatting_collapses_short_entry :
  Forall well_formed_poll short_complete_segment /\
  exists c rs,
    run_polls short_complete_segment (new_client "u1" 1) = Ok (c, rs) /\
    transcript c
      = [{| e_start := "1.000"; e_end := "1.000"; e_text := "a" |}] /\
    monotonic_transcript (transcript c) = false.
Proof.
  split; [apply well_formed_pollb_true; by vm_compute|].
  eexists _, _. split; [vm_compute; reflexivity|]. by vm_compute.
Qed.

(** C3, amended: for polls with a positive duration and raw segments sorted
    by non-negative start, the transcript is the formatting of spans that
    each end after they start; the spans of a later poll start no earlier
    than those of an earlier poll; within a poll the spans of the complete
    segments are in start order, and the stability span, if any, follows
    them although it starts at the cursor, no later than they do. *)
Theorem committed_entries_ordered_by_poll (ps : list poll) (uid : string)
    (ws : positive) :
  Forall well_formed_poll ps ->
  exists c rs,
    run_polls ps (new_client uid ws) = Ok (c, rs) /\
    transcript c
      = map format_span (all_spans (run_spans ps (new_client uid ws))) /\
    Forall (fun x => sp_start x < sp_end x)
      (all_spans (run_spans ps (new_client uid ws))) /\
    StronglySorted chunk_le (run_spans ps (new_client uid ws)) /\
    Forall chunk_in_order (run_spans ps (new_client uid ws)).
Proof.
  intros Hwf.
  destruct (polls_commit_in_order ps (new_client uid ws) Hwf)
    as (c & rs & Hrun & Ht & _ & Hb & Hs & Hin).
  exists c, rs. split; [done|]. split; [done|].
  split; [|done]. rewrite Forall_forall. intros x Hx. by apply Hb.
Qed.

Lemma committed_entries_ordered_by_poll_witness :
  exists c rs,
    run_polls stability_after_complete (new_client "u1" 1) = Ok (c, rs) /\
    transcript c
      = map format_span
          (all_spans (run_spans stability_after_complete (new_client "u1" 1))) /\
    Forall (fun x => sp_start x < sp_end x)
      (all_spans (run_spans stability_after_complete (new_client "u1" 1))) /\
    StronglySorted chunk_le
      (run_spans stability_after_complete (new_client "u1" 1)) /\
    Forall chunk_in_order
      (run_spans stability_after_complete (new_client "u1" 1)).
Proof.
  apply committed_entries_ordered_by_poll.
  apply well_formed_pollb_true. vm_compute. reflexivity.
Defined.

(* ================================================================== *)
(** ** Further properties of the registry                               *)
(* ================================================================== *)

(** X1: removing a session is idempotent and cleans up once: the first
    removal hands back the client with its exit flag set, if there was one,
    a second removal changes nothing and hands back nothing, and the other
    sessions are untouched. *)
Theorem remove_client_once (ws : positive) (m : ClientManager) :
  (remove_client ws m).2 = set_exit true <$> clients m !! ws /\
  get_client ws (remove_client ws m).1 = None /\
  start_times (remove_client ws m).1 !! ws = None /\
  remove_client ws (remove_client ws m).1 = ((remove_client ws m).1, None) /\
  forall ws', ws' ≠ ws ->
    get_client ws' (remove_client ws m).1 = get_client ws' m /\
    start_times (remove_client ws m).1 !! ws' = start_times m !! ws'.
Proof.
  unfold remove_client, get_client, cleanup. cbn [fst snd clients start_times].
  split; [done|]. split; [apply lookup_delete_eq|].
  split; [apply lookup_delete_eq|]. split.
  - cbn [max_clients max_connection_time].
    rewrite !delete_delete_eq, lookup_delete_eq. done.
  - intros ws' Hne. by rewrite !lookup_delete_ne.
Qed.

Lemma remove_client_once_witness :
  get_client 2 (remove_client 1 full_manager).1 = get_client 2 full_manager /\
  start_times (remove_client 1 full_manager).1 !! 2%positive
  = start_times full_manager !! 2%positive.
Proof.
  apply (proj2 (proj2 (proj2 (proj2 (remove_client_once 1 full_manager))))).
  discriminate.
Defined.

Lemma tables_agree_new : tables_agree new_manager.
Proof.
  intros ws. unfold new_manager. cbn [clients start_times].
  rewrite (lookup_empty (M:=gmap positive) (A:=ServeClient)).
  rewrite (lookup_empty (M:=gmap positive) (A:=Q)). done.
Qed.

Lemma tables_agree_add (ws : positive) (c : ServeClient) (now : Q)
    (m : ClientManager) :
  tables_agree m -> tables_agree (add_client ws c now m).
Proof.
  intros H ws'. cbn [add_client clients start_times].
  destruct (decide (ws = ws')) as [->|Hne].
  - rewrite !lookup_insert_eq. split; eauto.
  - rewrite !lookup_insert_ne by done. apply H.
Qed.

Lemma tables_agree_remove (ws : positive) (m : ClientManager) :
  tables_agree m -> tables_agree (remove_client ws m).1.
Proof.
  intros H ws'. cbn [remove_client fst clients start_times].
  destruct (decide (ws = ws')) as [->|Hne].
  - rewrite !lookup_delete_eq. split; intros [? ?]; done.
  - rewrite !lookup_delete_ne by done. apply H.
Qed.

Lemma tables_agree_frames (ws : positive) (frame : option (list Q))
    (m m' : ClientManager) (b : bool) :
  tables_agree m ->
  process_audio_frames ws frame m = Ok (b, m') ->
  tables_agree m'.
Proof.
  intros H. unfold process_audio_frames, get_client.
  destruct frame as [f|]; [|by intros [= <- <-]].
  destruct (clients m !! ws) as [c|] eqn:Hc; [|done].
  destruct (add_frames f c) as [c'|]; [|done]. cbn.
  intros [= <- <-] ws'. cbn [clients start_times].
  destruct (decide (ws = ws')) as [->|Hne].
  - rewrite lookup_insert_eq. split; [|by eauto].
    intros _. apply H. rewrite Hc. by eauto.
  - rewrite lookup_insert_ne by done. apply H.
Qed.

Lemma tables_agree_finally (ws : positive) (m : ClientManager) :
  tables_agree m -> tables_agree (recv_audio_finally ws m).1.
Proof.
  intros H. unfold recv_audio_finally.
  destruct (get_client ws m); [|done]. by apply tables_agree_remove.
Qed.

Lemma tables_agree_loop (ws : positive)
    (inputs : list (Q * option (list Q))) (m : ClientManager) :
  tables_agree m -> tables_agree (recv_audio_loop ws inputs m).1.2.
Proof.
  revert m. induction inputs as [|[now frame] rest IH]; intros m H; [done|].
  cbn [recv_audio_loop].
  pose proof (tables_agree_finally ws m H) as Hf.
  destruct (is_client_timeout ws now m) as [[[] sent]|e].
  - by destruct (recv_audio_finally ws m).
  - destruct (process_audio_frames ws frame m) as [[[] m1]|e] eqn:Hp.
    + specialize (IH m1 (tables_agree_frames _ _ _ _ _ H Hp)).
      by destruct (recv_audio_loop ws rest m1) as [[? ?] ?].
    + pose proof (tables_agree_finally ws m1
                    (tables_agree_frames _ _ _ _ _ H Hp)).
      by destruct (recv_audio_finally ws m1).
    + by destruct (recv_audio_finally ws m).
  - by destruct (recv_audio_finally ws m).
Qed.

(** X2: the client table and the start-time table keep the same keys:
    they do in a new registry, and admission, removal and the whole frame
    loop of a connection preserve it. *)
Theorem registry_tables_agree (ws : positive) (c : ServeClient) (now : Q)
    (inputs : list (Q * option (list Q))) (m : ClientManager) :
  tables_agree new_manager /\
  (tables_agree m ->
     tables_agree (add_client ws c now m) /\
     tables_agree (remove_client ws m).1 /\
     tables_agree (recv_audio_loop ws inputs m).1.2).
Proof.
  split; [apply tables_agree_new|]. intros H.
  split; [by apply tables_agree_add|].
  split; [by apply tables_agree_remove | by apply tables_agree_loop].
Qed.

Lemma registry_tables_agree_witness :
  tables_agree (recv_audio_loop 1 [(601, Some [0])] full_manager).1.2.
Proof.
  apply (proj2 (registry_tables_agree 1 (new_client "u1" 1) 0
                  [(601, Some [0])] full_manager)).
  repeat apply tables_agree_add. apply tables_agree_new.
Defined.

(** X3: in a registry whose tables agree the lifetime check returns a
    boolean exactly for the registered websockets and raises [KeyError] for
    all others. *)
Theorem is_client_timeout_total_on_registered (ws : positive) (now : Q)
    (m : ClientManager) :
  tables_agree m ->
  ((exists b evs, is_client_timeout ws now m = Ok (b, evs)) <->
   is_Some (get_client ws m)) /\
  (is_client_timeout ws now m = Raise KeyError <-> get_client ws m = None).
Proof.
  intros H. unfold get_client, is_client_timeout.
  destruct (start_times m !! ws) as [t|] eqn:Ht.
  - destruct (proj2 (H ws)) as [c Hc]; [by rewrite Ht|]. rewrite Hc.
    split.
    + split; [eauto|]. intros _. destruct (Qle_bool _ _); eauto.
    + split; [|done]. by destruct (Qle_bool _ _).
  - destruct (clients m !! ws) as [c|] eqn:Hc.
    + destruct (proj1 (H ws)) as [t Ht']; [by rewrite Hc|]. congruence.
    + split; [|done]. split; [by intros (? & ? & ?) | by intros [? ?]].
Qed.

Lemma is_client_timeout_total_on_registered_witness :
  exists b evs, is_client_timeout 2 100 full_manager = Ok (b, evs).
Proof.
  apply (proj1 (is_client_timeout_total_on_registered 2 100 full_manager
                  ltac:(repeat apply tables_agree_add;
                        apply tables_agree_new))).
  vm_compute. eauto.
Defined.

(* ------------------------------------------------------------------ *)
(** *** The handshake                                                   *)

Section HandshakeProperties.
Variable path_exists : string -> bool.
Variable model_loads : string -> bool.

Lemma initialize_client_registers (ws : positive) (options : Options)
    (model_path : option string) (now : Q) (m m' : ClientManager)
    (sent : list handshake_event) :
  initialize_client path_exists model_loads ws options model_path now m
    = (sent, Some m') ->
  exists uid, opt_uid options = Some uid /\
    m' = add_client ws (new_client uid ws) now m /\
    sent = [Told ws (MsgServerReady uid "faster_whisper")].
Proof using Type.
  unfold initialize_client, init_client, check_valid_model.
  destruct (opt_uid options) as [uid|]; [|done].
  destruct (match model_path with
            | Some p => if path_exists p then Some p else opt_model options
            | None => opt_model options
            end) as [model|]; [|done].
  destruct (path_exists model); cbn [negb].
  - destruct (model_loads model); cbn; [|done].
    intros [= <- <-]. by exists uid.
  - destruct (bool_decide (model ∈ model_sizes)); cbn; [|done].
    destruct (model_loads _); cbn; [|done].
    intros [= <- <-]. by exists uid.
Qed.

(** X4: a handshake that fails, for whatever reason (a first message that
    is not a JSON object, a missing uid or model, a full registry, an
    unknown model, a model that does not load), leaves the registry as it
    was; [recv_audio] then returns without reading a frame. *)
Theorem failed_handshake_changes_nothing (ws : positive)
    (handshake : option Options) (model_path : option string) (now : Q)
    (inputs : list (Q * option (list Q))) (m : ClientManager) :
  let r :=
    handle_new_connection path_exists model_loads ws handshake model_path
      now m in
  r.1.1 = false ->
  r.1.2 = m /\
  recv_audio path_exists model_loads ws handshake model_path now inputs m
    = (Returned, m, r.2).
Proof using Type.
  cbv zeta. unfold recv_audio.
  destruct (handle_new_connection _ _ _ _ _ _ _) as [[ok m'] sent] eqn:Hh.
  cbn [fst snd]. intros ->. unfold handle_new_connection in Hh.
  destruct handshake as [options|]; [|by injection Hh as <- <-].
  destruct (max_clients m <=? Z.of_nat (size (clients m)))%Z.
  - destruct (opt_uid options); by injection Hh as <- <-.
  - destruct (initialize_client _ _ _ _ _ _ _) as [sent' [m1|]];
      [done | by injection Hh as <- <-].
Qed.

(** X5: when the registry is full a client that gave its uid is answered
    WAIT with the estimate and its websocket is closed; nothing is
    registered and no frame is read. *)
Theorem handshake_rejects_when_full (ws : positive) (uid : string)
    (model : option string) (model_path : option string) (now : Q)
    (inputs : list (Q * option (list Q))) (m : ClientManager) :
  (max_clients m <= Z.of_nat (size (clients m)))%Z ->
  recv_audio path_exists model_loads ws
    (Some {| opt_uid := Some uid; opt_model := model |}) model_path now
    inputs m
  = (Returned, m,
     [Did (Sent ws (MsgWait uid (get_wait_time now m))); Did (Closed ws)]).
Proof using Type.
  intros Hfull. unfold recv_audio, handle_new_connection, is_server_full.
  apply Z.leb_le in Hfull. rewrite Hfull. done.
Qed.

(** X6: with room in the registry, a handshake naming a model that is an
    existing path or one of the known sizes, and that loads, registers a
    fresh session under the websocket with the handshake clock as its start
    time and answers SERVER_READY. *)
Theorem handshake_admits (ws : positive) (uid model : string) (now : Q)
    (m : ClientManager) :
  (Z.of_nat (size (clients m)) < max_clients m)%Z ->
  path_exists model = true \/ model ∈ model_sizes ->
  model_loads (if path_exists model then model
               else ("./model/" +:+ model)%string) = true ->
  exists m',
    handle_new_connection path_exists model_loads ws
      (Some {| opt_uid := Some uid; opt_model := Some model |}) None now m
    = (true, m', [Told ws (MsgServerReady uid "faster_whisper")]) /\
    get_client ws m' = Some (new_client uid ws) /\
    start_times m' !! ws = Some now /\
    forall ws', ws' ≠ ws ->
      get_client ws' m' = get_client ws' m /\
      start_times m' !! ws' = start_times m !! ws'.
Proof using Type.
  intros Hroom Hmodel Hloads.
  exists (add_client ws (new_client uid ws) now m).
  split.
  - unfold handle_new_connection, initialize_client, init_client,
      check_valid_model. cbn [opt_uid opt_model].
    apply Z.leb_gt in Hroom. rewrite Hroom.
    destruct (path_exists model) eqn:He; cbn [negb].
    + by rewrite Hloads.
    + destruct Hmodel as [|Hin]; [done|].
      rewrite bool_decide_eq_true_2 by done. cbn. by rewrite Hloads.
  - unfold get_client. cbn [add_client clients start_times].
    rewrite !lookup_insert_eq. split; [done|]. split; [done|].
    intros ws' Hne. by rewrite !lookup_insert_ne.
Qed.

(** X7: a model name that is neither an existing path nor a known size is
    answered with the ERROR message naming it; no session is registered and
    the websocket is not closed by the handshake. *)
Theorem handshake_rejects_unknown_model (ws : positive) (uid model : string)
    (now : Q) (inputs : list (Q * option (list Q))) (m : ClientManager) :
  (Z.of_nat (size (clients m)) < max_clients m)%Z ->
  path_exists model = false ->
  model ∉ model_sizes ->
  recv_audio path_exists model_loads ws
    (Some {| opt_uid := Some uid; opt_model := Some model |}) None now
    inputs m
  = (Returned, m, [Told ws (MsgError uid (invalid_model_text model))]).
Proof using Type.
  intros Hroom He Hnot.
  unfold recv_audio, handle_new_connection, initialize_client, init_client,
    check_valid_model. cbn [opt_uid opt_model].
  apply Z.leb_gt in Hroom. rewrite Hroom, He. cbn [negb].
  by rewrite bool_decide_eq_false_2.
Qed.
End HandshakeProperties.

Lemma failed_handshake_changes_nothing_witness :
  recv_audio (fun _ => false) (fun _ => false) 1
    (Some {| opt_uid := Some "u1"%string; opt_model := Some "base.en"%string |})
    None 7 [(8, Some [0])] new_manager
  = (Returned, new_manager, []).
Proof.
  exact (proj2 (failed_handshake_changes_nothing (fun _ => false)
                  (fun _ => false) 1
                  (Some {| opt_uid := Some "u1"%string;
                           opt_model := Some "base.en"%string |})
                  None 7 [(8, Some [0])] new_manager eq_refl)).
Defined.

Lemma handshake_rejects_when_full_witness :
  recv_audio (fun _ => false) (fun _ => true) 5
    (Some {| opt_uid := Some "u5"%string; opt_model := None |}) None 40
    [(41, Some [0])] full_manager
  = (Returned, full_manager,
     [Did (Sent 5 (MsgWait "u5" (get_wait_time 40 full_manager)));
      Did (Closed 5)]).
Proof.
  apply handshake_rejects_when_full. by vm_compute.
Defined.

Lemma handshake_admits_witness :
  exists m',
    handle_new_connection (fun _ => false) (fun _ => true) 1
      (Some {| opt_uid := Some "u1"%string; opt_model := Some "base.en"%string |})
      None 7 new_manager
    = (true, m', [Told 1 (MsgServerReady "u1" "faster_whisper")]) /\
    get_client 1 m' = Some (new_client "u1" 1) /\
    start_times m' !! 1%positive = Some 7 /\
    forall ws', ws' ≠ 1%positive ->
      get_client ws' m' = get_client ws' new_manager /\
      start_times m' !! ws' = start_times new_manager !! ws'.
Proof.
  apply (handshake_admits (fun _ => false) (fun _ => true) 1 "u1" "base.en"
           7 new_manager).
  - by vm_compute.
  - right. apply (bool_decide_unpack _). by vm_compute.
  - reflexivity.
Defined.

Lemma handshake_rejects_unknown_model_witness :
  recv_audio (fun _ => false) (fun _ => true) 1
    (Some {| opt_uid := Some "u1"%string; opt_model := Some "large"%string |})
    None 7 [] new_manager
  = (Returned, new_manager,
     [Told 1 (MsgError "u1" (invalid_model_text "large"))]).
Proof.
  apply handshake_rejects_unknown_model.
  - by vm_compute.
  - reflexivity.
  - apply (bool_decide_unpack _). by vm_compute.
Defined.

(* ------------------------------------------------------------------ *)
(** *** The frame loop of a connection                                  *)

Lemma recv_audio_finally_others (ws : positive) (m : ClientManager) :
  get_client ws (recv_audio_finally ws m).1 = None /\
  (tables_agree m -> start_times (recv_audio_finally ws m).1 !! ws = None) /\
  forall ws', ws' ≠ ws ->
    get_client ws' (recv_audio_finally ws m).1 = get_client ws' m /\
    start_times (recv_audio_finally ws m).1 !! ws' = start_times m !! ws'.
Proof.
  unfold recv_audio_finally, get_client.
  destruct (clients m !! ws) as [c|] eqn:Hc;
    cbn [fst remove_client clients start_times].
  - split; [apply lookup_delete_eq|]. split; [intros; apply lookup_delete_eq|].
    intros ws' Hne. by rewrite !lookup_delete_ne.
  - split; [done|]. split; [|done].
    intros H. destruct (start_times m !! ws) eqn:Ht; [|done].
    destruct (proj2 (H ws)) as [c Hc']; [by rewrite Ht | congruence].
Qed.

Lemma process_audio_frames_others (ws : positive)
    (frame : option (list Q)) (m m1 : ClientManager) (b : bool) :
  process_audio_frames ws frame m = Ok (b, m1) ->
  start_times m1 = start_times m /\
  forall ws', ws' ≠ ws -> get_client ws' m1 = get_client ws' m.
Proof.
  unfold process_audio_frames, get_client.
  destruct frame as [f|]; [|by intros [= <- <-]].
  destruct (clients m !! ws) as [c|]; [|done].
  destruct (add_frames f c) as [c'|]; [|done]. cbn.
  intros [= <- <-]. cbn [clients start_times]. split; [done|].
  intros ws' Hne. by rewrite lookup_insert_ne.
Qed.

(** The sessions after the frame loop. *)
Lemma recv_audio_loop_sessions (ws : positive)
    (inputs : list (Q * option (list Q))) (m : ClientManager) :
  tables_agree m ->
  let r := recv_audio_loop ws inputs m in
  (r.1.1 = Returned ->
     get_client ws r.1.2 = None /\ start_times r.1.2 !! ws = None) /\
  forall ws', ws' ≠ ws ->
    get_client ws' r.1.2 = get_client ws' m /\
    start_times r.1.2 !! ws' = start_times m !! ws'.
Proof.
  cbv zeta. revert m.
  induction inputs as [|[now frame] rest IH]; intros m H.
  { cbn. split; [done|]. by intros. }
  cbn [recv_audio_loop].
  destruct (recv_audio_finally_others ws m) as (F1 & F2 & F3).
  destruct (is_client_timeout ws now m) as [[[] sent]|e].
  - destruct (recv_audio_finally ws m) as [m' evs]. cbn [fst snd] in *.
    split; [by auto|done].
  - destruct (process_audio_frames ws frame m) as [[[] m1]|e] eqn:Hp.
    + destruct (process_audio_frames_others _ _ _ _ _ Hp) as [P1 P2].
      destruct (IH m1 (tables_agree_frames _ _ _ _ _ H Hp)) as [I1 I2].
      destruct (recv_audio_loop ws rest m1) as [[st m'] evs].
      cbn [fst snd] in *. split; [done|].
      intros ws' Hne. destruct (I2 ws' Hne) as [-> ->].
      by rewrite P1, P2.
    + destruct (process_audio_frames_others _ _ _ _ _ Hp) as [P1 P2].
      destruct (recv_audio_finally_others ws m1) as (G1 & G2 & G3).
      pose proof (tables_agree_frames _ _ _ _ _ H Hp) as H1.
      destruct (recv_audio_finally ws m1) as [m' evs]. cbn [fst snd] in *.
      split; [by auto|].
      intros ws' Hne. destruct (G3 ws' Hne) as [-> ->].
      by rewrite P1, P2.
    + destruct (recv_audio_finally ws m) as [m' evs]. cbn [fst snd] in *.
      split; [by auto|done].
  - destruct (recv_audio_finally ws m) as [m' evs]. cbn [fst snd] in *.
    split; [by auto|done].
Qed.

(** X8: whenever the frame loop of a connection returns, for whatever
    reason, its websocket is no longer registered; and the loop never
    touches the sessions and start times of other websockets. *)
Theorem recv_audio_loop_unregisters (ws : positive)
    (inputs : list (Q * option (list Q))) (m : ClientManager) :
  tables_agree m ->
  let r := recv_audio_loop ws inputs m in
  (r.1.1 = Returned ->
     get_client ws r.1.2 = None /\ start_times r.1.2 !! ws = None) /\
  forall ws', ws' ≠ ws ->
    get_client ws' r.1.2 = get_client ws' m /\
    start_times r.1.2 !! ws' = start_times m !! ws'.
Proof. apply recv_audio_loop_sessions. Qed.

Lemma recv_audio_loop_unregisters_witness :
  get_client 1 (recv_audio_loop 1 [(5, Some [0]); (6, None)] full_manager).1.2
    = None /\
  get_client 2 (recv_audio_loop 1 [(5, Some [0]); (6, None)] full_manager).1.2
    = get_client 2 full_manager.
Proof.
  destruct (recv_audio_loop_unregisters 1 [(5, Some [0]); (6, None)]
              full_manager) as [H1 H2].
  - repeat apply tables_agree_add. apply tables_agree_new.
  - split; [apply H1; by vm_compute | apply H2; discriminate].
Defined.

(** X9: the frame END_OF_AUDIO received within the lifetime ends the
    connection: the session is removed and the websocket closed, and no
    DISCONNECT is sent. *)
Theorem end_of_audio_ends_session (ws : positive) (m : ClientManager)
    (c : ServeClient) (t0 now : Q) (rest : list (Q * option (list Q))) :
  clients m !! ws = Some c ->
  start_times m !! ws = Some t0 ->
  now - t0 < max_connection_time m ->
  recv_audio_loop ws ((now, None) :: rest) m
  = (Returned, (remove_client ws m).1, [Closed ws]).
Proof.
  intros Hc Ht Hlt. cbn [recv_audio_loop].
  rewrite (is_client_timeout_known _ _ _ _ _ Hc Ht).
  apply Qle_bool_gt in Hlt. rewrite Hlt.
  unfold process_audio_frames, recv_audio_finally, get_client.
  by rewrite Hc.
Qed.

Lemma end_of_audio_ends_session_witness :
  recv_audio_loop 1 [(9, None); (10, Some [0])] full_manager
  = (Returned, (remove_client 1 full_manager).1, [Closed 1]).
Proof.
  apply (end_of_audio_ends_session 1 full_manager (new_client "u1" 1) 0).
  - by vm_compute.
  - by vm_compute.
  - by vm_compute.
Defined.

(** X10: [add_frames] raises exactly when the window exists and is empty,
    and then it raises [IndexError]; so after an empty first frame every
    later frame raises, and the frame loop drops the session on the next
    frame. *)
Theorem empty_window_fails_append (ws : positive) (m : ClientManager)
    (c : ServeClient) (t0 now : Q) (frame : list Q)
    (rest : list (Q * option (list Q))) :
  ((exists e, add_frames frame c = Raise e) <-> frames_np c = Some []) /\
  (frames_np c = Some [] -> add_frames frame c = Raise IndexError) /\
  (frames_np c = None ->
     add_frames [] c = Ok (set_frames_np (Some []) c)) /\
  (clients m !! ws = Some c -> start_times m !! ws = Some t0 ->
   now - t0 < max_connection_time m -> frames_np c = Some [] ->
   recv_audio_loop ws ((now, Some frame) :: rest) m
   = (Returned, (remove_client ws m).1, [Closed ws])).
Proof.
  assert (Herr : frames_np c = Some [] -> add_frames frame c = Raise IndexError).
  { intros Hb. unfold add_frames. by rewrite Hb. }
  split; [|split; [done|split]].
  - split; [|by eauto]. intros [e He]. unfold add_frames in He.
    destruct (frames_np c) as [[|x0 l]|] eqn:Hb; [done| |].
    + destruct (Qltb _ x0); cbn in He.
      * by destruct (Qltb _ _).
      * by rewrite Hb in He.
    + cbn in He. by rewrite Hb in He.
  - intros Hb. unfold add_frames. rewrite Hb. cbn. by rewrite Hb.
  - intros Hc Ht Hlt Hb. cbn [recv_audio_loop].
    rewrite (is_client_timeout_known _ _ _ _ _ Hc Ht).
    apply Qle_bool_gt in Hlt. rewrite Hlt.
    unfold process_audio_frames, get_client. rewrite Hc, (Herr Hb). cbn.
    unfold recv_audio_finally, get_client. by rewrite Hc.
Qed.

Lemma empty_window_fails_append_witness :
  add_frames [0] (set_frames_np (Some []) (new_client "u1" 1))
  = Raise IndexError.
Proof.
  apply (proj1 (proj2 (empty_window_fails_append 1 full_manager
           (set_frames_np (Some []) (new_client "u1" 1)) 0 1 [0] []))).
  reflexivity.
Defined.

(* ================================================================== *)
(** ** Further properties of the audio window                           *)
(* ================================================================== *)

Lemma py_max_0_nonneg (x : Q) : 0 <= py_max 0 x.
Proof.
  unfold py_max. destruct (Qltb 0 x) eqn:E; [|lra].
  apply Qltb_lt in E. lra.
Qed.

Lemma py_int_max_0 (x : Q) : 0 <= x -> py_int (py_max 0 x) = py_int x.
Proof.
  intros Hx. rewrite !py_int_floor by (done || apply py_max_0_nonneg).
  apply Qfloor_comp. unfold py_max. destruct (Qltb 0 x) eqn:E; [done|].
  apply Qltb_ge in E. lra.
Qed.

Lemma duration_of_samples (l : list Q) :
  0 <= get_audio_chunk_duration l /\
  get_audio_chunk_duration l * inject_Z RATE == inject_Z (len l).
Proof.
  unfold get_audio_chunk_duration. split.
  - apply Qle_shift_div_l; [by vm_compute|].
    rewrite Qmult_0_l. change 0 with (inject_Z 0).
    rewrite <- Zle_Qle. unfold len. lia.
  - field. by vm_compute.
Qed.

(** The chunk handed to the model, as a part of the window. *)
Lemma chunk_suffix (c : ServeClient) (buf : list Q) :
  frames_np c = Some buf ->
  exists chunk,
    get_audio_chunk_for_processing c
      = Ok (chunk, get_audio_chunk_duration chunk) /\
    chunk `suffix_of` buf /\
    0 <= get_audio_chunk_duration chunk /\
    get_audio_chunk_duration chunk * inject_Z RATE == inject_Z (len chunk) /\
    (timestamp_offset c <= frames_offset c -> chunk = buf).
Proof.
  intros Hb. unfold get_audio_chunk_for_processing. rewrite Hb.
  set (x := fmul (fsub (timestamp_offset c) (frames_offset c))
                 (inject_Z RATE)).
  pose proof (py_int_nonneg _ (py_max_0_nonneg x)) as Hk.
  unfold py_slice_from. apply Z.leb_le in Hk as Hk'. rewrite Hk'.
  eexists. split; [reflexivity|]. split; [apply suffix_drop|].
  destruct (duration_of_samples (drop (Z.to_nat (py_int (py_max 0 x))) buf))
    as [H0 Hd].
  split; [done|]. split; [done|].
  intros Hle.
  assert (Hx : x <= 0).
  { unfold x. apply fmul_RATE_nonpos. by apply fsub_nonpos. }
  unfold py_max. apply Qltb_ge in Hx. by rewrite Hx.
Qed.

(** X11: the chunk handed to the model is always a suffix of the window,
    its duration is its number of samples over the rate, and a cursor at or
    before the buffer origin gives the whole window. *)
Theorem chunk_is_window_suffix (c : ServeClient) (buf : list Q) :
  frames_np c = Some buf ->
  exists chunk,
    get_audio_chunk_for_processing c
      = Ok (chunk, get_audio_chunk_duration chunk) /\
    chunk `suffix_of` buf /\
    0 <= get_audio_chunk_duration chunk /\
    get_audio_chunk_duration chunk * inject_Z RATE == inject_Z (len chunk) /\
    (timestamp_offset c <= frames_offset c -> chunk = buf).
Proof. apply chunk_suffix. Qed.

Lemma chunk_is_window_suffix_witness :
  exists chunk,
    get_audio_chunk_for_processing
      (set_frames_np (Some [1; 2; 3]) (new_client "u1" 1))
      = Ok (chunk, get_audio_chunk_duration chunk) /\
    chunk = [1; 2; 3].
Proof.
  destruct (chunk_is_window_suffix
              (set_frames_np (Some [1; 2; 3]) (new_client "u1" 1))
              [1; 2; 3] eq_refl) as (chunk & H1 & _ & _ & _ & H5).
  exists chunk. split; [exact H1|]. apply H5. by vm_compute.
Defined.

(** With the cursor not before the buffer origin the chunk starts at the
    cursor, converted to samples as line 394 converts it. *)
Lemma chunk_at_cursor (c : ServeClient) (buf : list Q) :
  frames_np c = Some buf ->
  frames_offset c <= timestamp_offset c ->
  get_audio_chunk_for_processing c
  = Ok (drop (Z.to_nat (cursor_samples c)) buf,
        get_audio_chunk_duration (drop (Z.to_nat (cursor_samples c)) buf)).
Proof.
  intros Hb Hinv. unfold get_audio_chunk_for_processing. rewrite Hb.
  assert (Hx : 0 <= fmul (fsub (timestamp_offset c) (frames_offset c))
                         (inject_Z RATE)).
  { apply fmul_RATE_nonneg. by apply fsub_nonneg. }
  rewrite (py_int_max_0 _ Hx). fold (cursor_samples c).
  pose proof (cursor_samples_nonneg c Hinv) as Hk.
  unfold py_slice_from. apply Z.leb_le in Hk as ->. done.
Qed.

Lemma len_drop {A} (k : Z) (l : list A) :
  (0 <= k)%Z -> len (drop (Z.to_nat k) l) = Z.max 0 (len l - k).
Proof. intros Hk. unfold len. rewrite length_drop. lia. Qed.

Lemma set_timestamp_offset_same (c : ServeClient) :
  set_timestamp_offset (timestamp_offset c) c = c.
Proof. by destruct c. Qed.

(** Where stall clipping leaves the cursor. *)
Lemma clip_cursor_bounds (c : ServeClient) (buf : list Q) :
  window_ok c buf ->
  exists c',
    clip_audio_if_no_valid_segment c = Ok c' /\
    c' = set_timestamp_offset (timestamp_offset c') c /\
    timestamp_offset c <= timestamp_offset c' /\
    frames_offset c' <= timestamp_offset c' /\
    timestamp_offset c' <= 2147483648 /\
    ((25 * RATE < unprocessed_samples c buf)%Z ->
       timestamp_offset c'
       = fsub (fadd (frames_offset c) (inject_Z (len buf) / inject_Z RATE))
              5 /\
       timestamp_offset c + 19 <= timestamp_offset c' /\
       frames_offset c + inject_Z (len buf) * (1 # 16000) - 5 - (1 # 131072)
         <= timestamp_offset c' /\
       timestamp_offset c'
         <= frames_offset c + inject_Z (len buf) * (1 # 16000) - 5
            + (1 # 131072)) /\
    ((unprocessed_samples c buf <= 25 * RATE)%Z -> c' = c).
Proof.
  intros (Hb & F0 & Hinv & T1 & N1).
  unfold clip_audio_if_no_valid_segment, unprocessed_samples.
  rewrite Hb. fold (cursor_samples c). rewrite inject_Z_horizon in T1.
  destruct (cursor_samples_bounds c F0 Hinv ltac:(lra)) as (Hk & K1 & K2).
  rewrite (len_py_slice_from_nonneg _ _ Hk).
  destruct (25 * RATE <? Z.max 0 (len buf - cursor_samples c))%Z eqn:E.
  - apply Z.ltb_lt in E.
    assert (Hn : (cursor_samples c + 1 <= len buf - 400000)%Z)
      by (unfold RATE in E; lia).
    rewrite Zle_Qle, inject_Z_plus, inject_Z_sub in Hn.
    change (inject_Z 1) with 1 in Hn.
    change (inject_Z 400000) with 400000 in Hn.
    assert (N0 : (0 <= len buf)%Z) by (unfold len; lia).
    destruct (clip_cursor_near (frames_offset c) (len buf))
      as [C1 C2]; [lra | lra | done | done |].
    destruct (window_seconds (len buf) N0 N1) as (_ & D1 & Ed).
    rewrite Ed in D1. clear Ed.
    eexists. split; [reflexivity|].
    cbn [timestamp_offset frames_offset set_timestamp_offset].
    split; [reflexivity|].
    revert Hn K1 K2 C1 C2 D1.
    generalize (fsub (fadd (frames_offset c)
                       (inject_Z (len buf) / inject_Z RATE)) 5).
    generalize (inject_Z (len buf)) (inject_Z (cursor_samples c)).
    intros n k ts' Hn K1 K2 C1 C2 D1.
    split; [lra|]. split; [lra|]. split; [lra|].
    split; [|intros; unfold RATE in *; lia]. intros _. repeat split; lra.
  - apply Z.ltb_ge in E. exists c. split; [done|].
    split; [by rewrite set_timestamp_offset_same|].
    split; [lra|]. split; [lra|]. split; [lra|].
    split; [intros; unfold RATE in *; lia | done].
Qed.

(** X12: stall clipping changes nothing but the cursor, never moves it
    backwards and keeps it at or after the buffer origin; when it fires, the
    cursor moves forward by more than 19 seconds. *)
Theorem clip_moves_cursor_forward (c : ServeClient) (buf : list Q) :
  window_ok c buf ->
  exists c',
    clip_audio_if_no_valid_segment c = Ok c' /\
    c' = set_timestamp_offset (timestamp_offset c') c /\
    timestamp_offset c <= timestamp_offset c' /\
    frames_offset c' <= timestamp_offset c' /\
    ((25 * RATE < unprocessed_samples c buf)%Z ->
       timestamp_offset c + 19 <= timestamp_offset c').
Proof.
  intros H.
  destruct (clip_cursor_bounds c buf H) as (c' & H1 & H2 & H3 & H4 & _ & H6 & _).
  exists c'. do 4 (split; [done|]). intros Hf. by destruct (H6 Hf) as (_ & ? & _).
Qed.

Lemma fresh_window_ok (n : Z) :
  (0 <= n)%Z -> (n <= horizon * RATE)%Z ->
  window_ok (set_frames_np (Some (samples n)) (new_client "u1" 1)) (samples n).
Proof.
  intros H0 H1. split; [reflexivity|].
  cbn [frames_offset timestamp_offset set_frames_np new_client].
  rewrite (len_samples n H0). repeat split; (lra || done || by vm_compute).
Qed.

Lemma fresh_window_unprocessed (n : Z) :
  (0 <= n)%Z ->
  unprocessed_samples (set_frames_np (Some (samples n)) (new_client "u1" 1))
    (samples n) = n.
Proof.
  intros H0. unfold unprocessed_samples, cursor_samples.
  cbn [frames_offset timestamp_offset set_frames_np new_client].
  rewrite (len_samples n H0).
  change (py_int (fmul (fsub 0 0) (inject_Z RATE))) with 0%Z. lia.
Qed.

Lemma clip_moves_cursor_forward_witness :
  exists c',
    clip_audio_if_no_valid_segment
      (set_frames_np (Some (samples 512002)) (new_client "u1" 1)) = Ok c' /\
    0 + 19 <= timestamp_offset c' /\
    frames_offset c' <= timestamp_offset c'.
Proof.
  destruct (clip_moves_cursor_forward
              (set_frames_np (Some (samples 512002)) (new_client "u1" 1))
              (samples 512002))
    as (c' & H1 & _ & _ & H4 & H5).
  - apply fresh_window_ok; [lia | vm_compute; discriminate].
  - exists c'. split; [exact H1|]. split; [|exact H4].
    apply H5. rewrite fresh_window_unprocessed by lia. reflexivity.
Defined.

(** The chunk that follows a clip. *)
Lemma clipped_chunk (c : ServeClient) (buf : list Q) :
  window_ok c buf ->
  (25 * RATE < unprocessed_samples c buf)%Z ->
  exists c' chunk,
    clip_audio_if_no_valid_segment c = Ok c' /\
    c' = set_timestamp_offset
           (fsub (fadd (frames_offset c)
                    (inject_Z (len buf) / inject_Z RATE)) 5) c /\
    get_audio_chunk_for_processing c'
      = Ok (chunk, get_audio_chunk_duration chunk) /\
    chunk = drop (Z.to_nat (cursor_samples c')) buf /\
    (len chunk = 5 * RATE \/ len chunk = 5 * RATE + 1)%Z.
Proof.
  intros Hw Hst.
  destruct (clip_cursor_bounds c buf Hw)
    as (c' & H1 & H2 & H3 & H4 & H5 & H6 & _).
  destruct (H6 Hst) as (E & _ & C1 & C2).
  destruct Hw as (Hb & F0 & Hinv & T1 & N1).
  assert (Hb' : frames_np c' = Some buf) by (by rewrite H2).
  assert (Hf' : frames_offset c' = frames_offset c) by (by rewrite H2).
  exists c', (drop (Z.to_nat (cursor_samples c')) buf).
  split; [done|]. split; [by rewrite <- E|].
  split; [by apply chunk_at_cursor|]. split; [done|].
  destruct (cursor_samples_bounds c') as (Hk & K1 & K2);
    [by rewrite Hf' | done | lra |].
  rewrite (len_drop _ _ Hk). rewrite Hf' in K1, K2.
  unfold unprocessed_samples in Hst.
  pose proof (cursor_samples_nonneg c Hinv) as Hk0.
  assert (Hn : (25 * RATE < len buf)%Z) by lia.
  assert (Hlo : (len buf - 80002 < cursor_samples c')%Z).
  { rewrite Zlt_Qlt, inject_Z_sub. change (inject_Z 80002) with 80002.
    revert K1 C1. generalize (inject_Z (len buf))
      (inject_Z (cursor_samples c')) (timestamp_offset c') (frames_offset c).
    intros; lra. }
  assert (Hhi : (cursor_samples c' < len buf - 79999)%Z).
  { rewrite Zlt_Qlt, inject_Z_sub. change (inject_Z 79999) with 79999.
    revert K2 C2. generalize (inject_Z (len buf))
      (inject_Z (cursor_samples c')) (timestamp_offset c') (frames_offset c).
    intros; lra. }
  unfold RATE in *. lia.
Qed.

(** X13: after stall clipping has fired, the next chunk is the last five
    seconds of the window, or one sample more when the binary64 product
    that places the cursor falls just short of a whole number of samples. *)
Theorem clipped_chunk_is_last_five_seconds (c : ServeClient)
    (buf : list Q) :
  window_ok c buf ->
  (25 * RATE < unprocessed_samples c buf)%Z ->
  exists c' chunk,
    clip_audio_if_no_valid_segment c = Ok c' /\
    c' = set_timestamp_offset
           (fsub (fadd (frames_offset c)
                    (inject_Z (len buf) / inject_Z RATE)) 5) c /\
    get_audio_chunk_for_processing c'
      = Ok (chunk, get_audio_chunk_duration chunk) /\
    chunk = drop (Z.to_nat (cursor_samples c')) buf /\
    (len chunk = 5 * RATE \/ len chunk = 5 * RATE + 1)%Z.
Proof. apply clipped_chunk. Qed.

Lemma clipped_chunk_is_last_five_seconds_witness :
  exists c' chunk,
    clip_audio_if_no_valid_segment
      (set_frames_np (Some (samples 512002)) (new_client "u1" 1)) = Ok c' /\
    get_audio_chunk_for_processing c'
      = Ok (chunk, get_audio_chunk_duration chunk) /\
    chunk = drop (Z.to_nat 432001) (samples 512002) /\
    len chunk = (5 * RATE + 1)%Z.
Proof.
  assert (Hl : len (samples 512002) = 512002%Z) by (by apply len_samples).
  destruct (clipped_chunk_is_last_five_seconds
              (set_frames_np (Some (samples 512002)) (new_client "u1" 1))
              (samples 512002))
    as (c' & chunk & H1 & H2 & H3 & H4 & _).
  - apply fresh_window_ok; [lia | vm_compute; discriminate].
  - rewrite fresh_window_unprocessed by lia. reflexivity.
  - exists c', chunk. split; [exact H1|]. split; [exact H3|].
    assert (Hk : cursor_samples c' = 432001%Z).
    { rewrite H2. unfold cursor_samples.
      cbn [frames_offset timestamp_offset set_frames_np set_timestamp_offset
           new_client].
      rewrite Hl. vm_compute. reflexivity. }
    rewrite Hk in H4. split; [exact H4|].
    rewrite H4, len_drop by done. rewrite Hl. reflexivity.
Defined.

(* ================================================================== *)
(** ** Further properties of the stabilizer and of the output           *)
(* ================================================================== *)

Lemma update_segments_result (segments : list Segment) (d : Q)
    (c : ServeClient) :
  match last segments with
  | None => update_segments segments d c = Raise IndexError
  | Some sl =>
      update_segments segments d c
      = Ok (stabilized d (removelast segments) sl c,
            if stable c sl then None else tentative_segment d c sl)
  end.
Proof.
  destruct (last segments) as [sl|] eqn:Hl.
  - by apply update_segments_last.
  - apply last_None in Hl. by rewrite Hl.
Qed.

(** What [update_segments] leaves alone. *)
Lemma stabilized_frame (d : Q) (complete : list Segment) (sl : Segment)
    (c : ServeClient) :
  let c' := stabilized d complete sl c in
  frames_np c' = frames_np c /\ frames_offset c' = frames_offset c /\
  t_start c' = t_start c /\ exit c' = exit c /\
  client_uid c' = client_uid c /\ websocket c' = websocket c /\
  send_last_n_segments c' = send_last_n_segments c /\
  no_speech_thresh c' = no_speech_thresh c /\
  show_prev_out_thresh c' = show_prev_out_thresh c /\
  add_pause_thresh c' = add_pause_thresh c.
Proof. cbv zeta. unfold stabilized. read_fields. repeat split. Qed.

(** X14: [update_segments] raises, with [IndexError], exactly on an empty
    list of segments; otherwise it only appends to the transcript and to the
    text history, and leaves the audio window, the buffer origin and the
    thresholds untouched. *)
Theorem update_segments_appends (segments : list Segment) (d : Q)
    (c : ServeClient) :
  (segments = [] -> update_segments segments d c = Raise IndexError) /\
  (segments ≠ [] ->
     exists c' r,
       update_segments segments d c = Ok (c', r) /\
       transcript c `prefix_of` transcript c' /\
       text c `prefix_of` text c' /\
       frames_np c' = frames_np c /\ frames_offset c' = frames_offset c /\
       no_speech_thresh c' = no_speech_thresh c /\
       send_last_n_segments c' = send_last_n_segments c).
Proof.
  split; [by intros ->|]. intros Hne.
  destruct (segments_snoc _ Hne) as (sl & Hl & _).
  rewrite (update_segments_last _ _ _ _ Hl). eexists _, _.
  split; [reflexivity|].
  destruct (stabilized_frame d (removelast segments) sl c)
    as (? & ? & _ & _ & _ & _ & ? & ? & _).
  unfold stabilized in *. read_fields.
  split; [by eexists|]. split; [by eexists|]. done.
Qed.

Lemma update_segments_appends_witness :
  exists c' r,
    update_segments scenario_segments 2 (new_client "u1" 1) = Ok (c', r) /\
    transcript (new_client "u1" 1) `prefix_of` transcript c' /\
    text (new_client "u1" 1) `prefix_of` text c' /\
    frames_np c' = frames_np (new_client "u1" 1) /\
    frames_offset c' = frames_offset (new_client "u1" 1) /\
    no_speech_thresh c' = no_speech_thresh (new_client "u1" 1) /\
    send_last_n_segments c' = send_last_n_segments (new_client "u1" 1).
Proof.
  apply (proj2 (update_segments_appends scenario_segments 2
                  (new_client "u1" 1))).
  discriminate.
Defined.

(** How far one call moves the cursor. *)
Lemma update_segments_cursor (segments : list Segment) (d : Q)
    (c c' : ServeClient) (r : option Entry) :
  0 <= d ->
  Forall (fun s => 0 <= seg_start s) segments ->
  update_segments segments d c = Ok (c', r) ->
  timestamp_offset c <= timestamp_offset c' /\
  timestamp_offset c' <= timestamp_offset c + d.
Proof.
  intros Hd Hpos Hu.
  pose proof (update_segments_result segments d c) as Hr.
  destruct (last segments) as [sl|] eqn:Hl; [|congruence].
  rewrite Hr in Hu. injection Hu as <- _.
  unfold stabilized, offset_advance. read_fields.
  destruct (stable c sl); [lra|].
  destruct (last (kept d (removelast segments) c)) as [z|] eqn:Hz; [|lra].
  apply last_Some_elem_of, elem_of_kept in Hz as (Hin & Hlt & _).
  assert (H0 : 0 <= seg_start z).
  { rewrite Forall_forall in Hpos. apply Hpos.
    assert (Hne : segments ≠ []) by (by intros ->).
    destruct (segments_snoc _ Hne) as (sl' & _ & Hs).
    rewrite Hs. apply elem_of_app. by left. }
  pose proof (py_min_le_l d (seg_end z)). lra.
Qed.

(** X15: for a non-negative duration and segments that do not start before
    the chunk, a call moves the cursor forward by at most the duration. *)
Theorem cursor_advance_bounded (segments : list Segment) (d : Q)
    (c c' : ServeClient) (r : option Entry) :
  0 <= d ->
  Forall (fun s => 0 <= seg_start s) segments ->
  update_segments segments d c = Ok (c', r) ->
  timestamp_offset c <= timestamp_offset c' /\
  timestamp_offset c' <= timestamp_offset c + d.
Proof. apply update_segments_cursor. Qed.

Lemma cursor_advance_bounded_witness :
  exists c' r,
    update_segments scenario_segments 2 (new_client "u1" 1) = Ok (c', r) /\
    0 <= timestamp_offset c' /\ timestamp_offset c' <= 0 + 2.
Proof.
  eexists _, _. split; [vm_compute; reflexivity|].
  refine (cursor_advance_bounded scenario_segments 2 (new_client "u1" 1)
            _ _ _ _ _).
  - by vm_compute.
  - unfold scenario_segments. repeat constructor; by vm_compute.
  - vm_compute. reflexivity.
Defined.

Lemma repeated_poll_commits_nothing (sl : Segment) (d : Q) (c : ServeClient)
    (t : string) :
  last (text c) = Some t ->
  lower (strip t) = lower (strip (seg_text sl)) ->
  exists c' r,
    update_segments [sl] d c = Ok (c', r) /\
    transcript c' = transcript c /\ text c' = text c /\
    no_speech_thresh c' = no_speech_thresh c.
Proof.
  intros Hl Ht. rewrite (update_segments_last [sl] sl d c eq_refl).
  eexists _, _. split; [reflexivity|].
  unfold stabilized, stability_entry, kept. read_fields.
  cbn [removelast List.filter map]. rewrite !app_nil_r.
  assert (Hs : stable c sl
               && is_new_text (text c) (tentative_text c sl) = false).
  { unfold stable, tentative_text, repeat_count, is_new_text.
    destruct (Qle_bool _ _).
    - rewrite Hl, Ht, String.eqb_refl. cbn [negb].
      assert (E : (len (text c) =? 0)%Z = false).
      { apply Z.eqb_neq. unfold len. destruct (text c); [done|].
        cbn [length]. lia. }
      rewrite E. apply andb_false_r.
    - cbn [String.eqb negb]. by rewrite andb_false_r. }
  rewrite Hs. cbn [map]. by rewrite !app_nil_r.
Qed.

(** X16: a tentative text equal, trimmed and case-insensitively, to the
    last entry of the text history is not committed again, however often
    the poll is repeated. *)
Theorem stable_text_committed_once (sl : Segment) (d : Q) (n : nat)
    (c : ServeClient) (t : string) :
  last (text c) = Some t ->
  lower (strip t) = lower (strip (seg_text sl)) ->
  exists c' rs,
    run_polls (repeat ([sl], d) n) c = Ok (c', rs) /\
    transcript c' = transcript c /\ text c' = text c.
Proof.
  intros Hl Ht. revert c Hl. induction n as [|n IH]; intros c Hl.
  - exists c, []. done.
  - destruct (repeated_poll_commits_nothing sl d c t Hl Ht)
      as (c1 & r & Hu & T1 & X1 & _).
    destruct (IH c1) as (c' & rs & Hr & T' & X'); [by rewrite X1|].
    exists c', (r :: rs). cbn [repeat run_polls]. rewrite Hu. cbn.
    rewrite Hr. cbn. split; [done|]. by rewrite T', X', T1, X1.
Qed.

Lemma stable_text_committed_once_witness :
  exists c' rs,
    run_polls (repeat ([seg 0 1 "Hi " (1 # 10)], 2) 20)
      (set_text ["hi"%string] (new_client "u1" 1)) = Ok (c', rs) /\
    transcript c' = [] /\ text c' = ["hi"%string].
Proof.
  apply (stable_text_committed_once (seg 0 1 "Hi " (1 # 10)) 2 20
           (set_text ["hi"%string] (new_client "u1" 1)) "hi").
  - reflexivity.
  - reflexivity.
Defined.

(* ------------------------------------------------------------------ *)
(** *** What is sent to the client                                      *)

Lemma len_app {A} (l k : list A) : len (l ++ k) = (len l + len k)%Z.
Proof. unfold len. rewrite length_app. lia. Qed.

(** The list prepared for the client, by cases on [send_last_n_segments]. *)
Lemma prepare_segments_cases (last_segment : option Entry)
    (c : ServeClient) :
  let n := send_last_n_segments c in
  let tr := transcript c in
  ((0 < n)%Z ->
     prepare_segments last_segment c
       = drop (length tr - Z.to_nat n) tr ++ option_list last_segment /\
     len (prepare_segments last_segment c)
     = (Z.min n (len tr) + len (option_list last_segment))%Z) /\
  (n = 0%Z ->
     prepare_segments last_segment c = tr ++ option_list last_segment).
Proof.
  cbv zeta. unfold prepare_segments, py_slice_from, len.
  set (n := send_last_n_segments c). set (tr := transcript c).
  split.
  - intros Hpos.
    assert (Hl : (if (n <=? Z.of_nat (length tr))%Z
                  then if (0 <=? - n)%Z then drop (Z.to_nat (- n)) tr
                       else drop (length tr - Z.to_nat (- - n)) tr
                  else tr) = drop (length tr - Z.to_nat n) tr).
    { destruct (n <=? Z.of_nat (length tr))%Z eqn:E1.
      - destruct (0 <=? - n)%Z eqn:E2; [apply Z.leb_le in E2; lia|].
        by rewrite Z.opp_involutive.
      - apply Z.leb_gt in E1.
        replace (length tr - Z.to_nat n)%nat with 0%nat by lia. done. }
    rewrite Hl.
    assert (Ho : (match last_segment with
                  | Some e => drop (length tr - Z.to_nat n) tr ++ [e]
                  | None => drop (length tr - Z.to_nat n) tr
                  end) = drop (length tr - Z.to_nat n) tr
                         ++ option_list last_segment).
    { destruct last_segment; cbn; by rewrite ?app_nil_r. }
    rewrite Ho. split; [done|]. rewrite length_app, length_drop. lia.
  - intros ->. cbn.
    assert (E : (0 <=? Z.of_nat (length tr))%Z = true)
      by (apply Z.leb_le; lia).
    rewrite E. destruct last_segment; cbn; by rewrite ?app_nil_r.
Qed.

(** X17: with a positive [send_last_n_segments], the list prepared for the
    client is the last [send_last_n_segments] entries of the transcript, or
    all of them if there are fewer, followed by the tentative segment when
    there is one; with [send_last_n_segments = 0] it is the whole
    transcript. *)
Theorem prepare_segments_tail (last_segment : option Entry)
    (c : ServeClient) :
  let n := send_last_n_segments c in
  let tr := transcript c in
  ((0 < n)%Z ->
     prepare_segments last_segment c
       = drop (length tr - Z.to_nat n) tr ++ option_list last_segment /\
     len (prepare_segments last_segment c)
     = (Z.min n (len tr) + len (option_list last_segment))%Z) /\
  (n = 0%Z ->
     prepare_segments last_segment c = tr ++ option_list last_segment).
Proof. apply prepare_segments_cases. Qed.

Lemma prepare_segments_tail_witness :
  prepare_segments (Some tentative_entry) long_session
  = drop 2 twelve_entries ++ [tentative_entry] /\
  len (prepare_segments (Some tentative_entry) long_session) = 11%Z.
Proof.
  exact (proj1 (prepare_segments_tail (Some tentative_entry) long_session)
           eq_refl).
Defined.

Lemma len_prepare_segments (last_segment : option Entry) (c : ServeClient) :
  (0 < send_last_n_segments c)%Z ->
  (len (prepare_segments last_segment c) <= send_last_n_segments c + 1)%Z.
Proof.
  intros Hn.
  destruct (proj1 (prepare_segments_cases last_segment c) Hn) as [_ ->].
  unfold len. destruct last_segment; cbn; lia.
Qed.

Lemma len_prepare_segments_none (c : ServeClient) :
  (0 < send_last_n_segments c)%Z ->
  (len (prepare_segments None c) <= send_last_n_segments c)%Z.
Proof.
  intros Hn. destruct (proj1 (prepare_segments_cases None c) Hn) as [_ ->].
  unfold len. cbn. lia.
Qed.

(** X18: [handle_transcription_output] never raises, although
    [update_segments] does on an empty result.  What it sends is never an
    empty list and holds at most [send_last_n_segments + 1] segments; a
    non-empty result clears the idle timer, an empty one leaves transcript
    and cursor as they were. *)
Theorem handle_transcription_output_sends (now : Q)
    (result_ : list Segment) (d : Q) (c : ServeClient) :
  (0 < send_last_n_segments c)%Z ->
  exists c' sent,
    handle_transcription_output now result_ d c = Ok (c', sent) /\
    (forall l, sent = Some l ->
       l ≠ [] /\ (len l <= send_last_n_segments c + 1)%Z) /\
    (result_ ≠ [] -> t_start c' = None) /\
    (result_ = [] ->
       transcript c' = transcript c /\
       timestamp_offset c' = timestamp_offset c /\
       is_Some (t_start c')).
Proof.
  intros Hn. unfold handle_transcription_output.
  destruct result_ as [|s l].
  - change (negb (len (@nil Segment) =? 0)%Z) with false.
    unfold get_previous_output. cbv beta iota.
    change (mbind ?f (Ok ?a)) with (f a). cbv beta iota.
    set (c1 := match t_start c with
               | Some _ => c | None => set_t_start (Some now) c end).
    assert (H1 : transcript c1 = transcript c /\
                 timestamp_offset c1 = timestamp_offset c /\
                 is_Some (t_start c1) /\
                 send_last_n_segments c1 = send_last_n_segments c).
    { unfold c1. destruct (t_start c) eqn:Et; read_fields; rewrite ?Et;
        repeat split; eauto. }
    destruct H1 as (T1 & O1 & S1 & N1).
    set (segments := if Qltb _ _ then prepare_segments None c1 else []).
    set (c2 := if _ && _ then _ else c1).
    assert (H2 : transcript c2 = transcript c1 /\
                 timestamp_offset c2 = timestamp_offset c1 /\
                 t_start c2 = t_start c1).
    { unfold c2. destruct (_ && _); [|done].
      destruct (Qltb (add_pause_thresh c1) _); read_fields; done. }
    destruct H2 as (T2 & O2 & S2).
    assert (Hlen : (len segments <= send_last_n_segments c)%Z).
    { unfold segments. destruct (Qltb _ _); [|unfold len; cbn [length]; lia].
      rewrite <- N1. apply len_prepare_segments_none. by rewrite N1. }
    destruct (len segments =? 0)%Z eqn:E; cbn [negb];
      eexists _, _; (split; [reflexivity|]).
    + split; [done|]. split; [done|]. intros _.
      by rewrite T2, O2, S2, T1, O1.
    + split.
      * intros l' [= <-]. split; [|lia].
        intros El. by rewrite El in E.
      * split; [done|]. intros _. by rewrite T2, O2, S2, T1, O1.
  - assert (E : negb (len (s :: l) =? 0)%Z = true).
    { apply negb_true_iff, Z.eqb_neq. unfold len. cbn [length]. lia. }
    rewrite E.
    assert (Hl : exists sl, last (s :: l) = Some sl).
    { destruct (segments_snoc (s :: l)) as (sl & Hl & _); [done|]. eauto. }
    destruct Hl as [sl Hl].
    rewrite (update_segments_last _ _ _ _ Hl). cbn [mbind result_bind].
    set (c1 := stabilized d (removelast (s :: l)) sl (set_t_start None c)).
    destruct (stabilized_frame d (removelast (s :: l)) sl
                (set_t_start None c))
      as (_ & _ & St & _ & _ & _ & Sn & _).
    fold c1 in St, Sn. read_fields.
    set (segments := prepare_segments _ c1).
    assert (Hlen : (len segments <= send_last_n_segments c + 1)%Z).
    { unfold segments. rewrite <- Sn. apply len_prepare_segments.
      by rewrite Sn. }
    destruct (len segments =? 0)%Z eqn:E0; cbn [negb];
      eexists _, _; (split; [reflexivity|]).
    + split; [done|]. split; [done|]. intros; done.
    + split.
      * intros l' [= <-]. split; [|done].
        intros El. by rewrite El in E0.
      * split; [done|]. intros; done.
Qed.

Lemma handle_transcription_output_sends_witness :
  exists c' l,
    handle_transcription_output 0 scenario_segments 2 long_session
      = Ok (c', Some l) /\
    l <> [] /\ (len l <= send_last_n_segments long_session + 1)%Z /\
    len l = 11%Z /\ t_start c' = None.
Proof.
  destruct (handle_transcription_output_sends 0 scenario_segments 2
              long_session eq_refl)
    as (c' & sent & H1 & H2 & H3 & _).
  pose proof H1 as H1'. vm_compute in H1'.
  destruct sent as [l|]; [|discriminate H1'].
  exists c', l. split; [exact H1|].
  destruct (H2 l eq_refl) as [Hne Hlen].
  split; [exact Hne|]. split; [exact Hlen|].
  split; [|apply H3; discriminate].
  injection H1' as _ <-. reflexivity.
Defined.

(* ------------------------------------------------------------------ *)
(** *** The pause marker                                                *)

Lemma get_previous_output_fields (now : Q) (c : ServeClient) :
  let c' := (get_previous_output now c).1 in
  t_start c' = Some (default now (t_start c)) /\
  add_pause_thresh c' = add_pause_thresh c /\
  transcript c' = transcript c /\
  timestamp_offset c' = timestamp_offset c.
Proof.
  cbv zeta. unfold get_previous_output.
  destruct (t_start c) eqn:Et; read_fields; rewrite ?Et; cbn [default fst];
    destruct (_ && _); try destruct (Qltb (add_pause_thresh c) _);
    read_fields; rewrite ?Et; done.
Qed.

Lemma pause_guard (c : ServeClient) :
  negb (len (text c) =? 0)%Z
  && negb (default "" (last (text c)) =? "")%string = true <->
  text c ≠ [] /\ last (text c) ≠ Some ""%string.
Proof.
  generalize (text c). intros l. destruct l as [|t l _] using rev_ind.
  - cbn. split; [done | by intros []].
  - rewrite last_snoc. change (default ""%string (Some t)) with t.
    assert (E : (len (l ++ [t]) =? 0)%Z = false).
    { apply Z.eqb_neq. unfold len. rewrite length_app. cbn. lia. }
    rewrite E. cbn [negb andb]. rewrite negb_true_iff, String.eqb_neq.
    split.
    + intros H. split; [by destruct l|]. intros [= ->]. done.
    + intros [_ H] Ht. apply H. by rewrite Ht.
Qed.

Lemma idle_polls_settled (clocks : list Q) (c : ServeClient) :
  text c = [] \/ last (text c) = Some ""%string ->
  text (idle_polls clocks c) = text c.
Proof.
  revert c. induction clocks as [|now rest IH]; intros c Hs; [done|].
  cbn [idle_polls].
  assert (Ht : text (get_previous_output now c).1 = text c).
  { rewrite get_previous_output_text. unfold pause_due.
    destruct (negb (len (text c) =? 0)%Z
              && negb (default "" (last (text c)) =? "")%string) eqn:E;
      [|done].
    apply pause_guard in E as [H1 H2]. by destruct Hs. }
  rewrite IH; by rewrite Ht.
Qed.

Lemma idle_polls_unchanged (clocks : list Q) (c : ServeClient) :
  transcript (idle_polls clocks c) = transcript c /\
  timestamp_offset (idle_polls clocks c) = timestamp_offset c /\
  (text (idle_polls clocks c) = text c \/
   text (idle_polls clocks c) = text c ++ [""%string]).
Proof.
  revert c. induction clocks as [|now rest IH]; intros c; [by auto|].
  cbn [idle_polls].
  destruct (get_previous_output_fields now c) as (_ & _ & T1 & O1).
  destruct (IH (get_previous_output now c).1) as (T2 & O2 & X2).
  split; [by rewrite T2|]. split; [by rewrite O2|].
  pose proof (get_previous_output_text now c) as X1.
  destruct (pause_due now c).
  - right. rewrite idle_polls_settled; [done|].
    right. by rewrite X1, last_snoc.
  - rewrite X1 in X2. done.
Qed.

Lemma idle_polls_marks (clocks : list Q) (c : ServeClient) (t0 : Q) :
  t_start c = Some t0 ->
  text c ≠ [] -> last (text c) ≠ Some ""%string ->
  Exists (fun now => add_pause_thresh c < now - t0) clocks ->
  text (idle_polls clocks c) = text c ++ [""%string].
Proof.
  revert c. induction clocks as [|now rest IH]; intros c Ht H1 H2 Hex.
  { by apply Exists_nil in Hex. }
  cbn [idle_polls].
  destruct (get_previous_output_fields now c) as (S1 & P1 & _ & _).
  pose proof (get_previous_output_text now c) as X1.
  unfold pause_due in X1. rewrite Ht in X1, S1.
  change (default now (Some t0)) with t0 in X1, S1.
  rewrite (proj2 (pause_guard c) (conj H1 H2)) in X1. cbn [andb] in X1.
  destruct (Qltb (add_pause_thresh c) (now - t0)) eqn:E.
  - rewrite idle_polls_settled; [done|]. right. by rewrite X1, last_snoc.
  - rewrite <- X1. apply IH; rewrite ?X1, ?P1; try done.
    apply Exists_cons in Hex as [Hh|Ht']; [|done].
    apply Qltb_ge in E. lra.
Qed.

Lemma get_previous_output_timer (now : Q) (c : ServeClient) :
  get_previous_output now c
  = get_previous_output now
      (set_t_start (Some (default now (t_start c))) c).
Proof.
  destruct (t_start c) as [t|] eqn:Et.
  - change (default now (Some t)) with t.
    assert (Hc : set_t_start (Some t) c = c)
      by (destruct c; unfold set_t_start; cbn in *; congruence).
    by rewrite Hc.
  - change (default now None) with now.
    unfold get_previous_output. read_fields. by rewrite Et.
Qed.

(** X19: during a pause the transcript and the cursor do not change and the
    text history gains at most one blank marker, however many idle polls
    there are: none when the history is empty or already ends with a blank,
    and exactly one as soon as a poll comes more than [add_pause_thresh]
    after the start of the pause. *)
Theorem pause_marker_once (now0 : Q) (rest : list Q) (c : ServeClient) :
  let c' := idle_polls (now0 :: rest) c in
  transcript c' = transcript c /\
  timestamp_offset c' = timestamp_offset c /\
  (text c' = text c \/ text c' = text c ++ [""%string]) /\
  (text c = [] \/ last (text c) = Some ""%string -> text c' = text c) /\
  (text c ≠ [] -> last (text c) ≠ Some ""%string ->
   Exists (fun now => add_pause_thresh c < now - default now0 (t_start c))
          (now0 :: rest) ->
   text c' = text c ++ [""%string]).
Proof.
  cbv zeta.
  destruct (idle_polls_unchanged (now0 :: rest) c) as (T & O & X).
  split; [done|]. split; [done|]. split; [done|].
  split; [apply idle_polls_settled|].
  intros H1 H2 Hex. cbn [idle_polls]. rewrite get_previous_output_timer.
  apply (idle_polls_marks (now0 :: rest)
           (set_t_start (Some (default now0 (t_start c))) c)
           (default now0 (t_start c))); done.
Qed.

Lemma pause_marker_once_witness :
  text (idle_polls [10; 11; 12; 14; 15; 16]
          (set_text ["hello"%string] (new_client "u1" 1)))
  = ["hello"; ""]%string.
Proof.
  refine (proj2 (proj2 (proj2 (proj2
            (pause_marker_once 10 [11; 12; 14; 15; 16]
               (set_text ["hello"%string] (new_client "u1" 1)))))) _ _ _).
  - discriminate.
  - discriminate.
  - do 3 apply Exists_cons_tl. apply Exists_cons_hd. by vm_compute.
Defined.

(* ================================================================== *)
(** ** The worker loop                                                  *)
(* ================================================================== *)

Lemma handle_transcription_output_cursor (now : Q) (result_ : list Segment)
    (d : Q) (c : ServeClient) :
  0 <= d ->
  Forall (fun s => 0 <= seg_start s) result_ ->
  exists c' sent,
    handle_transcription_output now result_ d c = Ok (c', sent) /\
    timestamp_offset c <= timestamp_offset c' /\
    frames_np c' = frames_np c /\ frames_offset c' = frames_offset c.
Proof.
  intros Hd Hpos. unfold handle_transcription_output.
  destruct result_ as [|s l].
  - change (negb (len (@nil Segment) =? 0)%Z) with false.
    cbv beta iota. change (mbind ?f (Ok ?a)) with (f a). cbv beta iota.
    destruct (get_previous_output_fields now c) as (_ & _ & _ & O).
    assert (F : frames_np (get_previous_output now c).1 = frames_np c /\
                frames_offset (get_previous_output now c).1
                = frames_offset c).
    { unfold get_previous_output.
      destruct (t_start c); read_fields;
        destruct (_ && _); try destruct (Qltb (add_pause_thresh c) _);
        read_fields; done. }
    destruct (get_previous_output now c) as [c1 segments]. cbn [fst] in *.
    destruct (negb _); eexists _, _; (split; [reflexivity|]);
      rewrite O; split; (lra || done).
  - assert (E : negb (len (s :: l) =? 0)%Z = true).
    { apply negb_true_iff, Z.eqb_neq. unfold len. cbn [length]. lia. }
    rewrite E.
    destruct (segments_snoc (s :: l)) as (sl & Hl & _); [done|].
    rewrite (update_segments_last _ _ _ _ Hl).
    change (mbind ?f (Ok ?a)) with (f a). cbv beta iota.
    change (mbind ?f (Ok ?a)) with (f a). cbv beta iota.
    destruct (update_segments_cursor (s :: l) d (set_t_start None c)
                (stabilized d (removelast (s :: l)) sl (set_t_start None c))
                (if stable (set_t_start None c) sl then None
                 else tentative_segment d (set_t_start None c) sl)
                Hd Hpos) as [Hle _].
    { by apply update_segments_last. }
    destruct (stabilized_frame d (removelast (s :: l)) sl
                (set_t_start None c)) as (F1 & F2 & _).
    read_fields.
    destruct (negb (len (prepare_segments _ _) =? 0)%Z);
      eexists _, _; (split; [reflexivity|]); done.
Qed.

Lemma chunk_duration_bounds (chunk buf : list Q) :
  chunk `suffix_of` buf -> (len buf <= horizon * RATE)%Z ->
  0 <= get_audio_chunk_duration chunk /\
  get_audio_chunk_duration chunk <= 1073741824 /\
  get_audio_chunk_duration chunk == inject_Z (len chunk) * (1 # 16000).
Proof.
  intros Hs Hn. unfold get_audio_chunk_duration.
  apply window_seconds; [unfold len; lia|].
  apply suffix_length in Hs. unfold len in *. lia.
Qed.

(** An iteration always runs to its end, and it leaves the loop exactly
    when the exit flag is set. *)
Lemma speech_to_text_step_total (transcribe_audio : list Q -> transcription)
    (now : Q) (c : ServeClient) :
  exists c' status evs,
    speech_to_text_step transcribe_audio now c = Ok (c', status, evs) /\
    (status = Exiting <-> exit c = true).
Proof.
  unfold speech_to_text_step. destruct (exit c) eqn:Ex.
  { by exists c, Exiting, []. }
  destruct (frames_np c) as [buf|] eqn:Hb.
  2:{ by exists c, (Continuing 0), []. }
  assert (Hclip : exists c1, clip_audio_if_no_valid_segment c = Ok c1 /\
                              frames_np c1 = Some buf).
  { unfold clip_audio_if_no_valid_segment. rewrite Hb.
    destruct (25 * RATE <? _)%Z; eexists; (split; [reflexivity | done]). }
  destruct Hclip as (c1 & -> & Hb1).
  change (mbind ?f (Ok ?a)) with (f a). cbv beta.
  destruct (chunk_suffix c1 buf Hb1) as (chunk & -> & _).
  change (mbind ?f (Ok ?a)) with (f a). cbv beta iota.
  destruct (Qltb (get_audio_chunk_duration chunk) 1).
  { eexists _, _, _. split; [reflexivity|]. by split. }
  destruct (transcribe_audio chunk) as [|segments|].
  - eexists _, _, _. split; [reflexivity|]. by split.
  - destruct (handle_transcription_output _ _ _ _) as [[c2 [l|]]|];
      eexists _, _, _; (split; [reflexivity|]); by split.
  - eexists _, _, _. split; [reflexivity|]. by split.
Qed.

(** One iteration on a window of the data model, by cases. *)
Lemma speech_to_text_step_cases (transcribe_audio : list Q -> transcription)
    (now : Q) (c c' : ServeClient) (status : worker_status)
    (evs : list event) :
  frames_offset c <= timestamp_offset c ->
  (forall buf, frames_np c = Some buf -> window_ok c buf) ->
  (forall chunk segments,
     transcribe_audio chunk = Transcribed segments ->
     Forall (fun s => 0 <= seg_start s) segments) ->
  speech_to_text_step transcribe_audio now c = Ok (c', status, evs) ->
  timestamp_offset c <= timestamp_offset c' /\
  frames_np c' = frames_np c /\ frames_offset c' = frames_offset c /\
  (status = Continuing (1 # 10) -> c' = c /\ evs = []).
Proof.
  intros Hinv Hok Hpos. unfold speech_to_text_step.
  destruct (exit c) eqn:Ex.
  { intros [= <- <- <-]. repeat split; try done; lra. }
  destruct (frames_np c) as [buf|] eqn:Hb.
  2:{ intros [= <- <- <-]. repeat split; try done; lra. }
  pose proof (Hok buf eq_refl) as Hw.
  destruct (clip_cursor_bounds c buf Hw)
    as (c1 & Hclip & Hc1 & Hts & Hfo & Hup & Hfire & Hidle).
  rewrite Hclip. change (mbind ?f (Ok ?a)) with (f a). cbv beta.
  assert (Hb1 : frames_np c1 = Some buf) by (by rewrite Hc1).
  assert (Hf1 : frames_offset c1 = frames_offset c) by (by rewrite Hc1).
  rewrite (chunk_at_cursor c1 buf Hb1 Hfo).
  set (chunk := drop (Z.to_nat (cursor_samples c1)) buf).
  change (mbind ?f (Ok ?a)) with (f a). cbv beta iota.
  destruct Hw as (_ & F0 & _ & T1 & N1).
  destruct (chunk_duration_bounds chunk buf (suffix_drop _ _) N1)
    as (D0 & D1 & Ed).
  destruct (Qltb (get_audio_chunk_duration chunk) 1) eqn:Hshort.
  - intros [= <- <- <-]. split; [done|]. split; [by rewrite Hb1|].
    split; [done|]. intros _. split; [|done].
    (* the clip did not fire, or the chunk would last five seconds *)
    destruct (Z.lt_ge_cases (25 * RATE) (unprocessed_samples c buf))
      as [Hst|Hst]; [|apply Hidle; lia].
    exfalso.
    destruct (clipped_chunk c buf (Hok buf eq_refl) Hst)
      as (c2 & chunk2 & H1 & _ & _ & H4 & H5).
    rewrite Hclip in H1. injection H1 as <-. fold chunk in H4. subst chunk2.
    apply Qltb_lt in Hshort. rewrite Ed in Hshort.
    assert (H80 : (5 * RATE <= len chunk)%Z) by lia.
    rewrite Zle_Qle in H80. change (inject_Z (5 * RATE)) with 80000 in H80.
    lra.
  - apply Qltb_ge in Hshort. rewrite inject_Z_horizon in T1.
    destruct (transcribe_audio chunk) as [|segments|] eqn:Htr.
    + intros [= <- <- <-].
      cbn [timestamp_offset frames_np frames_offset set_timestamp_offset].
      destruct (fadd_near (timestamp_offset c1)
                  (get_audio_chunk_duration chunk)) as [A1 _]; [lra..|].
      split; [lra|]. split; [by rewrite Hb1|]. split; [done|].
      by intros [= ?].
    + destruct (handle_transcription_output_cursor now segments
                  (get_audio_chunk_duration chunk) c1 D0
                  (Hpos _ _ Htr)) as (c2 & sent & -> & Hle & F1 & F2).
      destruct sent as [l|]; intros [= <- <- <-];
        (split; [lra|]); (split; [by rewrite F1, Hb1|]);
        (split; [by rewrite F2|]); by intros [= ?].
    + intros [= <- <- <-]. split; [done|]. split; [by rewrite Hb1|].
      split; [done|]. by intros [= ?].
Qed.

(** X20: an iteration of the worker loop never raises and leaves the loop
    exactly when the exit flag is set.  When the window is within the data
    model and the model gives no segment starting before the chunk, the
    iteration leaves the window and the buffer origin alone and moves the
    cursor forward only; and when it ends in the 0.1 s sleep for lack of
    audio it has changed nothing and sent nothing. *)
Theorem worker_step_advances (transcribe_audio : list Q -> transcription)
    (now : Q) (c : ServeClient) :
  (exists c' status evs,
     speech_to_text_step transcribe_audio now c = Ok (c', status, evs) /\
     (status = Exiting <-> exit c = true)) /\
  (frames_offset c <= timestamp_offset c ->
   (forall buf, frames_np c = Some buf -> window_ok c buf) ->
   (forall chunk segments,
      transcribe_audio chunk = Transcribed segments ->
      Forall (fun s => 0 <= seg_start s) segments) ->
   forall c' status evs,
     speech_to_text_step transcribe_audio now c = Ok (c', status, evs) ->
     timestamp_offset c <= timestamp_offset c' /\
     frames_offset c' <= timestamp_offset c' /\
     frames_np c' = frames_np c /\ frames_offset c' = frames_offset c /\
     (status = Continuing (1 # 10) -> c' = c /\ evs = [])).
Proof.
  split; [apply speech_to_text_step_total|].
  intros Hinv Hok Hpos c' status evs Hstep.
  destruct (speech_to_text_step_cases transcribe_audio now c c' status evs
              Hinv Hok Hpos Hstep) as (H1 & H2 & H3 & H4).
  split; [done|]. split; [rewrite H3; lra|]. done.
Qed.

Lemma worker_step_advances_witness :
  exists c' evs,
    speech_to_text_step (fun _ => Transcribed scenario_segments) 0
      (set_frames_np (Some (samples 32000)) (new_client "u1" 1))
    = Ok (c', Continuing 0, evs) /\
    evs <> [] /\ timestamp_offset c' == 1 /\
    0 <= timestamp_offset c' /\
    frames_np c' = Some (samples 32000).
Proof.
  set (c0 := set_frames_np (Some (samples 32000)) (new_client "u1" 1)).
  set (tr := fun _ : list Q => Transcribed scenario_segments).
  destruct (worker_step_advances tr 0 c0) as [(c' & status & evs & H1 & _) H2].
  assert (Hl : len (samples 32000) = 32000%Z) by (by apply len_samples).
  assert (Hstep : exists c2 l,
            speech_to_text_step tr 0 c0
            = Ok (c2, Continuing 0, [Sent 1 (MsgSegments "u1" l)]) /\
            timestamp_offset c2 = 1).
  { unfold speech_to_text_step, clip_audio_if_no_valid_segment,
      get_audio_chunk_for_processing, c0.
    cbn [exit frames_np frames_offset timestamp_offset set_frames_np
         new_client].
    change (py_int (fmul (fsub 0 0) (inject_Z RATE))) with 0%Z.
    change (py_slice_from (samples 32000) 0) with (samples 32000).
    rewrite Hl. change (25 * RATE <? 32000)%Z with false. cbv iota.
    change (mbind ?f (Ok ?a)) with (f a). cbv beta.
    cbn [frames_np frames_offset timestamp_offset set_frames_np new_client].
    change (py_int (py_max 0 (fmul (fsub 0 0) (inject_Z RATE)))) with 0%Z.
    change (py_slice_from (samples 32000) 0) with (samples 32000).
    rewrite Hl. change (mbind ?f (Ok ?a)) with (f a). cbv beta iota.
    change (Qltb (inject_Z 32000 / inject_Z RATE) 1) with false. cbv iota.
    unfold tr. generalize (samples 32000). intros w.
    eexists _, _. split; [vm_compute; reflexivity|]. reflexivity. }
  destruct Hstep as (c2 & l & Hstep & Hts).
  rewrite Hstep in H1. injection H1 as <- <- <-.
  exists c2, [Sent 1 (MsgSegments "u1" l)]. split; [exact Hstep|].
  split; [discriminate|]. split; [by rewrite Hts|].
  destruct (H2 ltac:(by vm_compute)) with (c' := c2)
    (status := Continuing 0) (evs := [Sent 1 (MsgSegments "u1" l)])
    as (A1 & A2 & A3 & _).
  - intros buf [= <-]. apply fresh_window_ok; [lia | vm_compute; discriminate].
  - intros chunk segments [= <-]. unfold scenario_segments.
    repeat constructor; by vm_compute.
  - exact Hstep.
  - split; [exact A1 | exact A3].
Defined.

(** The chunk that follows an iteration in which the model heard no voice. *)
Lemma no_voice_next_chunk (transcribe_audio : list Q -> transcription)
    (now : Q) (c c' : ServeClient) (buf : list Q) (evs : list event) :
  window_ok c buf ->
  speech_to_text_step transcribe_audio now c
    = Ok (c', Continuing (25 # 100), evs) ->
  evs = [] /\ transcript c' = transcript c /\ text c' = text c /\
  exists chunk,
    get_audio_chunk_for_processing c'
      = Ok (chunk, get_audio_chunk_duration chunk) /\
    chunk = drop (Z.to_nat (cursor_samples c')) buf /\
    (len chunk <= 1)%Z.
Proof.
  intros Hw. unfold speech_to_text_step.
  destruct (exit c); [done|].
  destruct (clip_cursor_bounds c buf Hw)
    as (c1 & Hclip & Hc1 & Hts & Hfo & Hup & _).
  destruct Hw as (Hb & F0 & Hinv & T1 & N1). rewrite Hb, Hclip.
  change (mbind ?f (Ok ?a)) with (f a). cbv beta.
  assert (Hb1 : frames_np c1 = Some buf) by (by rewrite Hc1).
  assert (Hf1 : frames_offset c1 = frames_offset c) by (by rewrite Hc1).
  assert (Ht1 : transcript c1 = transcript c) by (by rewrite Hc1).
  assert (Hx1 : text c1 = text c) by (by rewrite Hc1).
  rewrite (chunk_at_cursor c1 buf Hb1 Hfo).
  set (chunk := drop (Z.to_nat (cursor_samples c1)) buf).
  change (mbind ?f (Ok ?a)) with (f a). cbv beta iota.
  destruct (chunk_duration_bounds chunk buf (suffix_drop _ _) N1)
    as (D0 & D1 & Ed).
  destruct (Qltb (get_audio_chunk_duration chunk) 1) eqn:Hshort;
    [by intros [= ? ?]|].
  destruct (transcribe_audio chunk) as [|segments|].
  2:{ destruct (handle_transcription_output _ _ _ _) as [[c2 [l|]]|];
        by intros [= ? ?]. }
  2:{ by intros [= ? ?]. }
  intros [= <- <-].
  cbn [transcript text set_timestamp_offset].
  split; [done|]. split; [done|]. split; [done|].
  set (c2 := set_timestamp_offset _ c1).
  apply Qltb_ge in Hshort. rewrite inject_Z_horizon in T1.
  rewrite Hf1 in Hfo.
  destruct (fadd_near (timestamp_offset c1) (get_audio_chunk_duration chunk))
    as [A1 A2]; [lra..|].
  assert (Hfo2 : frames_offset c2 <= timestamp_offset c2).
  { unfold c2. cbn [timestamp_offset frames_offset set_timestamp_offset].
    rewrite Hf1. lra. }
  assert (Hb2 : frames_np c2 = Some buf) by done.
  eexists. split; [by apply chunk_at_cursor|]. split; [done|].
  destruct (cursor_samples_bounds c1) as (K0 & _ & K2);
    [by rewrite Hf1 | by rewrite Hf1 | lra |].
  destruct (cursor_samples_bounds c2) as (L0 & L1 & _).
  { unfold c2. cbn [frames_offset set_timestamp_offset]. by rewrite Hf1. }
  { done. }
  { unfold c2. cbn [timestamp_offset set_timestamp_offset]. lra. }
  rewrite (len_drop _ _ L0).
  assert (Hlen : len chunk = Z.max 0 (len buf - cursor_samples c1))
    by (by apply len_drop).
  assert (Hm : (RATE <= len chunk)%Z).
  { rewrite Zle_Qle. change (inject_Z RATE) with 16000. lra. }
  assert (Hm' : len chunk = (len buf - cursor_samples c1)%Z)
    by (unfold RATE in Hm; lia).
  rewrite Hm', inject_Z_sub in Ed.
  assert (Hk2 : (len buf - 2 < cursor_samples c2)%Z).
  { rewrite Zlt_Qlt, inject_Z_sub. change (inject_Z 2) with 2.
    change (timestamp_offset c2)
      with (fadd (timestamp_offset c1) (get_audio_chunk_duration chunk))
      in L1.
    change (frames_offset c2) with (frames_offset c1) in L1.
    rewrite Hf1 in L1, K2. revert L1 A1 K2 Ed.
    generalize (fadd (timestamp_offset c1) (get_audio_chunk_duration chunk))
      (get_audio_chunk_duration chunk) (inject_Z (len buf))
      (inject_Z (cursor_samples c1)) (inject_Z (cursor_samples c2))
      (timestamp_offset c1) (frames_offset c).
    intros; lra. }
  lia.
Qed.

(** X21: when the model reports no voice the chunk counts as consumed: the
    cursor moves past it, nothing is sent, and as long as no audio arrives
    the next chunk holds at most one sample, the last one of the window
    when the binary64 product that places the cursor falls just short of
    the window length. *)
Theorem no_voice_consumes_chunk (transcribe_audio : list Q -> transcription)
    (now : Q) (c c' : ServeClient) (buf : list Q) (evs : list event) :
  window_ok c buf ->
  speech_to_text_step transcribe_audio now c
    = Ok (c', Continuing (25 # 100), evs) ->
  evs = [] /\ transcript c' = transcript c /\ text c' = text c /\
  exists chunk,
    get_audio_chunk_for_processing c'
      = Ok (chunk, get_audio_chunk_duration chunk) /\
    chunk = drop (Z.to_nat (cursor_samples c')) buf /\
    (len chunk <= 1)%Z.
Proof. apply no_voice_next_chunk. Qed.

Lemma no_voice_consumes_chunk_witness :
  exists c' chunk,
    speech_to_text_step (fun _ => NoVoice) 0
      (set_frames_np (Some (samples 16002)) (new_client "u1" 1))
    = Ok (c', Continuing (25 # 100), []) /\
    get_audio_chunk_for_processing c'
      = Ok (chunk, get_audio_chunk_duration chunk) /\
    chunk = drop (Z.to_nat 16001) (samples 16002) /\
    len chunk = 1%Z.
Proof.
  set (c0 := set_frames_np (Some (samples 16002)) (new_client "u1" 1)).
  assert (Hl : len (samples 16002) = 16002%Z) by (by apply len_samples).
  assert (Hstep :
    speech_to_text_step (fun _ => NoVoice) 0 c0
    = Ok (set_timestamp_offset
            (fadd 0 (inject_Z 16002 / inject_Z RATE)) c0,
          Continuing (25 # 100), [])).
  { unfold speech_to_text_step, clip_audio_if_no_valid_segment,
      get_audio_chunk_for_processing, c0.
    cbn [exit frames_np frames_offset timestamp_offset set_frames_np
         new_client].
    change (py_int (fmul (fsub 0 0) (inject_Z RATE))) with 0%Z.
    change (py_slice_from (samples 16002) 0) with (samples 16002).
    rewrite Hl. change (25 * RATE <? 16002)%Z with false. cbv iota.
    change (mbind ?f (Ok ?a)) with (f a). cbv beta.
    cbn [frames_np frames_offset timestamp_offset set_frames_np new_client].
    change (py_int (py_max 0 (fmul (fsub 0 0) (inject_Z RATE)))) with 0%Z.
    change (py_slice_from (samples 16002) 0) with (samples 16002).
    rewrite Hl. change (mbind ?f (Ok ?a)) with (f a). cbv beta iota.
    change (Qltb (inject_Z 16002 / inject_Z RATE) 1) with false. cbv iota.
    reflexivity. }
  destruct (no_voice_consumes_chunk (fun _ => NoVoice) 0 c0 _
              (samples 16002) [] (fresh_window_ok 16002 ltac:(lia)
                                    ltac:(vm_compute; discriminate)) Hstep)
    as (_ & _ & _ & chunk & H1 & H2 & _).
  eexists _, chunk. split; [exact Hstep|]. split; [exact H1|].
  assert (Hk : cursor_samples
                 (set_timestamp_offset
                    (fadd 0 (inject_Z 16002 / inject_Z RATE)) c0)
               = 16001%Z).
  { unfold cursor_samples, c0.
    cbn [frames_offset timestamp_offset set_frames_np set_timestamp_offset
         new_client].
    vm_compute. reflexivity. }
  rewrite Hk in H2. split; [exact H2|].
  rewrite H2, len_drop by lia. rewrite Hl. reflexivity.
Defined.

(* ------------------------------------------------------------------ *)
(** *** A whole connection                                              *)

Section ConnectionProperties.
Variable path_exists : string -> bool.
Variable model_loads : string -> bool.

Lemma handle_new_connection_cases (ws : positive)
    (handshake : option Options) (model_path : option string) (now : Q)
    (m : ClientManager) :
  (exists sent,
     handle_new_connection path_exists model_loads ws handshake model_path
       now m = (false, m, sent)) \/
  (exists uid,
     handle_new_connection path_exists model_loads ws handshake model_path
       now m
     = (true, add_client ws (new_client uid ws) now m,
        [Told ws (MsgServerReady uid "faster_whisper")])).
Proof using Type.
  unfold handle_new_connection.
  destruct handshake as [options|]; [|by eauto].
  destruct (max_clients m <=? Z.of_nat (size (clients m)))%Z.
  - destruct (opt_uid options); by eauto.
  - destruct (initialize_client _ _ _ _ _ _ _) as [sent [m1|]] eqn:Hi;
      [|by eauto].
    apply initialize_client_registers in Hi as (uid & _ & -> & ->).
    right. by exists uid.
Qed.

(** X22: a connection leaves no session behind: whenever [recv_audio]
    returns on a websocket that was not registered, whether the handshake
    failed or the frame loop ended, the websocket is not registered
    afterwards and the sessions of the other websockets are as before. *)
Theorem recv_audio_leaves_no_session (ws : positive)
    (handshake : option Options) (model_path : option string) (now : Q)
    (inputs : list (Q * option (list Q))) (m : ClientManager) :
  tables_agree m ->
  get_client ws m = None ->
  let r := recv_audio path_exists model_loads ws handshake model_path now
             inputs m in
  (r.1.1 = Returned ->
     get_client ws r.1.2 = None /\ start_times r.1.2 !! ws = None) /\
  forall ws', ws' ≠ ws ->
    get_client ws' r.1.2 = get_client ws' m /\
    start_times r.1.2 !! ws' = start_times m !! ws'.
Proof using Type.
  intros Hag Hnone. cbv zeta. unfold recv_audio.
  destruct (handle_new_connection_cases ws handshake model_path now m)
    as [[sent ->]|[uid ->]].
  - cbn [fst snd]. split; [|done]. intros _. split; [done|].
    destruct (start_times m !! ws) eqn:Ht; [|done].
    destruct (proj2 (Hag ws)) as [c Hc]; [by rewrite Ht|].
    unfold get_client in Hnone. congruence.
  - set (m1 := add_client ws (new_client uid ws) now m).
    destruct (recv_audio_loop_sessions ws inputs m1
                (tables_agree_add _ _ _ _ Hag)) as [L1 L2].
    destruct (recv_audio_loop ws inputs m1) as [[st m2] evs].
    cbn [fst snd] in *. split; [done|].
    intros ws' Hne. destruct (L2 ws' Hne) as [-> ->].
    unfold m1, get_client. cbn [add_client clients start_times].
    by rewrite !lookup_insert_ne.
Qed.
End ConnectionProperties.

Lemma recv_audio_leaves_no_session_witness :
  get_client 1
    (recv_audio (fun _ => false) (fun _ => true) 1
       (Some {| opt_uid := Some "u1"%string;
                opt_model := Some "base.en"%string |})
       None 0 [(1, Some [0]); (2, None)] new_manager).1.2 = None.
Proof.
  refine (proj1 (proj1
    (recv_audio_leaves_no_session (fun _ => false) (fun _ => true) 1
       (Some {| opt_uid := Some "u1"%string;
                opt_model := Some "base.en"%string |})
       None 0 [(1, Some [0]); (2, None)] new_manager
       tables_agree_new eq_refl) _)).
  by vm_compute.
Defined.

